(** * Study-Chatbot: retrieval, context budgeting, chunking, exam synthesis
      and chat history, embedded from the Python sources

    The development follows the repository's modules:
    - [Py]       the fragment of Python's [str], [int] and [list] used below;
    - [Chunker]  [pdf_processor.py]  ([PDFProcessor.chunk_text]);
    - [Rag]      [rag_system.py]     ([similarity_search],
                 [get_document_overview], [get_relevant_context],
                 [ask_question]);
    - [Exam]     [exam_generator.py] ([generate_complete_exam] and the two
                 renderers);
    - [Chatbot]  [chatbot.py]        (the chat history and the two getters);
    - [Dict], [Extraction]  [pdf_processor.py]  (the extractors,
                 [extract_text_from_pdf], [get_pdf_info], [process_pdf]);
    - [Indexing] [rag_system.py]     ([_clean_metadata]).

    External collaborators (the vector index, the text splitter of
    langchain, the model service, the PDF libraries, Python's Unicode
    tables and the built-in [hash]) are parameters of the sections that use
    them.  The definitions come first, with sample data in [Examples] and
    [Samples] and the vocabulary of the later statements in [Vocabulary];
    the facts about each module follow in [PyFacts], [ChunkerFacts],
    [RagFacts], [OverviewFacts], [ExamFacts], [RenderFacts] and
    [ChatbotFacts], and then in [StringFacts], [CleanFacts],
    [ExtractionFacts], [RetrievalFacts], [SourceFacts], [SynthesisFacts],
    [SessionFacts] and [IndexingFacts]. *)

From Stdlib Require Import ZArith List Lia String Ascii DecimalString QArith.
From stdpp Require Import base decidable option list gmap.

Close Scope Q_scope.
Open Scope Z_scope.

(* ===================================================================== *)
(** * Python strings, slices and the Unicode predicates                  *)
(* ===================================================================== *)

Module Py.

(** A Python [str] is a sequence of code points; [len] counts them. *)
Definition char := N.
Definition str := list char.

(** ASCII literals of the sources, as code points. *)
Definition lit (s : string) : str :=
  (fun a => N_of_ascii a) <$> list_ascii_of_string s.

Definition len {A} (l : list A) : Z := Z.of_nat (length l).

(** [s[:n]]: a negative bound counts from the end. *)
Definition slice_to {A} (n : Z) (s : list A) : list A :=
  if 0 <=? n then take (Z.to_nat n) s
  else take (length s - Z.to_nat (- n))%nat s.

(** [sep.join(parts)]. *)
Fixpoint join (sep : str) (parts : list str) : str :=
  match parts with
  | [] => []
  | p :: ps =>
      match ps with
      | [] => p
      | _ :: _ => p ++ sep ++ join sep ps
      end
  end.

(** [str(n)] for an [int]. *)
Definition str_of_Z (z : Z) : str :=
  lit (NilZero.string_of_int (Z.to_int z)).

(** [str(b)] for a [bool]. *)
Definition str_of_bool (b : bool) : str :=
  if b then lit "True" else lit "False".

(** [c * n] for a one-character string [c]. *)
Definition repeat_char (c : char) (n : nat) : str := replicate n c.

Definition str_eqb (a b : str) : bool := bool_decide (a = b).

(** [s.startswith(p)] and [s.endswith(p)]. *)
Fixpoint startswith (p s : str) : bool :=
  match p, s with
  | [], _ => true
  | _ :: _, [] => false
  | a :: p', b :: s' => (a =? b)%N && startswith p' s'
  end.

Definition endswith (p s : str) : bool := startswith (rev p) (rev s).

(** [p in s]: substring test. *)
Fixpoint contains (p s : str) : bool :=
  startswith p s ||
  match s with
  | [] => false
  | _ :: s' => contains p s'
  end.

(** [s.split(sep)] for a non-empty separator: cut at every occurrence,
    scanning from the left; [fuel] bounds the scan by the length of [s]. *)
Fixpoint split_go (fuel : nat) (sep : str) (cur : str) (s : str) : list str :=
  match fuel with
  | O => [rev cur ++ s]
  | S fuel' =>
      match s with
      | [] => [rev cur]
      | c :: s' =>
          if startswith sep s
          then rev cur :: split_go fuel' sep [] (drop (length sep) s)
          else split_go fuel' sep (c :: cur) s'
      end
  end.

Definition split (sep : str) (s : str) : list str :=
  split_go (S (length s)) sep [] s.

(** The tables of the Unicode database that the sources consult through
    [str.isalpha], [str.strip] / [\s], [\d], [str.lower], [str.upper] and
    [str.title].  They are an interface: the theorems hold for every
    table. *)
Class Unicode := {
  isalpha   : char -> bool;
  isspace   : char -> bool;
  isdecimal : char -> bool;
  lower     : str -> str;
  upper     : str -> str;
  title     : str -> str
}.

(** [s.strip()]: whitespace is removed at both ends. *)
Fixpoint skip_while {A} (f : A -> bool) (s : list A) : list A :=
  match s with
  | [] => []
  | c :: s' => if f c then skip_while f s' else s
  end.

Definition lstrip `{U : Unicode} (s : str) : str := skip_while isspace s.
Definition strip `{U : Unicode} (s : str) : str := rev (lstrip (rev (lstrip s))).

(** The tables restricted to ASCII, for running the code on ASCII text. *)
Definition ascii_upper_letter (c : char) : bool := ((65 <=? c) && (c <=? 90))%N.
Definition ascii_lower_letter (c : char) : bool := ((97 <=? c) && (c <=? 122))%N.

Definition ascii_lower_char (c : char) : char :=
  if ascii_upper_letter c then (c + 32)%N else c.
Definition ascii_upper_char (c : char) : char :=
  if ascii_lower_letter c then (c - 32)%N else c.

(** [str.title]: the first cased character of every run of letters is
    upper-cased, the others lower-cased. *)
Fixpoint ascii_title_go (inword : bool) (s : str) : str :=
  match s with
  | [] => []
  | c :: s' =>
      if ascii_upper_letter c || ascii_lower_letter c
      then (if inword then ascii_lower_char c else ascii_upper_char c)
             :: ascii_title_go true s'
      else c :: ascii_title_go false s'
  end.

Definition ascii_tables : Unicode := {|
  isalpha c := ascii_upper_letter c || ascii_lower_letter c;
  isspace c := (((9 <=? c) && (c <=? 13)) || ((28 <=? c) && (c <=? 32)))%N;
  isdecimal c := ((48 <=? c) && (c <=? 57))%N;
  lower s := ascii_lower_char <$> s;
  upper s := ascii_upper_char <$> s;
  title s := ascii_title_go false s
|}.

End Py.

Import Py.

(* ===================================================================== *)
(** * Documents                                                          *)
(* ===================================================================== *)

(** Scalar metadata values; [MOther] keeps any other scalar (a float, for
    instance) with the text [str(value)] prints for it. *)
Inductive mval :=
  | MStr (s : str)
  | MInt (z : Z)
  | MBool (b : bool)
  | MOther (shown : str).

(** [str(v)], as an f-string prints a metadata value. *)
Definition str_of_mval (v : mval) : str :=
  match v with
  | MStr s => s
  | MInt z => str_of_Z z
  | MBool b => str_of_bool b
  | MOther shown => shown
  end.

(** langchain's [Document]: a text and a metadata dictionary. *)
Record Document := {
  page_content : str;
  metadata : gmap str mval
}.

(* ===================================================================== *)
(** * pdf_processor.py: chunking                                         *)
(* ===================================================================== *)

Module Chunker.

Section chunker.

Context `{U : Unicode}.

(** langchain's [RecursiveCharacterTextSplitter.split_text], configured in
    [__init__], is the collaborator of [chunk_text]. *)
Variable split_text : str -> list str.

(** ** Cleaning *)

(** [span f s]: the longest prefix whose characters satisfy [f], and the
    rest. *)
Fixpoint span {A} (f : A -> bool) (s : list A) : list A * list A :=
  match s with
  | [] => ([], [])
  | c :: s' =>
      if f c then let '(a, b) := span f s' in (c :: a, b) else ([], s)
  end.

(** A case-insensitive test of one character against an ASCII letter given
    in upper case. *)
Definition ci_letter (up : N) (c : char) : bool := ((c =? up) || (c =? up + 32))%N.

(** [re.sub(pattern, repl, text)] for a pattern that matches no empty
    string: [matcher s] is the length of the match of the pattern at the
    start of [s], if there is one; [skip] counts the characters of the
    current match still to pass over. *)
Fixpoint re_sub_go (matcher : str -> option nat) (repl : str) (skip : nat)
    (s : str) : str :=
  match s with
  | [] => []
  | c :: s' =>
      match skip with
      | S k => re_sub_go matcher repl k s'
      | O =>
          match matcher s with
          | Some (S n) => repl ++ re_sub_go matcher repl n s'
          | _ => c :: re_sub_go matcher repl 0 s'
          end
      end
  end.

Definition re_sub (matcher : str -> option nat) (repl : str) (s : str) : str :=
  re_sub_go matcher repl 0 s.

(** In the four patterns below the character classes that follow one
    another are disjoint, so the greedy scan finds the match. *)

(** [\[Page \d+\]\s*]. *)
Definition match_page_marker (s : str) : option nat :=
  if startswith (lit "[Page ") s then
    let '(digits, s1) := span isdecimal (drop 6 s) in
    match digits, s1 with
    | _ :: _, c :: s2 =>
        if (c =? 93)%N
        then Some (6 + length digits + 1 + length (fst (span isspace s2)))%nat
        else None
    | _, _ => None
    end
  else None.

(** [Page\s*\d+\s*of\s*\d+], ignoring case. *)
Definition match_page_of (s : str) : option nat :=
  match s with
  | p :: a :: g :: e :: s1 =>
      if ci_letter 80 p && ci_letter 65 a && ci_letter 71 g && ci_letter 69 e
      then
        let '(ws1, s2) := span isspace s1 in
        let '(digits1, s3) := span isdecimal s2 in
        let '(ws2, s4) := span isspace s3 in
        match digits1, s4 with
        | _ :: _, o :: f :: s5 =>
            if ci_letter 79 o && ci_letter 70 f
            then
              let '(ws3, s6) := span isspace s5 in
              let '(digits2, _) := span isdecimal s6 in
              match digits2 with
              | _ :: _ =>
                  Some (4 + length ws1 + length digits1 + length ws2 + 2
                        + length ws3 + length digits2)%nat
              | [] => None
              end
            else None
        | _, _ => None
        end
      else None
  | _ => None
  end.

(** [[ \t]+]. *)
Definition match_blanks (s : str) : option nat :=
  match fst (span (fun c => (c =? 32) || (c =? 9))%N s) with
  | [] => None
  | (_ :: _) as blanks => Some (length blanks)
  end.

(** The position after the last line feed of [s], or 0 without one. *)
Fixpoint after_last_newline (s : str) : nat :=
  match s with
  | [] => O
  | c :: s' =>
      match after_last_newline s' with
      | S n => S (S n)
      | O => if (c =? 10)%N then 1%nat else O
      end
  end.

(** [\n\s*\n\s*\n+]: from a line feed, the white space that follows
    must hold two more line feeds; the match ends at the last line feed
    of that white space. *)
Definition match_blank_lines (s : str) : option nat :=
  match s with
  | c :: s1 =>
      if (c =? 10)%N
      then
        let ws := fst (span isspace s1) in
        if (2 <=? length (List.filter (fun d => (d =? 10)%N) ws))%nat
        then Some (1 + after_last_newline ws)%nat
        else None
      else None
  | [] => None
  end.

(** The chain of [str.replace] calls, one character at a time. *)
Definition replace_char (c : char) : str :=
  if (c =? 8217)%N then [39%N]
  else if (c =? 8220)%N then [34%N]
  else if (c =? 8221)%N then [34%N]
  else if (c =? 8211)%N then [45%N]
  else if (c =? 8212)%N then [45%N; 45%N]
  else if (c =? 160)%N then [32%N]
  else if (c =? 12)%N then []
  else [c].

(** The loop over the lines: the lines kept, stripped.  The float test
    [letter_count < len(line) * 0.3] is the integer test
    [10 * letter_count < 3 * len(line)], as in the quality loop below. *)
Fixpoint clean_lines (lines : list str) : list str :=
  match lines with
  | [] => []
  | line :: rest =>
      let line := strip line in
      if len line <? 5 then clean_lines rest
      else if forallb isdecimal line then clean_lines rest
      else if (10 * len (List.filter isalpha line) <? 3 * len line)
              && (len line >? 10)
      then clean_lines rest
      else line :: clean_lines rest
  end.

(** [PDFProcessor.clean_text(text)]. *)
Definition clean_text (text : str) : str :=
  match text with
  | [] => []
  | _ :: _ =>
      let text := re_sub match_page_marker [] text in
      let text := re_sub match_page_of [] text in
      let text := re_sub match_blanks [32%N] text in
      let text := re_sub match_blank_lines [10%N; 10%N] text in
      let text := c ← text; replace_char c in
      strip (join [10%N] (clean_lines (split [10%N] text)))
  end.

(** ** Chunking *)

(** [TextSplitter.split_documents]: every window of every document becomes
    a new document carrying its own copy of the document's metadata. *)
Definition split_documents (docs : list Document) : list Document :=
  doc ← docs;
  (fun window => {| page_content := window; metadata := metadata doc |})
    <$> split_text (page_content doc).

(** [sum(1 for c in content if c.isalpha())]. *)
Definition alpha_chars (content : str) : Z := len (List.filter isalpha content).

Definition skip_optional (c : N) (s : str) : str :=
  match s with
  | d :: s' => if (d =? c)%N then s' else s
  | [] => s
  end.

(** [re.match(r'^\s*\[?Page\s*\d+\]?\s*$', content, re.IGNORECASE)].  The
    character classes that follow one another are disjoint, so the greedy
    scan decides the match. *)
Definition page_marker (content : str) : bool :=
  let s := skip_while isspace content in
  let s := skip_optional 91 s in
  match s with
  | p :: a :: g :: e :: s =>
      if ci_letter 80 p && ci_letter 65 a && ci_letter 71 g && ci_letter 69 e
      then
        let s := skip_while isspace s in
        let '(digits, s) := span isdecimal s in
        match digits with
        | [] => false
        | _ :: _ =>
            let s := skip_optional 93 s in
            match skip_while isspace s with
            | [] => true
            | _ :: _ => false
            end
        end
      else false
  | _ => false
  end.

(** [chunk.metadata.update({...})]. *)
Definition tag (chunk : Document) (chunk_id chunk_count : Z) (content : str)
  : Document :=
  {| page_content := page_content chunk;
     metadata :=
       <[ lit "content_length" := MInt (len content) ]>
       (<[ lit "source_type" := MStr (lit "pdf") ]>
       (<[ lit "chunk_count" := MInt chunk_count ]>
       (<[ lit "chunk_id" := MInt chunk_id ]> (metadata chunk)))) |}.

(** The quality loop of [chunk_text]: [total] is [len(chunks)] and
    [quality_chunks] the list built so far.  The source compares the integer
    [alpha_chars] with the float [len(content) * 0.3]; the product of a
    length with the double nearest 0.3 rounds to the same side of every
    integer as the exact 3*len/10, so the test is the integer comparison
    [10 * alpha_chars < 3 * len(content)]. *)
Fixpoint quality_loop (total : Z) (chunks : list Document)
    (quality_chunks : list Document) : list Document :=
  match chunks with
  | [] => quality_chunks
  | chunk :: rest =>
      let content := strip (page_content chunk) in
      if len content <? 50 then quality_loop total rest quality_chunks
      else if 10 * alpha_chars content <? 3 * len content
      then quality_loop total rest quality_chunks
      else if page_marker content then quality_loop total rest quality_chunks
      else
        quality_loop total rest
          (quality_chunks ++ [tag chunk (len quality_chunks) total content])
  end.

(** [PDFProcessor.chunk_text(text, metadata)]; [None] is the default
    [metadata=None]. *)
Definition chunk_text (text : str) (meta : option (gmap str mval))
  : list Document :=
  match text with
  | [] => []
  | _ :: _ =>
      let clean := clean_text text in
      let doc := {| page_content := clean; metadata := default ∅ meta |} in
      let chunks := split_documents [doc] in
      quality_loop (len chunks) chunks []
  end.

(** The three tests of the quality loop, on the stripped window. *)
Definition keeps (window : str) : bool :=
  let content := strip window in
  negb (len content <? 50)
  && negb (10 * alpha_chars content <? 3 * len content)
  && negb (page_marker content).

(** The chunks that pass the three tests. *)
Definition kept (chunks : list Document) : list Document :=
  List.filter (fun chunk => keeps (page_content chunk)) chunks.

End chunker.

End Chunker.

(* ===================================================================== *)
(** * rag_system.py: retrieval and context budgeting                     *)
(* ===================================================================== *)

Module Rag.

(** The vector index (langchain's [Chroma] wrapper).  A call either returns
    its hits, best first, or raises ([None]).  Relevance scores are floats;
    they are kept as the rationals they denote. *)
Record VectorStore := {
  vs_similarity_search : str -> Z -> option (list Document);
  vs_similarity_search_with_relevance_scores :
    str -> Z -> option (list (Document * Q))
}.

(** The double written [0.1] in the source. *)
Definition relevance_threshold : Q :=
  (3602879701896397 # 36028797018963968)%Q.

(** [score > 0.1]. *)
Definition relevant (score : Q) : bool :=
  negb (Qle_bool score relevance_threshold).

(** The filtering loop of [similarity_search], with its [break]. *)
Fixpoint filter_loop (k : Z) (results_with_scores : list (Document * Q))
    (filtered_results : list Document) : list Document :=
  match results_with_scores with
  | [] => filtered_results
  | (doc, score) :: rest =>
      let filtered_results :=
        if relevant score then filtered_results ++ [doc]
        else filtered_results in
      if len filtered_results >=? k then filtered_results
      else filter_loop k rest filtered_results
  end.

(** [RAGSystem.similarity_search(query, k)]; the [except] branch returns
    the empty list. *)
Definition similarity_search (vs : VectorStore) (query : str) (k : Z)
  : list Document :=
  match vs_similarity_search_with_relevance_scores vs query (k * 2) with
  | None => []
  | Some results_with_scores =>
      let filtered_results := filter_loop k results_with_scores [] in
      if len filtered_results <? k / 2
      then
        match vs_similarity_search vs query k with
        | None => []
        | Some docs => docs
        end
      else filtered_results
  end.

(** [doc.metadata.get('filename', default)], as the f-string prints it. *)
Definition source_of (default_source : str) (doc : Document) : str :=
  match metadata doc !! lit "filename" with
  | Some v => str_of_mval v
  | None => default_source
  end.

(** One provenance block of a context: the source label and the passage
    text (whole, or cut and followed by the ellipsis). *)
Record Entry := {
  entry_source : str;
  entry_content : str
}.

Definition ellipsis : str := lit "...".

(** The budgeting loop shared, up to its constants, by
    [get_relevant_context] ([min_chars] = 100) and [get_document_overview]
    ([min_chars] = 200): the entries appended from [docs] on, when the
    running estimate is [token_count]. *)
Fixpoint budget_loop (min_chars : Z) (default_source : str) (max_tokens : Z)
    (docs : list Document) (token_count : Z) : list Entry :=
  match docs with
  | [] => []
  | doc :: rest =>
      let content := page_content doc in
      let source := source_of default_source doc in
      let estimated_tokens := len content / 4 in
      if token_count + estimated_tokens >? max_tokens
      then
        let remaining_chars := (max_tokens - token_count) * 4 in
        if remaining_chars >? min_chars
        then [ {| entry_source := source;
                  entry_content := slice_to remaining_chars content ++ ellipsis |} ]
        else []
      else
        {| entry_source := source; entry_content := content |}
          :: budget_loop min_chars default_source max_tokens rest
               (token_count + estimated_tokens)
  end.

(** The source writes the line break of this function as [\\n]: a
    backslash and the letter n. *)
Definition backslash_n : str := lit "\n".

(** [f"[From: {source}]\\n{content}"]. *)
Definition context_part (e : Entry) : str :=
  lit "[From: " ++ entry_source e ++ lit "]" ++ backslash_n ++ entry_content e.

(** The entries [get_relevant_context] packs. *)
Definition relevant_entries (vs : VectorStore) (query : str) (max_tokens : Z)
  : list Entry :=
  let docs := similarity_search vs query 10 in
  budget_loop 100 (lit "Unknown source") max_tokens docs 0.

(** [RAGSystem.get_relevant_context(query, max_tokens)]. *)
Definition get_relevant_context (vs : VectorStore) (query : str)
    (max_tokens : Z) : str :=
  join (backslash_n ++ backslash_n)
       (context_part <$> relevant_entries vs query max_tokens).

(** The vocabulary of the statements about retrieval and budgeting. *)

(** The passages of [results_with_scores] above the threshold, in order. *)
Definition relevant_docs (results_with_scores : list (Document * Q))
  : list Document :=
  fst <$> List.filter (fun hit => relevant (snd hit)) results_with_scores.

(** The hits of an unfiltered search; none when the index raises. *)
Definition hits (vs : VectorStore) (query : str) (k : Z) : list Document :=
  default [] (vs_similarity_search vs query k).

(** An index that has nothing to return: every search comes back empty
    or raises. *)
Definition silent (vs : VectorStore) : Prop :=
  forall query k,
    hits vs query k = []
    /\ default [] (vs_similarity_search_with_relevance_scores vs query k) = [].

(** The estimate the budgeting loop keeps: [len(content) // 4], summed
    over passages, or over the entries of a context. *)
Definition estimate (docs : list Document) : Z :=
  foldr (fun doc total => len (page_content doc) / 4 + total) 0 docs.

Definition entries_estimate (entries : list Entry) : Z :=
  foldr (fun e total => len (entry_content e) / 4 + total) 0 entries.

(** A passage entered whole, and entered as a slice of [remaining_chars]
    characters followed by the ellipsis. *)
Definition whole (default_source : str) (doc : Document) : Entry :=
  {| entry_source := source_of default_source doc;
     entry_content := page_content doc |}.

Definition sliced (default_source : str) (remaining_chars : Z) (doc : Document)
  : Entry :=
  {| entry_source := source_of default_source doc;
     entry_content := slice_to remaining_chars (page_content doc) ++ ellipsis |}.

(** ** Overview retrieval *)

Definition newline : str := [10%N].

Definition intro_queries : list str :=
  [ lit "introduction overview summary definition";
    lit "objectives goals purpose learning outcomes";
    lit "abstract conclusion summary";
    lit "introduction definition what is" ].

Section overview.

Context `{U : Unicode}.

(** Python's built-in [hash] on strings. *)
Variable hash : str -> Z.

Definition content_hash (doc : Document) : Z :=
  hash (slice_to 200 (page_content doc)).

(** The inner loop over the hits of one introspective query. *)
Fixpoint collect_loop (docs : list Document) (overview_docs : list Document)
    (seen_content : gset Z) : list Document * gset Z :=
  match docs with
  | [] => (overview_docs, seen_content)
  | doc :: rest =>
      let h := content_hash doc in
      if bool_decide (h ∈ seen_content)
      then collect_loop rest overview_docs seen_content
      else collect_loop rest (overview_docs ++ [doc]) ({[ h ]} ∪ seen_content)
  end.

(** The loop over [intro_queries], with its [break]; [None] when the index
    raises. *)
Fixpoint query_loop (vs : VectorStore) (queries : list str)
    (overview_docs : list Document) (seen_content : gset Z)
  : option (list Document * gset Z) :=
  match queries with
  | [] => Some (overview_docs, seen_content)
  | query :: rest =>
      match vs_similarity_search vs query 5 with
      | None => None
      | Some docs =>
          let '(overview_docs, seen_content) :=
            collect_loop docs overview_docs seen_content in
          if len overview_docs >=? 15 then Some (overview_docs, seen_content)
          else query_loop vs rest overview_docs seen_content
      end
  end.

(** The top-up loop over the hits of the generic query. *)
Fixpoint general_loop (docs : list Document) (overview_docs : list Document)
    (seen_content : gset Z) : list Document * gset Z :=
  match docs with
  | [] => (overview_docs, seen_content)
  | doc :: rest =>
      let h := content_hash doc in
      if negb (bool_decide (h ∈ seen_content)) && (len overview_docs <? 15)
      then general_loop rest (overview_docs ++ [doc]) ({[ h ]} ∪ seen_content)
      else general_loop rest overview_docs seen_content
  end.

(** The invariant of the collection loops: the gathered passages have
    pairwise distinct hashes, and [seen_content] is the set of these
    hashes. *)
Definition distinct (overview_docs : list Document) (seen_content : gset Z)
  : Prop :=
  NoDup (content_hash <$> overview_docs)
  /\ forall h, h ∈ seen_content <-> h ∈ content_hash <$> overview_docs.

(** The passages gathered from the hits of [queries] when every one of
    them is issued, and the hash an entry of the bundle has. *)
Definition gathered_after (vs : VectorStore) (queries : list str)
  : list Document * gset Z :=
  fold_left (fun state query =>
               collect_loop (hits vs query 5) (fst state) (snd state))
            queries ([], ∅).

Definition entry_hash (e : Entry) : Z := hash (slice_to 200 (entry_content e)).

(** The passages gathered before ranking; [None] when the index raises. *)
Definition gather_overview_docs (vs : VectorStore) : option (list Document) :=
  match query_loop vs intro_queries [] ∅ with
  | None => None
  | Some (overview_docs, seen_content) =>
      if len overview_docs <? 5
      then
        match vs_similarity_search vs (lit "main content") 10 with
        | None => None
        | Some general_docs =>
            Some (fst (general_loop general_docs overview_docs seen_content))
        end
      else Some overview_docs
  end.

Definition intro_keywords : list str :=
  [ lit "introduction"; lit "overview"; lit "summary"; lit "define";
    lit "definition"; lit "objectives"; lit "goals"; lit "purpose";
    lit "outline"; lit "after this lesson" ].

(** The local function [get_intro_score]. *)
Definition get_intro_score (content : str) : Z :=
  let content_lower := lower content in
  let score :=
    fold_left (fun score keyword =>
                 if contains keyword content_lower then score + 1 else score)
              intro_keywords 0 in
  if contains (lit "page 1") content_lower
     || contains (lit "introduction") content_lower
  then score + 2 else score.

(** [list.sort(key=..., reverse=True)]: stable, highest key first. *)
Fixpoint insert_desc (key : Document -> Z) (doc : Document)
    (sorted : list Document) : list Document :=
  match sorted with
  | [] => [doc]
  | d :: rest =>
      if key doc <? key d then d :: insert_desc key doc rest
      else doc :: sorted
  end.

Definition sort_desc (key : Document -> Z) (docs : list Document)
  : list Document :=
  foldr (insert_desc key) [] docs.

(** [f"[From: {source}]\n{content}"], with a line feed. *)
Definition overview_part (e : Entry) : str :=
  lit "[From: " ++ entry_source e ++ lit "]" ++ newline ++ entry_content e.

(** The entries [get_document_overview] packs; the [except] branch and the
    empty collection both give no entry. *)
Definition overview_entries (vs : VectorStore) (max_tokens : Z) : list Entry :=
  match gather_overview_docs vs with
  | None => []
  | Some overview_docs =>
      let ranked :=
        sort_desc (fun doc => get_intro_score (page_content doc)) overview_docs in
      budget_loop 200 (lit "Document") max_tokens ranked 0
  end.

(** [RAGSystem.get_document_overview(max_tokens)]. *)
Definition get_document_overview (vs : VectorStore) (max_tokens : Z) : str :=
  join (newline ++ newline ++ lit "=== DOCUMENT SECTION ===" ++ newline ++ newline)
       (overview_part <$> overview_entries vs max_tokens).

(** ** Question answering *)

Definition overview_keywords : list str :=
  [ lit "what is"; lit "tell me about"; lit "describe"; lit "overview";
    lit "summary"; lit "about the file"; lit "content of"; lit "main topic";
    lit "what does"; lit "explain the document"; lit "document all about";
    lit "summarize"; lit "what does this cover"; lit "main subject";
    lit "what are we learning"; lit "course content"; lit "lecture about" ].

(** [any(keyword in question.lower() for keyword in overview_keywords)]. *)
Definition is_overview_question (question : str) : bool :=
  existsb (fun keyword => contains keyword (lower question)) overview_keywords.

(** One message of a chat-completion request. *)
Record Message := {
  role : str;
  content : str
}.

(** The counters of [response.usage]. *)
Record Usage := {
  prompt_tokens : Z;
  completion_tokens : Z;
  total_tokens : Z
}.

(** The model service, [openai.chat.completions.create] with the settings
    of [config.py]: an answer with its usage, or an exception with the
    text [str(e)]. *)
Variable chat_completion : list Message -> str + (str * Usage).

(** One turn of the chat history, as [StudyChatbot.ask_question] stores
    it. *)
Record ChatEntry := {
  chat_question : str;
  chat_answer : str;
  chat_sources : list str;
  chat_has_context : bool
}.

(** The dictionary [ask_question] returns. *)
Record Response := {
  answer : str;
  sources : list str;
  has_context : bool;
  token_usage : option Usage;
  error : option str
}.

(** The result of a call together with the requests it sent to the model
    service, in order. *)
Record Outcome := {
  response : Response;
  model_requests : list (list Message)
}.

Definition no_context_answer : str :=
  lit "I couldn't find relevant information in your uploaded documents to answer this question. Please make sure you've uploaded relevant materials or try rephrasing your question.".

Definition lines (ls : list string) : str := join newline (lit <$> ls).

Definition overview_prompt (context : str) : str :=
  lines
    [ "You are a helpful AI study assistant. The user is asking for an overview of their uploaded document(s). Analyze the content below and provide a comprehensive summary.";
      "";
      "Document Content:" ]%string
  ++ newline ++ context ++ newline ++
  lines
    [ "";
      "Instructions:";
      "1. Identify the main subject/topic of the document(s)";
      "2. Summarize the key themes and concepts covered";
      "3. Highlight important sections or chapters";
      "4. Mention specific topics, methods, or areas discussed";
      "5. Be specific about what the document teaches or covers";
      "6. Structure your response clearly with main points";
      "7. Use information directly from the provided content" ]%string.

Definition specific_prompt (context : str) : str :=
  lines
    [ "You are a helpful AI study assistant. Answer the user's question based on the provided context from their academic documents.";
      "            ";
      "Context from uploaded documents:" ]%string
  ++ newline ++ context ++ newline ++
  lines
    [ "";
      "Instructions:";
      "1. Answer based primarily on the provided context";
      "2. Be accurate and cite specific information from the documents";
      "3. If the context doesn't fully answer the question, say so";
      "4. Use clear, educational language";
      "5. Structure your response for easy understanding" ]%string.

(** [chat_history[-5:]]. *)
Definition last_five {A} (l : list A) : list A := drop (length l - 5)%nat l.

Definition history_messages (chat_history : list ChatEntry) : list Message :=
  chat ← last_five chat_history;
  [ {| role := lit "user"; content := chat_question chat |};
    {| role := lit "assistant"; content := chat_answer chat |} ].

(** The loop that reads the sources back from the context. *)
Fixpoint extract_sources (context_lines : list str) (sources : list str)
  : list str :=
  match context_lines with
  | [] => sources
  | line :: rest =>
      if startswith (lit "[From: ") line && endswith (lit "]") line
      then
        let source := take (length line - 8)%nat (drop 7 line) in
        if bool_decide (source ∈ sources) then extract_sources rest sources
        else extract_sources rest (sources ++ [source])
      else extract_sources rest sources
  end.

(** [RAGSystem.ask_question(question, chat_history)]. *)
Definition ask_question (vs : VectorStore) (question : str)
    (chat_history : list ChatEntry) : Outcome :=
  let context :=
    if is_overview_question question
    then get_document_overview vs 4000
    else get_relevant_context vs question 3000 in
  match context with
  | [] =>
      {| response :=
           {| answer := no_context_answer; sources := [];
              has_context := false; token_usage := None; error := None |};
         model_requests := [] |}
  | _ :: _ =>
      let system_prompt :=
        if is_overview_question question then overview_prompt context
        else specific_prompt context in
      let messages :=
        [ {| role := lit "system"; content := system_prompt |} ]
        ++ history_messages chat_history
        ++ [ {| role := lit "user"; content := question |} ] in
      match chat_completion messages with
      | inl e =>
          {| response :=
               {| answer :=
                    lit "I encountered an error while processing your question: " ++ e;
                  sources := []; has_context := false;
                  token_usage := None; error := Some e |};
             model_requests := [messages] |}
      | inr (text, usage) =>
          {| response :=
               {| answer := text;
                  sources := extract_sources (split backslash_n context) [];
                  has_context := true; token_usage := Some usage;
                  error := None |};
             model_requests := [messages] |}
      end
  end.

End overview.

End Rag.

(* ===================================================================== *)
(** * exam_generator.py: exam synthesis and the two renderers            *)
(* ===================================================================== *)

Module Exam.

(** A computation that can raise: [inl e] is an exception whose text
    [str(e)] is [e], [inr v] a value returned. *)
#[global] Instance raise_bind {E : Type} : MBind (sum E) :=
  fun A B f x =>
    match x with
    | inl e => inl e
    | inr v => f v
    end.

(** The value under ['correct_answer']: a letter for a multiple-choice
    question, a boolean for a true/false statement. *)
Inductive answer_val :=
  | AStr (s : str)
  | ABool (b : bool).

(** A question dictionary, one optional field per key the code reads,
    each with the type the prompts ask for; [q_choices] keeps the insertion
    order of the ['choices'] dictionary. *)
Record Question := {
  q_question : option str;
  q_statement : option str;
  q_choices : option (list (str * str));
  q_correct_answer : option answer_val;
  q_explanation : option str;
  q_sample_answer : option str;
  q_key_points : option str;
  q_sample_outline : option str;
  q_guidance : option str
}.

(** A decoded JSON value as the loops over the questions can meet one: a
    dictionary, read as a question, or a value of another type.  A float
    carries the text Python shows for it. *)
#[warnings="-register-all"] Inductive Item :=
  | IQuestion (q : Question)
  | IStr (s : str)
  | IInt (n : Z)
  | IFloat (shown : str)
  | IBool (b : bool)
  | INone
  | IList (items : list Item).

(** The decoded values that have a length: a list, a dictionary with its
    keys in insertion order, a string. *)
Inductive Sized :=
  | SList (items : list Item)
  | SDict (fields : list (str * Item))
  | SStr (s : str).

(** What [json.loads] returns: whatever the reply spells. *)
Inductive Decoded :=
  | DSized (value : Sized)
  | DInt (n : Z)
  | DFloat (shown : str)
  | DBool (b : bool)
  | DNone.

(** [len(questions)]. *)
Definition len_of (questions : Sized) : Z :=
  match questions with
  | SList items => len items
  | SDict fields => len fields
  | SStr s => len s
  end.

(** Truth value of [questions]: a list, dictionary or string that is not
    empty. *)
Definition nonempty (questions : Sized) : bool :=
  match questions with
  | SList [] | SDict [] | SStr [] => false
  | _ => true
  end.

(** What [for q in questions] goes through: the items of a list, the keys
    of a dictionary, the characters of a string. *)
Definition elements (questions : Sized) : list Item :=
  match questions with
  | SList items => items
  | SDict fields => (fun field => IStr (fst field)) <$> fields
  | SStr s => (fun c => IStr [c]) <$> s
  end.

(** [type(q).__name__] for a value that is not a dictionary. *)
Definition type_name (item : Item) : str :=
  match item with
  | IQuestion _ => lit "dict"
  | IStr _ => lit "str"
  | IInt _ => lit "int"
  | IFloat _ => lit "float"
  | IBool _ => lit "bool"
  | INone => lit "NoneType"
  | IList _ => lit "list"
  end.

(** [q.get]: the dictionary, or the [AttributeError] of a value that has
    no such method. *)
Definition get_of (item : Item) : str + Question :=
  match item with
  | IQuestion q => inr q
  | _ => inl ([39%N] ++ type_name item ++ [39%N]
              ++ lit " object has no attribute " ++ [39%N] ++ lit "get" ++ [39%N])
  end.

(** A section dictionary; ['questions'] holds what the generator
    returned. *)
Record ExamSection := {
  sec_title : option str;
  sec_instructions : option str;
  sec_questions : Sized
}.

(** The exam dictionary; [exam_sections] keeps the insertion order of the
    ['sections'] dictionary. *)
Record ExamDict := {
  exam_title : option str;
  exam_instructions : option str;
  exam_sections : list (str * ExamSection);
  exam_total_questions : option Z;
  exam_error : option str
}.

(** The exam configuration dictionary; [None] is an absent key. *)
Record ExamConfig := {
  cfg_multiple_choice : option Z;
  cfg_true_false : option Z;
  cfg_short_answer : option Z;
  cfg_essay : option Z;
  cfg_difficulty : option str
}.

Inductive SectionKind := MultipleChoice | TrueFalse | ShortAnswer | Essay.

Definition section_key (kind : SectionKind) : str :=
  match kind with
  | MultipleChoice => lit "multiple_choice"
  | TrueFalse => lit "true_false"
  | ShortAnswer => lit "short_answer"
  | Essay => lit "essay"
  end.

Definition cfg_count (kind : SectionKind) (cfg : ExamConfig) : option Z :=
  match kind with
  | MultipleChoice => cfg_multiple_choice cfg
  | TrueFalse => cfg_true_false cfg
  | ShortAnswer => cfg_short_answer cfg
  | Essay => cfg_essay cfg
  end.

Definition default_config : ExamConfig :=
  {| cfg_multiple_choice := Some 5; cfg_true_false := Some 5;
     cfg_short_answer := Some 3; cfg_essay := Some 2;
     cfg_difficulty := Some (lit "medium") |}.

Section exam.

Context `{U : Unicode}.

(** The model service as the generators use it.  The prompt of
    [generate_<kind>] is an f-string of the context cut to 3500 characters,
    the number of questions and the difficulty, so the reply is a function
    of these; [None] is a call that raises or a reply without content. *)
Variable model_reply : SectionKind -> str -> Z -> str -> option str.

(** [json.loads] on a reply: the value the reply spells, of whatever
    shape, or [None] when decoding raises. *)
Variable json_loads : str -> option Decoded.

(** The four generators share one body: call the model, decode, log the
    length and return what was decoded.  A call or a decoding that raises
    ends in the [except] branch, which returns the empty list, and so does
    a number, a boolean or [null], of which [len] cannot be taken. *)
Definition generate (kind : SectionKind) (context : str) (num_questions : Z)
    (difficulty : str) : Sized :=
  match model_reply kind (slice_to 3500 context) num_questions difficulty with
  | None => SList []
  | Some reply =>
      match json_loads reply with
      | Some (DSized questions) => questions
      | Some (DInt _ | DFloat _ | DBool _ | DNone) => SList []
      | None => SList []
      end
  end.

Definition generate_multiple_choice := generate MultipleChoice.
Definition generate_true_false := generate TrueFalse.
Definition generate_short_answer := generate ShortAnswer.
Definition generate_essay_questions := generate Essay.

Definition section_title (kind : SectionKind) : str :=
  match kind with
  | MultipleChoice => lit "Multiple Choice Questions"
  | TrueFalse => lit "True/False Questions"
  | ShortAnswer => lit "Short Answer Questions"
  | Essay => lit "Essay Questions"
  end.

Definition section_instructions (kind : SectionKind) : str :=
  match kind with
  | MultipleChoice => lit "Choose the best answer for each question."
  | TrueFalse => lit "Mark each statement as true or false."
  | ShortAnswer => lit "Provide concise answers in 2-3 sentences."
  | Essay => lit "Provide detailed, well-structured answers."
  end.

(** One [if exam_config.get(kind, 0) > 0: ...] block of
    [generate_complete_exam], acting on the ['sections'] dictionary. *)
Definition add_section (kind : SectionKind) (context : str) (cfg : ExamConfig)
    (difficulty : str) (sections : list (str * ExamSection))
  : list (str * ExamSection) :=
  if default 0 (cfg_count kind cfg) >? 0
  then
    let questions :=
      generate kind context (default 0 (cfg_count kind cfg)) difficulty in
    if nonempty questions
    then
      sections ++
      [ (section_key kind,
         {| sec_title := Some (section_title kind);
            sec_instructions := Some (section_instructions kind);
            sec_questions := questions |}) ]
    else sections
  else sections.

(** The vocabulary of the statements about [generate_complete_exam]: the
    kinds in the order the code visits them, the count the configuration
    asks for, what the generator of a kind returns for a request, and the
    entry the ['sections'] dictionary gets for a kind, if any. *)
Definition all_kinds : list SectionKind :=
  [MultipleChoice; TrueFalse; ShortAnswer; Essay].

Definition requested (kind : SectionKind) (exam_config : option ExamConfig) : Z :=
  default 0 (cfg_count kind (default default_config exam_config)).

Definition generated (kind : SectionKind) (context : str)
    (exam_config : option ExamConfig) : Sized :=
  generate kind context (requested kind exam_config)
    (default (lit "medium")
       (cfg_difficulty (default default_config exam_config))).

Definition section_for (kind : SectionKind) (questions : Sized)
  : ExamSection :=
  {| sec_title := Some (section_title kind);
     sec_instructions := Some (section_instructions kind);
     sec_questions := questions |}.

Definition survives (kind : SectionKind) (context : str)
    (exam_config : option ExamConfig) : bool :=
  (0 <? requested kind exam_config)
  && (0 <? len_of (generated kind context exam_config)).

(** [sum(len(section["questions"]) for section in exam["sections"].values())]. *)
Definition count_questions (sections : list (str * ExamSection)) : Z :=
  foldr (fun '(_, section) total => len_of (sec_questions section) + total)
        0 sections.

(** [ExamGenerator.generate_complete_exam(context, exam_config)].  The
    generators catch their own exceptions, what they return has a length
    and the counts are integers, so the [except] branch, which returns the
    dictionary with ['error'], is not reached. *)
Definition generate_complete_exam (context : str)
    (exam_config : option ExamConfig) : ExamDict :=
  let exam_config := default default_config exam_config in
  let difficulty := default (lit "medium") (cfg_difficulty exam_config) in
  let sections := [] in
  let sections := add_section MultipleChoice context exam_config difficulty sections in
  let sections := add_section TrueFalse context exam_config difficulty sections in
  let sections := add_section ShortAnswer context exam_config difficulty sections in
  let sections := add_section Essay context exam_config difficulty sections in
  {| exam_title :=
       Some (lit "AI-Generated Practice Exam (" ++ title difficulty
             ++ lit " Difficulty)");
     exam_instructions :=
       Some (lit "Answer all questions to the best of your ability. This exam is set to "
             ++ upper difficulty ++ lit " difficulty level.");
     exam_sections := sections;
     exam_total_questions := Some (count_questions sections);
     exam_error := None |}.

(** ** Rendering *)

(** The marks of the answer key, with the code points the source file
    holds. *)
Definition mark_error : str := [226; 338]%N.
Definition mark_check : str := [226; 339; 8230]%N.
Definition mark_arrow : str := [226; 8224]%N.
Definition mark_bulb : str := [240; 376; 8217; 161]%N.
Definition mark_memo : str := [240; 376; 8220]%N.
Definition mark_key : str := [240; 376; 8221; 8216]%N.
Definition mark_clipboard : str := [240; 376; 8220; 8249]%N.
Definition mark_book : str := [240; 376; 8220; 8211]%N.
Definition mark_thought : str := [240; 376; 8217; 173]%N.

Definition backslash_n : str := lit "\n".

Definition get_str (field : option str) : str := default [] field.

(** Truth value of [q.get(key)] for a string field. *)
Definition truthy (field : option str) : bool :=
  match field with
  | Some (_ :: _) => true
  | _ => false
  end.

Definition question_header (question_num : Z) (text : str) : str :=
  lit "**Question " ++ str_of_Z question_num ++ lit ":** " ++ text.

(** [f"  {choice}) {text}"]. *)
Definition plain_choice (choice text : str) : str :=
  lit "  " ++ choice ++ lit ") " ++ text.

(** The line of the correct choice in the answer key. *)
Definition marked_choice (choice text : str) : str :=
  lit "  " ++ mark_check ++ lit " **" ++ choice ++ lit ") " ++ text
  ++ lit "** " ++ mark_arrow ++ lit " CORRECT ANSWER".

Definition choices_of (q : Question) : list (str * str) :=
  default [] (q_choices q).

(** The lines [format_exam_for_display] appends for one item of a
    section.  In each of the four branches the first thing done is a
    [q.get], which raises on an item that is not a dictionary; under any
    other key nothing is read and nothing appended. *)
Definition exam_question_lines (key : str) (question_num : Z) (item : Item)
  : str + list str :=
  if str_eqb key (lit "multiple_choice") then
    q ← get_of item;
    inr ([question_header question_num (get_str (q_question q))]
         ++ ((fun '(choice, text) => plain_choice choice text) <$> choices_of q)
         ++ [ [] ])
  else if str_eqb key (lit "true_false") then
    q ← get_of item;
    inr [ question_header question_num (get_str (q_statement q))
            ++ lit " (True/False)";
          [] ]
  else if str_eqb key (lit "short_answer") then
    q ← get_of item;
    inr [ question_header question_num (get_str (q_question q));
          lit "_____________________";
          [] ]
  else if str_eqb key (lit "essay") then
    q ← get_of item;
    inr ([question_header question_num (get_str (q_question q))]
         ++ (if truthy (q_guidance q)
             then [lit "*Guidance: " ++ get_str (q_guidance q) ++ lit "*"] else [])
         ++ [ [] ])
  else inr [].

(** [choice == q.get('correct_answer')]. *)
Definition is_correct (choice : str) (q : Question) : bool :=
  match q_correct_answer q with
  | Some (AStr s) => str_eqb choice s
  | _ => false
  end.

(** Truth value of [q.get('correct_answer', False)]. *)
Definition answer_truthy (q : Question) : bool :=
  match q_correct_answer q with
  | Some (ABool b) => b
  | Some (AStr (_ :: _)) => true
  | _ => false
  end.

Definition optional_line (label : str) (field : option str) : list str :=
  if truthy field then [label ++ get_str field] else [].

Definition plain_line (c : str * str) : str := plain_choice (fst c) (snd c).

(** The loop over the choices in [format_answers_for_display]. *)
Definition answer_choice_lines (q : Question) : list str :=
  (fun '(choice, text) =>
     if is_correct choice q then marked_choice choice text
     else plain_choice choice text) <$> choices_of q.

(** The lines [format_answers_for_display] appends for one item of a
    section. *)
Definition answer_question_lines (key : str) (question_num : Z) (item : Item)
  : str + list str :=
  if str_eqb key (lit "multiple_choice") then
    q ← get_of item;
    inr ([question_header question_num (get_str (q_question q))]
         ++ answer_choice_lines q
         ++ optional_line (mark_bulb ++ lit " **Explanation:** ") (q_explanation q)
         ++ [ [] ])
  else if str_eqb key (lit "true_false") then
    q ← get_of item;
    inr ([ question_header question_num (get_str (q_statement q))
             ++ lit " (True/False)";
           mark_check ++ lit " **Correct Answer:** "
             ++ (if answer_truthy q then lit "True" else lit "False") ]
         ++ optional_line (mark_bulb ++ lit " **Explanation:** ") (q_explanation q)
         ++ [ [] ])
  else if str_eqb key (lit "short_answer") then
    q ← get_of item;
    inr ([question_header question_num (get_str (q_question q))]
         ++ optional_line (mark_memo ++ lit " **Sample Answer:** ") (q_sample_answer q)
         ++ optional_line (mark_key ++ lit " **Key Points:** ") (q_key_points q)
         ++ [ [] ])
  else if str_eqb key (lit "essay") then
    q ← get_of item;
    inr ([question_header question_num (get_str (q_question q))]
         ++ optional_line (mark_clipboard ++ lit " **Key Points to Address:** ")
                          (q_key_points q)
         ++ optional_line (mark_book ++ lit " **Sample Essay Outline:** ")
                          (q_sample_outline q)
         ++ optional_line (mark_thought ++ lit " **Additional Guidance:** ")
                          (q_guidance q)
         ++ [ [] ])
  else inr [].

(** The loop over the items of one section: the lines appended and the
    value of [question_num] afterwards, or the exception of the first item
    that raises. *)
Fixpoint questions_loop (render : Z -> Item -> str + list str)
    (questions : list Item) (question_num : Z) : str + (list str * Z) :=
  match questions with
  | [] => inr ([], question_num)
  | q :: rest =>
      lines ← render question_num q;
      '(output, last) ← questions_loop render rest (question_num + 1);
      inr (lines ++ output, last)
  end.

Definition rule (c : char) (n : nat) : str :=
  backslash_n ++ repeat_char c n ++ backslash_n.

(** The loop over the sections of [format_exam_for_display]. *)
Fixpoint exam_sections_loop (sections : list (str * ExamSection))
    (question_num : Z) : str + list str :=
  match sections with
  | [] => inr []
  | (key, section) :: rest =>
      '(output, question_num) ←
        questions_loop (exam_question_lines key)
                       (elements (sec_questions section)) question_num;
      more ← exam_sections_loop rest question_num;
      inr ([ lit "## " ++ default (title key) (sec_title section);
             lit "*" ++ get_str (sec_instructions section) ++ lit "*"
               ++ backslash_n ]
           ++ output
           ++ [rule 45%N 30]
           ++ more)
  end.

(** The list [output] of [format_exam_for_display] before it is joined. *)
Definition exam_lines (exam : ExamDict) : str + list str :=
  more ← exam_sections_loop (exam_sections exam) 1;
  inr ([ lit "# " ++ default (lit "Practice Exam") (exam_title exam);
         backslash_n ++ lit "**Instructions:** " ++ get_str (exam_instructions exam);
         backslash_n ++ lit "**Total Questions:** "
           ++ str_of_Z (default 0 (exam_total_questions exam));
         rule 61%N 50 ]
       ++ more).

(** [ExamGenerator.format_exam_for_display(exam)]. *)
Definition format_exam_for_display (exam : ExamDict) : str + str :=
  match exam_error exam with
  | Some e => inr (mark_error ++ lit " Exam Generation Error: " ++ e)
  | None => output ← exam_lines exam; inr (join backslash_n output)
  end.

(** The loop over the sections of [format_answers_for_display]. *)
Fixpoint answer_sections_loop (sections : list (str * ExamSection))
    (question_num : Z) : str + list str :=
  match sections with
  | [] => inr []
  | (key, section) :: rest =>
      '(output, question_num) ←
        questions_loop (answer_question_lines key)
                       (elements (sec_questions section)) question_num;
      more ← answer_sections_loop rest question_num;
      inr ([ lit "## " ++ default (title key) (sec_title section)
               ++ lit " - Answers" ]
           ++ output
           ++ [rule 45%N 30]
           ++ more)
  end.

(** The list [output] of [format_answers_for_display] before it is
    joined. *)
Definition answer_lines (exam : ExamDict) : str + list str :=
  more ← answer_sections_loop (exam_sections exam) 1;
  inr ([ lit "# " ++ default (lit "Practice Exam") (exam_title exam)
           ++ lit " - Answer Key";
         backslash_n ++ lit "**Complete Answer Key with Explanations**";
         lit "**Total Questions:** "
           ++ str_of_Z (default 0 (exam_total_questions exam));
         rule 61%N 50 ]
       ++ more).

(** [ExamGenerator.format_answers_for_display(exam)]. *)
Definition format_answers_for_display (exam : ExamDict) : str + str :=
  match exam_error exam with
  | Some e => inr (mark_error ++ lit " Exam Generation Error: " ++ e)
  | None => output ← answer_lines exam; inr (join backslash_n output)
  end.

(** A question with every field the questions-only view must not show
    removed. *)
Definition without_answers (q : Question) : Question :=
  {| q_question := q_question q;
     q_statement := q_statement q;
     q_choices := q_choices q;
     q_correct_answer := None;
     q_explanation := None;
     q_sample_answer := None;
     q_key_points := None;
     q_sample_outline := None;
     q_guidance := q_guidance q |}.

Definition item_without_answers (item : Item) : Item :=
  match item with
  | IQuestion q => IQuestion (without_answers q)
  | _ => item
  end.

Definition questions_without_answers (questions : Sized) : Sized :=
  match questions with
  | SList items => SList (item_without_answers <$> items)
  | _ => questions
  end.

Definition exam_without_answers (exam : ExamDict) : ExamDict :=
  {| exam_title := exam_title exam;
     exam_instructions := exam_instructions exam;
     exam_sections :=
       (fun '(key, section) =>
          (key, {| sec_title := sec_title section;
                   sec_instructions := sec_instructions section;
                   sec_questions :=
                     questions_without_answers (sec_questions section) |}))
         <$> exam_sections exam;
     exam_total_questions := exam_total_questions exam;
     exam_error := exam_error exam |}.

End exam.

End Exam.

(* ===================================================================== *)
(** * chatbot.py: the session object                                     *)
(* ===================================================================== *)

Module Chatbot.

(** Python objects live in a store and are reached through references, so
    that a list and its copy, or two names of one list, can be told
    apart. *)
Definition loc := positive.

(** What [upload_pdf] tracks for one document. *)
Record DocRecord := {
  doc_path : str;
  doc_metadata : gmap str mval;
  doc_upload_time : mval
}.

Inductive obj :=
  | OList (items : list loc)
  | ODict (items : gmap str loc)
  | OEntry (entry : Rag.ChatEntry)
  | ODoc (record : DocRecord).

(** A [StudyChatbot]: the store and the two attributes [self.chat_history]
    and [self.uploaded_documents], which hold references. *)
Record Bot := {
  heap : gmap loc obj;
  chat_history : loc;
  uploaded_documents : loc
}.

Definition list_items (h : gmap loc obj) (l : loc) : list loc :=
  match h !! l with
  | Some (OList items) => items
  | _ => []
  end.

Definition dict_items (h : gmap loc obj) (l : loc) : gmap str loc :=
  match h !! l with
  | Some (ODict items) => items
  | _ => ∅
  end.

Definition entry_at (h : gmap loc obj) (l : loc) : option Rag.ChatEntry :=
  match h !! l with
  | Some (OEntry entry) => Some entry
  | _ => None
  end.

(** The references held by [self.chat_history], oldest first, and the
    turns they point to. *)
Definition history (bot : Bot) : list loc :=
  list_items (heap bot) (chat_history bot).

Definition history_entries (bot : Bot) : list Rag.ChatEntry :=
  omap (entry_at (heap bot)) (history bot).

(** Creating an object: it gets a reference no object has yet. *)
Definition alloc (o : obj) (h : gmap loc obj) : loc * gmap loc obj :=
  let l := fresh (dom h) in (l, <[ l := o ]> h).

(** [StudyChatbot.__init__]: an empty list and an empty dictionary. *)
Definition init : Bot :=
  {| heap := <[ 2%positive := ODict ∅ ]> (<[ 1%positive := OList [] ]> ∅);
     chat_history := 1%positive;
     uploaded_documents := 2%positive |}.

(** The services a call reaches at the time it is made. *)
Record Services := {
  index : Rag.VectorStore;
  chat_completion : list Rag.Message -> str + (str * Rag.Usage);
  model_reply : Exam.SectionKind -> str -> Z -> str -> option str;
  json_loads : str -> option Exam.Decoded
}.

(** What [generate_exam] returns. *)
Inductive ExamResult :=
  | ExamFailure (error : str)
  | ExamSuccess (exam : Exam.ExamDict) (formatted_exam formatted_answers : str).

(** What [get_system_status] reports of the chatbot itself. *)
Record Status := {
  documents_in_db : Z;
  uploaded_files : Z;
  chat_history_length : Z
}.

Section chatbot.

Context `{U : Unicode}.

Variable hash : str -> Z.

(** [settings.max_history_length]. *)
Variable max_history_length : Z.

(** [StudyChatbot.upload_pdf]: the file checks, the PDF pipeline and the
    index decide whether the upload succeeds and what is recorded;
    [processed] is that outcome, [Some (doc_id, record)] on success. *)
Definition upload_pdf (bot : Bot) (processed : option (str * DocRecord)) : Bot :=
  match processed with
  | None => bot
  | Some (doc_id, record) =>
      let '(d, h) := alloc (ODoc record) (heap bot) in
      {| heap :=
           <[ uploaded_documents bot :=
                ODict (<[ doc_id := d ]> (dict_items h (uploaded_documents bot))) ]> h;
         chat_history := chat_history bot;
         uploaded_documents := uploaded_documents bot |}
  end.

(** [StudyChatbot.ask_question(question)]: the new state and the response
    handed back.  [RAGSystem.ask_question] returns a dictionary in every
    case, so the [except] branch of this method is not reached. *)
Definition ask_question (svc : Services) (bot : Bot) (question : str)
  : Bot * Rag.Response :=
  let response :=
    Rag.response
      (Rag.ask_question hash (chat_completion svc) (index svc) question
                        (history_entries bot)) in
  let chat_entry :=
    {| Rag.chat_question := question;
       Rag.chat_answer := Rag.answer response;
       Rag.chat_sources := Rag.sources response;
       Rag.chat_has_context := Rag.has_context response |} in
  let '(e, h) := alloc (OEntry chat_entry) (heap bot) in
  let items := list_items h (chat_history bot) ++ [e] in
  let items := if len items >? max_history_length then drop 1 items else items in
  ({| heap := <[ chat_history bot := OList items ]> h;
      chat_history := chat_history bot;
      uploaded_documents := uploaded_documents bot |},
   response).

Definition context_queries : list str :=
  [ lit "testing methods techniques procedures processes";
    lit "equipment tools instruments technology";
    lit "defects flaws inspection evaluation";
    lit "applications materials components specimens" ].

Definition common_terms : list str :=
  [ lit "NDT"; lit "non-destructive"; lit "testing"; lit "ultrasonic";
    lit "radiographic"; lit "magnetic particle"; lit "penetrant";
    lit "eddy current"; lit "visual inspection" ].

Definition section_separator : str :=
  Rag.newline ++ Rag.newline ++ lit "=== TECHNICAL CONTENT SECTION ==="
  ++ Rag.newline ++ Rag.newline.

(** [StudyChatbot.generate_exam(exam_config)]; it leaves the chatbot as it
    is.  An exception of a renderer ends in the [except] branch, which
    returns its text as the error. *)
Definition generate_exam (svc : Services) (bot : Bot)
    (exam_config : option Exam.ExamConfig) : Bot * ExamResult :=
  if bool_decide (dict_items (heap bot) (uploaded_documents bot) = ∅)
  then (bot, ExamFailure (lit "No documents uploaded. Please upload study materials first."))
  else
    let sample_context :=
      Rag.get_relevant_context (index svc) (lit "main topic subject matter focus") 500 in
    let subject_keywords :=
      match sample_context with
      | [] => []
      | _ :: _ =>
          List.filter (fun term => contains (lower term) (lower sample_context))
                      common_terms
      end in
    let queries :=
      match subject_keywords with
      | [] => context_queries
      | _ :: _ =>
          (join (lit " ") (take 3 subject_keywords) ++ lit " methods principles")
            :: context_queries
      end in
    let all_context :=
      List.filter (fun chunk => negb (bool_decide (chunk = [])))
        ((fun query => Rag.get_relevant_context (index svc) query 1500) <$> queries) in
    let context := join section_separator all_context in
    if bool_decide (context = []) || (len (strip context) <? 100)
    then (bot, ExamFailure (lit "Could not extract sufficient content from uploaded documents. Please ensure your PDFs contain readable text and try uploading again."))
    else
      let exam :=
        Exam.generate_complete_exam (model_reply svc) (json_loads svc)
                                    context exam_config in
      match Exam.exam_sections exam with
      | [] => (bot, ExamFailure (lit "Failed to generate exam questions from the uploaded content."))
      | _ :: _ =>
          match Exam.format_exam_for_display exam with
          | inl e => (bot, ExamFailure e)
          | inr formatted_exam =>
              match Exam.format_answers_for_display exam with
              | inl e => (bot, ExamFailure e)
              | inr formatted_answers =>
                  (bot, ExamSuccess exam formatted_exam formatted_answers)
              end
          end
      end.

(** [StudyChatbot.get_chat_history]: [self.chat_history.copy()] builds a
    new list object holding the same references. *)
Definition get_chat_history (bot : Bot) : Bot * loc :=
  let '(l, h) := alloc (OList (history bot)) (heap bot) in
  ({| heap := h; chat_history := chat_history bot;
      uploaded_documents := uploaded_documents bot |}, l).

(** [StudyChatbot.clear_chat_history]: [self.chat_history.clear()]. *)
Definition clear_chat_history (bot : Bot) : Bot :=
  {| heap := <[ chat_history bot := OList [] ]> (heap bot);
     chat_history := chat_history bot;
     uploaded_documents := uploaded_documents bot |}.

(** [StudyChatbot.get_uploaded_documents]: [self.uploaded_documents.copy()]
    builds a new dictionary object with the same keys and references. *)
Definition get_uploaded_documents (bot : Bot) : Bot * loc :=
  let '(l, h) :=
    alloc (ODict (dict_items (heap bot) (uploaded_documents bot))) (heap bot) in
  ({| heap := h; chat_history := chat_history bot;
      uploaded_documents := uploaded_documents bot |}, l).

(** [StudyChatbot.get_system_status]; [document_count] is what the index
    reports. *)
Definition get_system_status (bot : Bot) (document_count : Z) : Bot * Status :=
  (bot,
   {| documents_in_db := document_count;
      uploaded_files := Z.of_nat (size (dict_items (heap bot) (uploaded_documents bot)));
      chat_history_length := len (history bot) |}).

(** [StudyChatbot.reset_system]: both containers are cleared in place. *)
Definition reset_system (bot : Bot) : Bot :=
  {| heap :=
       <[ uploaded_documents bot := ODict ∅ ]>
         (<[ chat_history bot := OList [] ]> (heap bot));
     chat_history := chat_history bot;
     uploaded_documents := uploaded_documents bot |}.

(** The calls a client can make on a chatbot. *)
Inductive call :=
  | UploadPdf (processed : option (str * DocRecord))
  | AskQuestion (svc : Services) (question : str)
  | GenerateExam (svc : Services) (exam_config : option Exam.ExamConfig)
  | GetChatHistory
  | ClearChatHistory
  | GetUploadedDocuments
  | GetSystemStatus (document_count : Z)
  | ResetSystem.

Definition run (bot : Bot) (c : call) : Bot :=
  match c with
  | UploadPdf processed => upload_pdf bot processed
  | AskQuestion svc question => fst (ask_question svc bot question)
  | GenerateExam svc exam_config => fst (generate_exam svc bot exam_config)
  | GetChatHistory => fst (get_chat_history bot)
  | ClearChatHistory => clear_chat_history bot
  | GetUploadedDocuments => fst (get_uploaded_documents bot)
  | GetSystemStatus document_count => fst (get_system_status bot document_count)
  | ResetSystem => reset_system bot
  end.

(** The states a chatbot goes through from its construction. *)
Inductive reachable : Bot -> Prop :=
  | reachable_init : reachable init
  | reachable_run bot c : reachable bot -> reachable (run bot c).

(** The calls that append a turn or clear the history. *)
Definition touches_history (c : call) : bool :=
  match c with
  | AskQuestion _ _ | ClearChatHistory | ResetSystem => true
  | _ => false
  end.

(** The turn [ask_question] stores for a question and its response. *)
Definition turn_of (question : str) (response : Rag.Response) : Rag.ChatEntry :=
  {| Rag.chat_question := question;
     Rag.chat_answer := Rag.answer response;
     Rag.chat_sources := Rag.sources response;
     Rag.chat_has_context := Rag.has_context response |}.

(** The shape every chatbot keeps: [self.chat_history] is a list of turns
    and [self.uploaded_documents] a dictionary. *)
Definition well_formed (bot : Bot) : Prop :=
  (exists items,
     heap bot !! chat_history bot = Some (OList items)
     /\ Forall (fun l => is_Some (entry_at (heap bot) l)) items)
  /\ (exists docs, heap bot !! uploaded_documents bot = Some (ODict docs)).

(** A client changing, in any way, the object a getter returned. *)
Definition mutate (l : loc) (f : obj -> obj) (bot : Bot) : Bot :=
  {| heap := alter f l (heap bot);
     chat_history := chat_history bot;
     uploaded_documents := uploaded_documents bot |}.

End chatbot.

End Chatbot.

(* ===================================================================== *)
(** * Sample data: an index, texts and replies                           *)
(* ===================================================================== *)

Module Examples.

Definition passage (name text : string) : Document :=
  {| page_content := lit text;
     metadata := {[ lit "filename" := MStr (lit name) ]} |}.

(** An index that ranks its passages per query in a table and returns the
    [k] best. *)
Definition ranked_store (table : str -> list (Document * Q)) : Rag.VectorStore :=
  {| Rag.vs_similarity_search query k :=
       Some (take (Z.to_nat k) (fst <$> table query));
     Rag.vs_similarity_search_with_relevance_scores query k :=
       Some (take (Z.to_nat k) (table query)) |}.

Definition empty_store : Rag.VectorStore := ranked_store (fun _ => []).

(** Six passages, two of them above the relevance threshold. *)
Definition welding_hits : list (Document * Q) :=
  [ (passage "ndt.pdf" "Ultrasonic testing detects subsurface flaws.", (9 # 10)%Q);
    (passage "ndt.pdf" "Radiographic testing records density on film.", (1 # 2)%Q);
    (passage "ndt.pdf" "Course schedule and office hours.", (1 # 20)%Q);
    (passage "ndt.pdf" "Grading policy for the laboratory.", (1 # 25)%Q);
    (passage "ndt.pdf" "Acknowledgements and references.", (3 # 100)%Q);
    (passage "ndt.pdf" "Table of contents.", (1 # 50)%Q) ].

Definition welding_store : Rag.VectorStore := ranked_store (fun _ => welding_hits).

(** Two short passages of seven characters each. *)
Definition short_hits : list (Document * Q) :=
  [ (passage "a.pdf" "flaw 01", (9 # 10)%Q);
    (passage "a.pdf" "flaw 02", (4 # 5)%Q) ].

Definition short_store : Rag.VectorStore := ranked_store (fun _ => short_hits).

(** A polynomial string hash. *)
Definition poly_hash (s : str) : Z :=
  fold_left (fun h c => (31 * h + Z.of_N c) mod 2305843009213693951) s 7.

Definition numbered (n : Z) : Document * Q :=
  ({| page_content := lit "passage " ++ str_of_Z n;
      metadata := {[ lit "filename" := MStr (lit "notes.pdf") ]} |}, (1 # 2)%Q).

(** An index whose four introspective queries bring 5, 5, 4 (and one
    repeated) and 5 distinct passages. *)
Definition overview_table (query : str) : list (Document * Q) :=
  if str_eqb query (lit "introduction overview summary definition")
  then numbered <$> [1; 2; 3; 4; 5]
  else if str_eqb query (lit "objectives goals purpose learning outcomes")
  then numbered <$> [6; 7; 8; 9; 10]
  else if str_eqb query (lit "abstract conclusion summary")
  then numbered <$> [11; 12; 13; 14; 1]
  else if str_eqb query (lit "introduction definition what is")
  then numbered <$> [15; 16; 17; 18; 19]
  else [].

Definition overview_store : Rag.VectorStore := ranked_store overview_table.

(** A text of three paragraphs and a splitter that cuts at line feeds. *)
Definition sample_text : str :=
  lit "Ultrasonic testing detects subsurface flaws in welded steel plates."
  ++ [10; 10]%N ++ lit "12 34 56" ++ [10; 10]%N
  ++ lit "Radiographic testing records the density of a weld on film or a detector.".

Definition sample_split_text (text : str) : list str := split [10]%N text.

(** An exam with one multiple-choice question whose correct letter is B
    and one true/false statement. *)
Definition sample_question : Exam.Question :=
  {| Exam.q_question := Some (lit "Which method uses sound waves?");
     Exam.q_statement := None;
     Exam.q_choices :=
       Some [ (lit "A", lit "Radiographic testing");
              (lit "B", lit "Ultrasonic testing");
              (lit "C", lit "Penetrant testing");
              (lit "D", lit "Visual inspection") ];
     Exam.q_correct_answer := Some (Exam.AStr (lit "B"));
     Exam.q_explanation := Some (lit "Ultrasonic testing sends sound into the part.");
     Exam.q_sample_answer := None;
     Exam.q_key_points := None;
     Exam.q_sample_outline := None;
     Exam.q_guidance := None |}.

Definition sample_statement : Exam.Question :=
  {| Exam.q_question := None;
     Exam.q_statement := Some (lit "Penetrant testing finds subsurface flaws.");
     Exam.q_choices := None;
     Exam.q_correct_answer := Some (Exam.ABool false);
     Exam.q_explanation := Some (lit "It finds surface-breaking flaws.");
     Exam.q_sample_answer := None;
     Exam.q_key_points := None;
     Exam.q_sample_outline := None;
     Exam.q_guidance := None |}.

Definition sample_exam : Exam.ExamDict :=
  {| Exam.exam_title := Some (lit "AI-Generated Practice Exam (Medium Difficulty)");
     Exam.exam_instructions := Some (lit "Answer all questions to the best of your ability.");
     Exam.exam_sections :=
       [ (lit "true_false",
          Exam.section_for Exam.TrueFalse
            (Exam.SList [Exam.IQuestion sample_statement]));
         (lit "multiple_choice",
          Exam.section_for Exam.MultipleChoice
            (Exam.SList [Exam.IQuestion sample_question])) ];
     Exam.exam_total_questions := Some 2;
     Exam.exam_error := None |}.

(** A model service whose multiple-choice reply is not JSON and whose
    other replies decode to one question each. *)
Definition sample_model_reply (kind : Exam.SectionKind) (context : str)
    (num_questions : Z) (difficulty : str) : option str :=
  match kind with
  | Exam.MultipleChoice => Some (lit "Sorry, I cannot help with that.")
  | Exam.TrueFalse => Some (lit "[true_false]")
  | Exam.ShortAnswer => Some (lit "[short_answer]")
  | Exam.Essay => Some (lit "[essay]")
  end.

(** The reply [{"questions": []}]. *)
Definition wrapped_reply : str :=
  [123; 34]%N ++ lit "questions" ++ [34]%N ++ lit ": []}".

(** A decoder for the replies of the samples: lists of one question, an
    object that wraps an empty list, a list of two numbers and a number;
    any other reply is not JSON. *)
Definition sample_json_loads (reply : str) : option Exam.Decoded :=
  if str_eqb reply (lit "[true_false]")
  then Some (Exam.DSized (Exam.SList [Exam.IQuestion sample_statement]))
  else if str_eqb reply (lit "[short_answer]")
  then Some (Exam.DSized (Exam.SList [Exam.IQuestion sample_question]))
  else if str_eqb reply (lit "[essay]")
  then Some (Exam.DSized (Exam.SList [Exam.IQuestion sample_question]))
  else if str_eqb reply wrapped_reply
  then Some (Exam.DSized (Exam.SDict [(lit "questions", Exam.IList [])]))
  else if str_eqb reply (lit "[1, 2]")
  then Some (Exam.DSized (Exam.SList [Exam.IInt 1; Exam.IInt 2]))
  else if str_eqb reply (lit "42")
  then Some (Exam.DInt 42)
  else None.

(** A model service whose multiple-choice reply wraps an empty list in an
    object and whose other replies decode to one question each. *)
Definition wrapped_model_reply (kind : Exam.SectionKind) (context : str)
    (num_questions : Z) (difficulty : str) : option str :=
  match kind with
  | Exam.MultipleChoice => Some wrapped_reply
  | _ => sample_model_reply kind context num_questions difficulty
  end.

(** Services whose index is empty and whose model always fails. *)
Definition sample_services : Chatbot.Services :=
  {| Chatbot.index := empty_store;
     Chatbot.chat_completion := fun _ => inl (lit "connection refused");
     Chatbot.model_reply := sample_model_reply;
     Chatbot.json_loads := sample_json_loads |}.

End Examples.

(* ===================================================================== *)
(** * Dictionaries with values of any type                               *)
(* ===================================================================== *)

Module Dict.

(** A value of a metadata dictionary before it is made simple: the four
    types [isinstance(value, (str, int, float, bool))] accepts, [None], and
    any other object with the text [str(value)] prints for it.  A float is
    kept, like [MOther], as its printed text. *)
Inductive raw_value :=
  | RStr (s : str)
  | RInt (z : Z)
  | RFloat (shown : str)
  | RBool (b : bool)
  | RNone
  | RObject (shown : str).

(** [isinstance(value, (str, int, float, bool))], with the value as a
    metadata value when the test holds. *)
Definition simple (value : raw_value) : option mval :=
  match value with
  | RStr s => Some (MStr s)
  | RInt z => Some (MInt z)
  | RFloat shown => Some (MOther shown)
  | RBool b => Some (MBool b)
  | RNone | RObject _ => None
  end.

(** [str(value)]. *)
Definition str_of_raw (value : raw_value) : str :=
  match value with
  | RStr s => s
  | RInt z => str_of_Z z
  | RFloat shown => shown
  | RBool b => str_of_bool b
  | RNone => lit "None"
  | RObject shown => shown
  end.

(** [d[key] = value] on a dictionary kept in insertion order: a key that
    is present keeps its place. *)
Fixpoint dict_set {V} (key : str) (value : V) (d : list (str * V))
  : list (str * V) :=
  match d with
  | [] => [(key, value)]
  | (k, v) :: rest =>
      if str_eqb k key then (k, value) :: rest
      else (k, v) :: dict_set key value rest
  end.

(** [s.replace('/', '')], [s.replace(' ', '_')] and [s.lstrip('/')]. *)
Definition remove_slashes (s : str) : str :=
  List.filter (fun c => negb (c =? 47)%N) s.

Definition spaces_to_underscores (s : str) : str :=
  (fun c => if (c =? 32)%N then 95%N else c) <$> s.

Definition lstrip_slashes (s : str) : str :=
  skip_while (fun c => (c =? 47)%N) s.

End Dict.

(* ===================================================================== *)
(** * pdf_processor.py: extraction and the processing pipeline           *)
(* ===================================================================== *)

Module Extraction.

Import Dict.

(** What a PDF library reads from a file: [None] when opening or walking
    the file raises; otherwise, for every page in order, the text of the
    page, with [None] for a page whose extraction raises (PyPDF2 and
    pdfplumber may also hand back no text at all, on which [strip]
    raises or the test fails). *)
Definition reader := str -> option (list (option str)).

(** What [get_pdf_info] reads through PyPDF2 and [os.path.getsize]. *)
Record RawInfo := {
  raw_file_size : Z;
  raw_page_count : Z;
  raw_metadata : list (str * raw_value)
}.

(** The file system and the three PDF libraries. *)
Record PdfLibraries := {
  path_exists : str -> bool;
  path_name : str -> str;
  read_pypdf2 : reader;
  read_pdfplumber : reader;
  read_pymupdf : reader;
  read_info : str -> str + RawInfo
}.

(** The dictionary [get_pdf_info] returns: the error form, or the full
    form. *)
Inductive PdfInfo :=
  | InfoError (filename : str) (error : str)
  | Info (filename : str) (file_size page_count : Z)
         (simple_metadata : list (str * mval)).

Definition backslash_n : str := lit "\n".

Section extraction.

Context `{U : Unicode}.

(** [f"\\n[Page {page_num + 1}]\\n{page_text}\\n"]. *)
Definition page_block (page_num : Z) (page_text : str) : str :=
  backslash_n ++ lit "[Page " ++ str_of_Z (page_num + 1) ++ lit "]"
  ++ backslash_n ++ page_text ++ backslash_n.

(** The loop over the pages, the same in the three extractors: a page
    whose text is blank, or whose extraction raises, adds nothing. *)
Fixpoint pages_loop (pages : list (option str)) (page_num : Z) (text : str)
  : str :=
  match pages with
  | [] => text
  | page :: rest =>
      match page with
      | Some page_text =>
          match strip page_text with
          | _ :: _ =>
              pages_loop rest (page_num + 1)
                         (text ++ page_block page_num page_text)
          | [] => pages_loop rest (page_num + 1) text
          end
      | None => pages_loop rest (page_num + 1) text
      end
  end.

(** The body the three extractors share; the outer [except] returns the
    empty string. *)
Definition extract_text (read : reader) (pdf_path : str) : str :=
  match read pdf_path with
  | None => []
  | Some pages => pages_loop pages 0 []
  end.

Definition extract_text_pypdf2 (lib : PdfLibraries) : str -> str :=
  extract_text (read_pypdf2 lib).
Definition extract_text_pdfplumber (lib : PdfLibraries) : str -> str :=
  extract_text (read_pdfplumber lib).
Definition extract_text_pymupdf (lib : PdfLibraries) : str -> str :=
  extract_text (read_pymupdf lib).

(** [text and len(text.strip()) > 100]. *)
Definition reasonable (text : str) : bool :=
  match text with
  | [] => false
  | _ :: _ => len (strip text) >? 100
  end.

(** The loop over [methods] of the automatic mode, with its [return]. *)
Fixpoint methods_loop (methods : list (str -> str)) (pdf_path : str) : str :=
  match methods with
  | [] => []
  | extract_func :: rest =>
      let text := extract_func pdf_path in
      if reasonable text then text else methods_loop rest pdf_path
  end.

(** [PDFProcessor.extract_text_from_pdf(pdf_path, method)]. *)
Definition extract_text_from_pdf (lib : PdfLibraries) (pdf_path method : str)
  : str :=
  if negb (path_exists lib pdf_path) then []
  else if str_eqb method (lit "auto") then
    methods_loop [ extract_text_pymupdf lib;
                   extract_text_pdfplumber lib;
                   extract_text_pypdf2 lib ] pdf_path
  else if str_eqb method (lit "pypdf2") then extract_text_pypdf2 lib pdf_path
  else if str_eqb method (lit "pdfplumber") then extract_text_pdfplumber lib pdf_path
  else if str_eqb method (lit "pymupdf") then extract_text_pymupdf lib pdf_path
  else [].

(** ** File information *)

(** The value [get_pdf_info] stores: kept when simple, printed
    otherwise. *)
Definition simple_or_shown (value : raw_value) : mval :=
  match simple value with
  | Some v => v
  | None => MStr (str_of_raw value)
  end.

(** [str(key).strip().lstrip('/').lower().replace(' ', '_')]. *)
Definition info_key (key : str) : str :=
  spaces_to_underscores (lower (lstrip_slashes (strip key))).

(** [PDFProcessor.get_pdf_info(pdf_path)]. *)
Definition get_pdf_info (lib : PdfLibraries) (pdf_path : str) : PdfInfo :=
  match read_info lib pdf_path with
  | inl e => InfoError (path_name lib pdf_path) e
  | inr raw =>
      let simple_metadata :=
        fold_left (fun simple_metadata '(key, value) =>
                     dict_set (info_key key) (simple_or_shown value)
                              simple_metadata)
                  (raw_metadata raw) [] in
      Info (path_name lib pdf_path) (raw_file_size raw) (raw_page_count raw)
           simple_metadata
  end.

(** ** The pipeline *)

(** [len(text.split())]: the number of maximal runs of characters that
    are not white space. *)
Fixpoint word_count_go (inword : bool) (s : str) : Z :=
  match s with
  | [] => 0
  | c :: s' =>
      if isspace c then word_count_go false s'
      else (if inword then 0 else 1) + word_count_go true s'
  end.

Definition word_count (text : str) : Z := word_count_go false text.

(** [key.lstrip('/').lower().replace(' ', '_')], prefixed with [pdf_]. *)
Definition pdf_key (key : str) : str :=
  lit "pdf_" ++ spaces_to_underscores (lower (lstrip_slashes key)).

(** The metadata [process_pdf] derives from the file, before the
    caller's metadata is laid over it. *)
Definition file_metadata (lib : PdfLibraries) (pdf_path : str) (text : str)
  : gmap str mval :=
  let file_metadata : gmap str mval :=
    <[ lit "word_count" := MInt (word_count text) ]>
    (<[ lit "character_count" := MInt (len text) ]>
    (<[ lit "file_type" := MStr (lit "pdf") ]>
    (<[ lit "filename" := MStr (path_name lib pdf_path) ]>
    (<[ lit "source" := MStr pdf_path ]> ∅)))) in
  match get_pdf_info lib pdf_path with
  | InfoError _ _ => file_metadata
  | Info _ file_size page_count pdf_meta =>
      let file_metadata :=
        fold_left (fun file_metadata '(key, value) =>
                     <[ pdf_key key := value ]> file_metadata)
                  pdf_meta file_metadata in
      <[ lit "file_size_bytes" := MInt file_size ]>
      (<[ lit "page_count" := MInt page_count ]> file_metadata)
  end.

(** [PDFProcessor.process_pdf(pdf_path, metadata)]; [file_metadata.update]
    lets the caller's entries win. *)
Definition process_pdf (split_text : str -> list str) (lib : PdfLibraries)
    (pdf_path : str) (metadata : option (gmap str mval)) : list Document :=
  match extract_text_from_pdf lib pdf_path (lit "auto") with
  | [] => []
  | (_ :: _) as text =>
      let file_metadata :=
        default ∅ metadata ∪ file_metadata lib pdf_path text in
      Chunker.chunk_text split_text text (Some file_metadata)
  end.

End extraction.

End Extraction.

(* ===================================================================== *)
(** * rag_system.py: metadata cleaning                                   *)
(* ===================================================================== *)

Module Indexing.

Import Dict.

Section indexing.

Context `{U : Unicode}.

(** [str(key).strip().replace('/', '').replace(' ', '_').lower()]. *)
Definition clean_key (key : str) : str :=
  lower (spaces_to_underscores (remove_slashes (strip key))).

(** The value stored for [value]: kept when simple, the empty string for
    [None], the first 500 characters of [str(value)] otherwise. *)
Definition clean_value (value : raw_value) : mval :=
  match simple value with
  | Some v => v
  | None =>
      match value with
      | RNone => MStr []
      | _ => MStr (slice_to 500 (str_of_raw value))
      end
  end.

(** [RAGSystem._clean_metadata(metadata)]; [metadata] lists the items of
    the dictionary in order, with their keys printed. *)
Definition _clean_metadata (metadata : list (str * raw_value)) : gmap str mval :=
  fold_left (fun cleaned '(key, value) =>
               <[ clean_key key := clean_value value ]> cleaned)
            metadata ∅.

End indexing.

End Indexing.

(* ===================================================================== *)
(** * Vocabulary of the further statements                               *)
(* ===================================================================== *)

Module Vocabulary.

(** Non-membership in a list of literals, decided by comparing with each
    of them. *)
Ltac not_listed :=
  let Hin := fresh "Hin" in
  intros Hin;
  repeat (apply elem_of_cons in Hin as [Hin|Hin];
          [first [discriminate Hin | congruence]|]);
  by apply elem_of_nil in Hin.

(** The labels of a list without their repetitions, each at its first
    occurrence. *)
Fixpoint first_occurrences (labels : list str) : list str :=
  match labels with
  | [] => []
  | label :: rest =>
      label :: List.filter (fun l => negb (str_eqb l label)) (first_occurrences rest)
  end.

(** The characters [clean_text] replaces or removes: the tab, the form
    feed, the no-break space, the curly apostrophe and quotes, and the en
    and em dashes. *)
Definition typographic : list char :=
  [9; 12; 160; 8217; 8220; 8221; 8211; 8212]%N.

(** A line [clean_text] keeps: stripped, of five characters or more, not
    made of digits only and, when longer than ten characters, with letters
    for three tenths of it or more. *)
Definition clean_line `{U : Unicode} (line : str) : Prop :=
  strip line = line
  /\ 5 <= len line
  /\ forallb isdecimal line = false
  /\ (10 < len line -> 3 * len line <= 10 * len (List.filter isalpha line)).

(** The passages of [docs] that bring a new hash: those whose hash of the
    first 200 characters is not in [seen] and is not the hash of an
    earlier passage of [docs]. *)
Fixpoint fresh_passages (hash : str -> Z) (seen : list Z) (docs : list Document)
  : list Document :=
  match docs with
  | [] => []
  | doc :: rest =>
      if bool_decide (hash (slice_to 200 (page_content doc)) ∈ seen)
      then fresh_passages hash seen rest
      else doc :: fresh_passages hash
                    (hash (slice_to 200 (page_content doc)) :: seen) rest
  end.

(** The keys [chunk_text] writes on every chunk. *)
Definition tag_keys : list str :=
  [ lit "chunk_id"; lit "chunk_count"; lit "source_type"; lit "content_length" ].

(** Highest key first: every element has a key at least as high as the
    keys of the elements after it. *)
Fixpoint descending {A} (key : A -> Z) (l : list A) : Prop :=
  match l with
  | [] => True
  | a :: rest => Forall (fun b => key b <= key a) rest /\ descending key rest
  end.

(** An entry whose label and text hold no backslash, and whose text does
    not look like a provenance header. *)
Definition plain_entry (e : Rag.Entry) : bool :=
  negb (bool_decide (92%N ∈ Rag.entry_source e))
  && negb (bool_decide (92%N ∈ Rag.entry_content e))
  && negb (startswith (lit "[From: ") (Rag.entry_content e)
           && endswith (lit "]") (Rag.entry_content e)).

(** The entries of the context [ask_question] assembles for a question. *)
Definition question_entries `{U : Unicode} (hash : str -> Z)
    (vs : Rag.VectorStore) (question : str) : list Rag.Entry :=
  if Rag.is_overview_question question
  then Rag.overview_entries hash vs 4000
  else Rag.relevant_entries vs question 3000.

(** The context itself. *)
Definition question_context `{U : Unicode} (hash : str -> Z)
    (vs : Rag.VectorStore) (question : str) : str :=
  if Rag.is_overview_question question
  then Rag.get_document_overview hash vs 4000
  else Rag.get_relevant_context vs question 3000.

(** The fields [process_pdf] derives from the path, the text and the file
    information, without the entries of the PDF's own metadata. *)
Definition derived_fields `{U : Unicode} (lib : Extraction.PdfLibraries)
    (pdf_path text : str) : gmap str mval :=
  let fields : gmap str mval :=
    <[ lit "word_count" := MInt (Extraction.word_count text) ]>
    (<[ lit "character_count" := MInt (len text) ]>
    (<[ lit "file_type" := MStr (lit "pdf") ]>
    (<[ lit "filename" := MStr (Extraction.path_name lib pdf_path) ]>
    (<[ lit "source" := MStr pdf_path ]> ∅)))) in
  match Extraction.get_pdf_info lib pdf_path with
  | Extraction.InfoError _ _ => fields
  | Extraction.Info _ file_size page_count _ =>
      <[ lit "file_size_bytes" := MInt file_size ]>
      (<[ lit "page_count" := MInt page_count ]> fields)
  end.

(** The dictionary [self.uploaded_documents] holds, and the records it
    reaches: what is tracked under each document id. *)
Definition documents (bot : Chatbot.Bot) : gmap str Chatbot.loc :=
  Chatbot.dict_items (Chatbot.heap bot) (Chatbot.uploaded_documents bot).

Definition record_at (h : gmap Chatbot.loc Chatbot.obj) (l : Chatbot.loc)
  : option Chatbot.DocRecord :=
  match h !! l with
  | Some (Chatbot.ODoc record) => Some record
  | _ => None
  end.

Definition tracked (bot : Chatbot.Bot) : gmap str Chatbot.DocRecord :=
  omap (record_at (Chatbot.heap bot)) (documents bot).

(** Every reference of [self.uploaded_documents] leads to a record. *)
Definition documents_formed (bot : Chatbot.Bot) : Prop :=
  map_Forall (fun _ l => is_Some (record_at (Chatbot.heap bot) l))
             (documents bot).

Definition no_documents_error : str :=
  lit "No documents uploaded. Please upload study materials first.".

(** The keys of the sections the renderers print questions for. *)
Definition known_keys : list str :=
  [ lit "multiple_choice"; lit "true_false"; lit "short_answer"; lit "essay" ].

(** A decoded dictionary, as opposed to a value of another type. *)
Definition question_object (item : Exam.Item) : bool :=
  match item with
  | Exam.IQuestion _ => true
  | _ => false
  end.

(** The texts of the exceptions a renderer can end with: the
    [AttributeError] of a value that is not a dictionary and is asked for
    a key. *)
Definition attribute_errors : list str :=
  [ lit "'str' object has no attribute 'get'";
    lit "'int' object has no attribute 'get'";
    lit "'float' object has no attribute 'get'";
    lit "'bool' object has no attribute 'get'";
    lit "'NoneType' object has no attribute 'get'";
    lit "'list' object has no attribute 'get'" ].

(** An exam whose sections hold, under each of the keys the renderers
    know, question objects only. *)
Definition renderable (exam : Exam.ExamDict) : bool :=
  forallb (fun entry =>
             negb (bool_decide (fst entry ∈ known_keys))
             || forallb question_object
                        (Exam.elements (Exam.sec_questions (snd entry))))
          (Exam.exam_sections exam).

End Vocabulary.

(* ===================================================================== *)
(** * Further sample data: a PDF and its libraries                       *)
(* ===================================================================== *)

Module Samples.

Import Dict.

Definition long_page : str :=
  lit "Ultrasonic testing detects subsurface flaws in welded steel plates by sending sound into the part and timing the echoes.".

(** A blank page, a page whose extraction raises, and a page of text. *)
Definition sample_pages : list (option str) :=
  [ Some (lit "   "); None; Some long_page ].

(** One file, which PyMuPDF cannot open, of which pdfplumber reads three
    letters, and PyPDF2 the pages above. *)
Definition sample_library : Extraction.PdfLibraries :=
  {| Extraction.path_exists p := str_eqb p (lit "notes/ndt.pdf");
     Extraction.path_name _ := lit "ndt.pdf";
     Extraction.read_pypdf2 _ := Some sample_pages;
     Extraction.read_pdfplumber _ := Some [ Some (lit "NDT") ];
     Extraction.read_pymupdf _ := None;
     Extraction.read_info _ :=
       inr {| Extraction.raw_file_size := 2048;
              Extraction.raw_page_count := 3;
              Extraction.raw_metadata :=
                [ (lit "/Title", RStr (lit "NDT notes"));
                  (lit "/Keywords", RObject (lit "['ndt', 'ut']")) ] |} |}.

(** A model service that raises for multiple choice and otherwise
    replies as the sample service does. *)
Definition other_model_reply (kind : Exam.SectionKind) (context : str)
    (num_questions : Z) (difficulty : str) : option str :=
  match kind with
  | Exam.MultipleChoice => None
  | _ => Examples.sample_model_reply kind context num_questions difficulty
  end.

(** A configuration that asks for two true/false statements only. *)
Definition true_false_only : Exam.ExamConfig :=
  {| Exam.cfg_multiple_choice := Some 0;
     Exam.cfg_true_false := Some 2;
     Exam.cfg_short_answer := None;
     Exam.cfg_essay := Some (-1);
     Exam.cfg_difficulty := None |}.

(** A context of 3500 letters followed by [tail]: two such contexts agree
    on their first 3500 characters. *)
Definition long_context (tail : string) : str :=
  repeat_char 97%N 3500 ++ lit tail.

(** What [upload_pdf] records for the sample file. *)
Definition sample_record : Chatbot.DocRecord :=
  {| Chatbot.doc_path := lit "notes/ndt.pdf";
     Chatbot.doc_metadata := {[ lit "upload_method" := MStr (lit "chatbot") ]};
     Chatbot.doc_upload_time := MStr (lit "unknown") |}.

(** An index with little introductory content: the first introspective
    query finds two passages, the three others find the same two, and the
    generic query finds one of them again and three more, one of them
    twice. *)
Definition sparse_table (query : str) : list (Document * Q) :=
  if str_eqb query (lit "introduction overview summary definition")
  then Examples.numbered <$> [1; 2]
  else if str_eqb query (lit "main content")
  then Examples.numbered <$> [2; 20; 21; 20; 22]
  else Examples.numbered <$> [2; 1].

Definition sparse_store : Rag.VectorStore := Examples.ranked_store sparse_table.

(** A chatbot that tracks one document and has answered one question. *)
Definition busy_chatbot : Chatbot.Bot :=
  Chatbot.run (U := ascii_tables) Examples.poly_hash 10
    (Chatbot.run (U := ascii_tables) Examples.poly_hash 10 Chatbot.init
       (Chatbot.UploadPdf (Some (lit "ndt", sample_record))))
    (Chatbot.AskQuestion Examples.sample_services (lit "how are flaws detected")).

(** Services whose index holds the welding passages and whose model
    replies as the sample service does. *)
Definition exam_services : Chatbot.Services :=
  {| Chatbot.index := Examples.welding_store;
     Chatbot.chat_completion := fun _ => inl (lit "connection refused");
     Chatbot.model_reply := Examples.sample_model_reply;
     Chatbot.json_loads := Examples.sample_json_loads |}.

(** A model service that replies with a list of two numbers for the
    true/false statements and with a number for the short answers. *)
Definition numbers_model_reply (kind : Exam.SectionKind) (context : str)
    (num_questions : Z) (difficulty : str) : option str :=
  match kind with
  | Exam.TrueFalse => Some (lit "[1, 2]")
  | Exam.ShortAnswer => Some (lit "42")
  | _ => Examples.sample_model_reply kind context num_questions difficulty
  end.

Definition numbers_services : Chatbot.Services :=
  {| Chatbot.index := Examples.welding_store;
     Chatbot.chat_completion := fun _ => inl (lit "connection refused");
     Chatbot.model_reply := numbers_model_reply;
     Chatbot.json_loads := Examples.sample_json_loads |}.

End Samples.

(* ===================================================================== *)
(** * Facts about Python's lists and strings                             *)
(* ===================================================================== *)

Module PyFacts.

Lemma len_nonneg {A} (l : list A) : 0 <= len l.
Proof. unfold len. lia. Qed.

Lemma len_app {A} (l1 l2 : list A) : len (l1 ++ l2) = len l1 + len l2.
Proof. unfold len. rewrite length_app. lia. Qed.

Lemma len_nil {A} : len (@nil A) = 0.
Proof. reflexivity. Qed.

Lemma len_cons {A} (x : A) (l : list A) : len (x :: l) = 1 + len l.
Proof. unfold len. simpl length. lia. Qed.

Lemma skip_while_length {A} (f : A -> bool) (s : list A) :
  (length (skip_while f s) <= length s)%nat.
Proof.
  induction s as [|c s IH]; simpl; [lia|].
  destruct (f c); simpl; lia.
Qed.

Lemma strip_length `{U : Unicode} (s : str) : len (strip s) <= len s.
Proof.
  unfold strip, lstrip, len.
  rewrite length_rev.
  pose proof (skip_while_length isspace (rev (skip_while isspace s))) as H1.
  rewrite length_rev in H1.
  pose proof (skip_while_length isspace s) as H2.
  lia.
Qed.

End PyFacts.

(* ===================================================================== *)
(** * The chunker: quality gate and tags                                 *)
(* ===================================================================== *)

Module ChunkerFacts.

Import PyFacts Chunker.

Section facts.

Context `{U : Unicode}.
Variable split_text : str -> list str.

Abbreviation chunk_text := (chunk_text split_text).

(** The windows the splitter hands to the quality loop. *)
Lemma split_single (doc : Document) :
  split_documents split_text [doc]
  = (fun window => {| page_content := window; metadata := metadata doc |})
      <$> split_text (page_content doc).
Proof. unfold split_documents. simpl. by rewrite app_nil_r. Qed.

(** The loop appends, to what it has, the surviving chunks tagged with
    their rank in the result. *)
Lemma quality_loop_spec (total : Z) (chunks acc : list Document) :
  quality_loop total chunks acc
  = acc ++ imap (fun j chunk =>
                   tag chunk (len acc + Z.of_nat j) total
                       (strip (page_content chunk)))
                (kept chunks).
Proof.
  revert acc. induction chunks as [|chunk rest IH]; intros acc.
  - simpl. by rewrite app_nil_r.
  - simpl. unfold keeps.
    destruct (len (strip (page_content chunk)) <? 50); simpl; [apply IH|].
    destruct (10 * alpha_chars (strip (page_content chunk))
              <? 3 * len (strip (page_content chunk))); simpl; [apply IH|].
    destruct (page_marker (strip (page_content chunk))); simpl; [apply IH|].
    rewrite IH, <- app_assoc. simpl. f_equal.
    rewrite Z.add_0_r. f_equal.
    apply imap_ext. intros j c _. simpl.
    rewrite len_app, len_cons, len_nil. f_equal. lia.
Qed.

Lemma kept_length (chunks : list Document) :
  (length (kept chunks) <= length chunks)%nat.
Proof.
  unfold kept. induction chunks as [|c cs IH]; simpl; [lia|].
  destruct (keeps (page_content c)); simpl; lia.
Qed.

Lemma kept_windows (meta : gmap str mval) (windows : list str) :
  page_content <$>
    kept ((fun window => {| page_content := window; metadata := meta |}) <$> windows)
  = List.filter keeps windows.
Proof.
  unfold kept. induction windows as [|w ws IH]; [done|].
  rewrite fmap_cons. cbn [List.filter page_content].
  destruct (keeps w); [rewrite fmap_cons; cbn [page_content]|]; by rewrite IH.
Qed.

Lemma imap_tag_content (total base : Z) (chunks : list Document) :
  page_content <$>
    imap (fun j chunk => tag chunk (base + Z.of_nat j) total
                             (strip (page_content chunk))) chunks
  = page_content <$> chunks.
Proof.
  apply list_eq. intros i.
  rewrite !list_lookup_fmap, list_lookup_imap.
  by destruct (chunks !! i).
Qed.

(** What [chunk_text] returns, in one equation. *)
Lemma chunk_text_unfold (text : str) (meta : option (gmap str mval)) :
  text <> [] ->
  chunk_text text meta
  = imap (fun j chunk =>
            tag chunk (Z.of_nat j) (len (split_text (clean_text text)))
                (strip (page_content chunk)))
         (kept ((fun window =>
                   {| page_content := window; metadata := default ∅ meta |})
                  <$> split_text (clean_text text))).
Proof.
  intros Hne. unfold Chunker.chunk_text.
  destruct text as [|c text]; [done|].
  cbv zeta. rewrite split_single. simpl page_content. simpl metadata.
  rewrite quality_loop_spec. simpl.
  unfold len at 1 2. rewrite length_fmap. done.
Qed.

Lemma keeps_bounds (window : str) :
  keeps window = true ->
  50 <= len (strip window)
  /\ 3 * len (strip window) <= 10 * alpha_chars (strip window)
  /\ page_marker (strip window) = false.
Proof.
  unfold keeps. cbv zeta.
  rewrite !andb_true_iff, !negb_true_iff, !Z.ltb_ge. tauto.
Qed.

Lemma filter_keeps_stripped (windows : list str) :
  Forall (fun window => strip window = window) windows ->
  List.filter keeps windows
  = List.filter
      (fun window =>
         negb (len window <? 50)
         && negb (10 * alpha_chars window <? 3 * len window)
         && negb (page_marker window))
      windows.
Proof.
  induction 1 as [|w ws Hw _ IH]; simpl; [done|].
  unfold keeps at 1. cbv zeta. rewrite Hw.
  destruct (negb (len w <? 50) && negb (10 * alpha_chars w <? 3 * len w)
            && negb (page_marker w)); by rewrite IH.
Qed.

(** Whatever the splitter does, the stripped text of every passage
    returned meets the bounds, and the text itself has at least 50
    characters. *)
Lemma chunk_text_quality_stripped (text : str) (meta : option (gmap str mval)) :
  Forall (fun doc =>
            50 <= len (strip (page_content doc)) <= len (page_content doc)
            /\ 3 * len (strip (page_content doc))
               <= 10 * alpha_chars (strip (page_content doc))
            /\ page_marker (strip (page_content doc)) = false)
         (chunk_text text meta).
Proof.
  destruct text as [|c text]; [constructor|].
  assert (Hne : c :: text <> []) by done.
  apply Forall_fmap with (f := page_content)
    (P := fun s => 50 <= len (strip s) <= len s
                   /\ 3 * len (strip s) <= 10 * alpha_chars (strip s)
                   /\ page_marker (strip s) = false).
  rewrite (chunk_text_unfold _ meta Hne).
  pose proof (imap_tag_content (len (split_text (clean_text (c :: text)))) 0) as H.
  simpl in H. rewrite H. clear H.
  rewrite kept_windows, Forall_forall. intros w Hin.
  apply list_elem_of_In, filter_In in Hin. destruct Hin as [_ Hk].
  apply keeps_bounds in Hk. destruct Hk as (Hlong & Halpha & Hmarker).
  pose proof (strip_length w). repeat split; (done || lia).
Qed.

(** C3. Every passage [chunk_text] returns is a window of the splitter
    that passed the quality gate, in the splitter's order, and no other
    window is returned: its text has at least 50 characters, at least 30%
    of them alphabetic (3 * length <= 10 * letters), and is not a page
    marker; a window failing one of the three tests is dropped.  The
    bounds are measured on the stripped window, which is the window
    itself for the windows langchain's splitter produces
    ([strip_whitespace] is on by default). *)
Theorem chunk_text_quality (text : str) (meta : option (gmap str mval)) :
  Forall (fun window => strip window = window) (split_text (clean_text text)) ->
  page_content <$> chunk_text text meta
  = match text with
    | [] => []
    | _ :: _ =>
        List.filter
          (fun window =>
             negb (len window <? 50)
             && negb (10 * alpha_chars window <? 3 * len window)
             && negb (page_marker window))
          (split_text (clean_text text))
    end
  /\ Forall (fun doc =>
               50 <= len (page_content doc)
               /\ 3 * len (page_content doc) <= 10 * alpha_chars (page_content doc)
               /\ page_marker (page_content doc) = false)
            (chunk_text text meta).
Proof.
  intros Hstripped.
  destruct text as [|c text]; [split; [done | constructor]|].
  assert (Hne : c :: text <> []) by done.
  assert (Hcontent :
    page_content <$> chunk_text (c :: text) meta
    = List.filter keeps (split_text (clean_text (c :: text)))).
  { rewrite (chunk_text_unfold _ meta Hne).
    rewrite <- (kept_windows (default ∅ meta)).
    pose proof (imap_tag_content (len (split_text (clean_text (c :: text)))) 0) as H.
    simpl in H. apply H. }
  split.
  - rewrite Hcontent. by apply filter_keeps_stripped.
  - apply Forall_fmap with (f := page_content)
      (P := fun s => 50 <= len s /\ 3 * len s <= 10 * alpha_chars s
                     /\ page_marker s = false).
    rewrite Hcontent.
    rewrite Forall_forall. intros w Hin.
    apply list_elem_of_In, filter_In in Hin. destruct Hin as [Hin Hk].
    rewrite Forall_forall in Hstripped.
    apply list_elem_of_In, Hstripped in Hin.
    apply keeps_bounds in Hk. by rewrite Hin in Hk.
Qed.

Lemma tag_lookups (chunk : Document) (chunk_id total : Z) (content : str) :
  metadata (tag chunk chunk_id total content) !! lit "chunk_id" = Some (MInt chunk_id)
  /\ metadata (tag chunk chunk_id total content) !! lit "chunk_count" = Some (MInt total)
  /\ metadata (tag chunk chunk_id total content) !! lit "content_length"
     = Some (MInt (len content)).
Proof.
  unfold tag. cbn [metadata].
  repeat split.
  - rewrite !lookup_insert_ne by (vm_compute; discriminate).
    apply lookup_insert_eq.
  - rewrite !lookup_insert_ne by (vm_compute; discriminate).
    apply lookup_insert_eq.
  - apply lookup_insert_eq.
Qed.

(** C9. The chunk at position [i] of the result carries [chunk_id = i], so
    the identifiers run 0, 1, ..., n-1 in output order; [chunk_count] is
    the number of windows before filtering, which bounds both every
    identifier (strictly) and the number of chunks returned; and
    [content_length] is the length of the chunk's stripped text. *)
Theorem chunk_text_metadata (text : str) (meta : option (gmap str mval))
    (i : nat) (doc : Document) :
  chunk_text text meta !! i = Some doc ->
  metadata doc !! lit "chunk_id" = Some (MInt (Z.of_nat i))
  /\ metadata doc !! lit "chunk_count"
     = Some (MInt (len (split_text (clean_text text))))
  /\ Z.of_nat i < len (split_text (clean_text text))
  /\ len (chunk_text text meta) <= len (split_text (clean_text text))
  /\ metadata doc !! lit "content_length"
     = Some (MInt (len (strip (page_content doc)))).
Proof.
  intros Hlookup.
  destruct (decide (text = [])) as [->|Hne]; [done|].
  rewrite (chunk_text_unfold _ meta Hne) in Hlookup |- *.
  set (windows := split_text (clean_text text)) in *.
  set (chunks := (fun window => {| page_content := window;
                                   metadata := default ∅ meta |}) <$> windows) in *.
  assert (Hlen : (length (kept chunks) <= length windows)%nat).
  { etrans; [apply kept_length|]. subst chunks. by rewrite length_fmap. }
  rewrite list_lookup_imap in Hlookup.
  destruct (kept chunks !! i) as [chunk|] eqn:Hchunk; [|done].
  apply lookup_lt_Some in Hchunk.
  simpl in Hlookup. injection Hlookup as <-.
  destruct (tag_lookups chunk (Z.of_nat i) (len windows)
                        (strip (page_content chunk))) as (Hid & Hcount & Hcl).
  unfold len at 3 4 5. rewrite length_imap.
  repeat split; try done; unfold len; lia.
Qed.

End facts.

(** C3, witness: the sample text is cleaned to three lines; the first and
    the third pass the tests, the second ("12 34 56") is dropped. *)
Lemma chunk_text_quality_witness :
  page_content
    <$> Chunker.chunk_text (U := ascii_tables)
          Examples.sample_split_text Examples.sample_text None
  = [ lit "Ultrasonic testing detects subsurface flaws in welded steel plates.";
      lit "Radiographic testing records the density of a weld on film or a detector." ]
  /\ Forall (fun doc =>
               50 <= len (page_content doc)
               /\ 3 * len (page_content doc)
                  <= 10 * alpha_chars (U := ascii_tables) (page_content doc)
               /\ page_marker (U := ascii_tables) (page_content doc) = false)
            (Chunker.chunk_text (U := ascii_tables)
               Examples.sample_split_text Examples.sample_text None).
Proof.
  assert (Hstripped :
    Forall (fun window => strip (U := ascii_tables) window = window)
      (Examples.sample_split_text
         (clean_text (U := ascii_tables) Examples.sample_text))).
  { apply (bool_decide_unpack _). vm_compute. exact I. }
  destruct (chunk_text_quality (U := ascii_tables)
              Examples.sample_split_text Examples.sample_text None Hstripped)
    as [Hcontent Hbounds].
  split; [|exact Hbounds].
  rewrite Hcontent. vm_compute. reflexivity.
Defined.

(** C9, witness: the splitter yields three windows and two chunks are
    returned; the second has [chunk_id = 1] and [chunk_count = 3]. *)
Lemma chunk_text_metadata_witness :
  exists doc,
    Chunker.chunk_text (U := ascii_tables)
      Examples.sample_split_text Examples.sample_text None !! 1%nat = Some doc
    /\ metadata doc !! lit "chunk_id" = Some (MInt 1)
    /\ metadata doc !! lit "chunk_count" = Some (MInt 3)
    /\ len (Chunker.chunk_text (U := ascii_tables)
              Examples.sample_split_text Examples.sample_text None) = 2
    /\ metadata doc !! lit "content_length"
       = Some (MInt (len (strip (U := ascii_tables) (page_content doc)))).
Proof.
  destruct (Chunker.chunk_text (U := ascii_tables)
              Examples.sample_split_text Examples.sample_text None !! 1%nat)
    as [doc|] eqn:Hdoc.
  - exists doc. split; [reflexivity|].
    destruct (chunk_text_metadata (U := ascii_tables)
                Examples.sample_split_text Examples.sample_text None 1 doc Hdoc)
      as (Hid & Hcount & _ & _ & Hlength).
    split; [exact Hid|]. split; [exact Hcount|]. split; [|exact Hlength].
    vm_compute. reflexivity.
  - vm_compute in Hdoc. discriminate Hdoc.
Defined.

End ChunkerFacts.

(* ===================================================================== *)
(** * Retrieval: relevance filter and fallback                           *)
(* ===================================================================== *)

Module RagFacts.

Import PyFacts Rag.

(** The filtering loop keeps the relevant passages in order and stops at
    [k] of them. *)
Lemma filter_loop_spec (k : Z) (results : list (Document * Q))
    (acc : list Document) :
  0 < k -> len acc < k ->
  filter_loop k results acc = take (Z.to_nat k) (acc ++ relevant_docs results).
Proof.
  intros Hk. revert acc.
  induction results as [|[doc score] rest IH]; intros acc Hacc.
  - simpl. unfold relevant_docs. simpl. rewrite app_nil_r.
    symmetry. apply take_ge. unfold len in Hacc. lia.
  - simpl. unfold relevant_docs. simpl.
    destruct (relevant score) eqn:Hrel; simpl.
    + destruct (len (acc ++ [doc]) >=? k) eqn:Hfull.
      * apply Z.geb_le in Hfull. rewrite len_app, len_cons, len_nil in Hfull.
        match goal with
        | |- _ = take _ (acc ++ doc :: ?tl) =>
            replace (acc ++ doc :: tl) with ((acc ++ [doc]) ++ tl)
              by (by rewrite <- app_assoc)
        end.
        symmetry. apply take_app_length'.
        rewrite length_app. simpl. unfold len in *. lia.
      * rewrite Z.geb_leb in Hfull. apply Z.leb_gt in Hfull.
        rewrite (IH _ Hfull). by rewrite <- app_assoc.
    + destruct (len acc >=? k) eqn:Hfull.
      * apply Z.geb_le in Hfull. lia.
      * by apply IH.
Qed.

(** C2 (as the code has it). For a positive [k], when the index answers
    the scored search: the candidates are the [2k] scored hits; the
    survivors are the hits scoring above 0.1, in order, capped at [k];
    when fewer than [k // 2] (integer division) survive, the result is
    the unfiltered search for [k] passages, whatever the index returns
    for it (so [k] passages, or all it holds); otherwise the result is
    the survivors, at most [k] of them. *)
Theorem similarity_search_fallback (vs : VectorStore) (query : str) (k : Z)
    (results : list (Document * Q)) :
  0 < k ->
  vs_similarity_search_with_relevance_scores vs query (k * 2) = Some results ->
  let survivors := take (Z.to_nat k) (relevant_docs results) in
  len survivors <= k
  /\ (len survivors < k / 2 -> similarity_search vs query k = hits vs query k)
  /\ (k / 2 <= len survivors -> similarity_search vs query k = survivors).
Proof.
  intros Hk Hscored survivors.
  assert (Hloop : filter_loop k results [] = survivors).
  { rewrite filter_loop_spec by (rewrite ?len_nil; lia). done. }
  unfold similarity_search. rewrite Hscored, Hloop.
  split; [|split].
  - subst survivors. unfold len. rewrite length_take. lia.
  - intros Hlt. apply Z.ltb_lt in Hlt. rewrite Hlt. unfold hits.
    by destruct (vs_similarity_search vs query k).
  - intros Hge. apply Z.ltb_ge in Hge. by rewrite Hge.
Qed.

(** C2, witness: ten passages are asked for, none scores above the
    threshold, and the four the index holds come back. *)
Lemma similarity_search_fallback_witness :
  let vs := Examples.ranked_store (fun _ => drop 2 Examples.welding_hits) in
  let survivors :=
    take 10 (relevant_docs (drop 2 Examples.welding_hits)) in
  len survivors <= 10
  /\ (len survivors < 10 / 2 ->
      similarity_search vs (lit "ultrasonic") 10 = hits vs (lit "ultrasonic") 10)
  /\ (10 / 2 <= len survivors ->
      similarity_search vs (lit "ultrasonic") 10 = survivors).
Proof.
  exact (similarity_search_fallback
           (Examples.ranked_store (fun _ => drop 2 Examples.welding_hits))
           (lit "ultrasonic") 10
           (drop 2 Examples.welding_hits)
           eq_refl eq_refl).
Defined.

(** C2, counterexample: with [k = 5], two of the six candidates score
    above 0.1, which is fewer than 5/2; the index holds six passages and
    returns five of them for an unfiltered search; yet the result is the
    two survivors. *)
Lemma similarity_search_fallback_counterexample :
  vs_similarity_search_with_relevance_scores
    Examples.welding_store (lit "ultrasonic") (5 * 2)
  = Some Examples.welding_hits
  /\ 2 * len (relevant_docs Examples.welding_hits) < 5
  /\ len (hits Examples.welding_store (lit "ultrasonic") 5) = 5
  /\ len (similarity_search Examples.welding_store (lit "ultrasonic") 5) = 2.
Proof. vm_compute. repeat split; reflexivity. Qed.

(* ===================================================================== *)
(** * Context budgeting                                                  *)
(* ===================================================================== *)

Lemma estimate_nonneg (docs : list Document) : 0 <= estimate docs.
Proof.
  induction docs as [|d docs IH]; simpl; [lia|].
  pose proof (len_nonneg (page_content d)).
  assert (0 <= len (page_content d) / 4) by (apply Z.div_pos; lia). lia.
Qed.

Lemma entries_estimate_app (es1 es2 : list Entry) :
  entries_estimate (es1 ++ es2) = entries_estimate es1 + entries_estimate es2.
Proof. induction es1 as [|e es1 IH]; simpl; lia. Qed.

Lemma entries_estimate_whole (dflt : str) (docs : list Document) :
  entries_estimate (whole dflt <$> docs) = estimate docs.
Proof. induction docs as [|d docs IH]; simpl; [done|]. by rewrite <- IH. Qed.

(** A slice taken when the next passage does not fit has exactly
    [remaining_chars] characters of the passage, then the ellipsis. *)
Lemma sliced_length (dflt : str) (budget : Z) (doc : Document) :
  0 <= budget ->
  budget < len (page_content doc) / 4 ->
  len (entry_content (sliced dflt (budget * 4) doc)) = budget * 4 + 3
  /\ len (entry_content (sliced dflt (budget * 4) doc)) / 4 = budget.
Proof.
  intros Hpos Hfit.
  assert (Hlen : budget * 4 <= len (page_content doc)).
  { pose proof (Z.mul_div_le (len (page_content doc)) 4). lia. }
  assert (Hsize : len (entry_content (sliced dflt (budget * 4) doc)) = budget * 4 + 3).
  { unfold sliced, slice_to. cbn [entry_content].
    destruct (0 <=? budget * 4) eqn:H0; [|apply Z.leb_gt in H0; lia].
    rewrite len_app. unfold len in *. rewrite length_take.
    change (length ellipsis) with 3%nat. lia. }
  split; [done|]. rewrite Hsize.
  rewrite Z.add_comm, Z.div_add by lia. done.
Qed.

(** The budgeting loop, from a state with running estimate [tc]: [n]
    passages are entered whole, their estimates fit the budget, and then
    either the passages are exhausted, or the next one would exceed the
    budget and is left out or entered as a slice, by the size of the
    remaining budget. *)
Lemma budget_loop_spec (min_chars : Z) (dflt : str) (max_tokens : Z)
    (docs : list Document) (tc : Z) :
  exists n : nat,
    (n <= length docs)%nat
    /\ (n = 0%nat \/ tc + estimate (take n docs) <= max_tokens)
    /\ ((budget_loop min_chars dflt max_tokens docs tc = whole dflt <$> take n docs
         /\ (n = length docs
             \/ exists doc, docs !! n = Some doc
                /\ max_tokens < tc + estimate (take n docs) + len (page_content doc) / 4
                /\ (max_tokens - (tc + estimate (take n docs))) * 4 <= min_chars))
        \/ (exists doc, docs !! n = Some doc
            /\ max_tokens < tc + estimate (take n docs) + len (page_content doc) / 4
            /\ min_chars < (max_tokens - (tc + estimate (take n docs))) * 4
            /\ budget_loop min_chars dflt max_tokens docs tc
               = (whole dflt <$> take n docs)
                 ++ [sliced dflt ((max_tokens - (tc + estimate (take n docs))) * 4) doc])).
Proof.
  revert tc. induction docs as [|d docs IH]; intros tc.
  - exists 0%nat. simpl. split; [lia|]. split; [by left|]. left. split; [done|by left].
  - simpl budget_loop.
    destruct (tc + len (page_content d) / 4 >? max_tokens) eqn:Hover.
    + apply Z.gtb_lt in Hover.
      exists 0%nat. simpl take. simpl estimate. rewrite Z.add_0_r.
      split; [simpl; lia|]. split; [by left|].
      destruct ((max_tokens - tc) * 4 >? min_chars) eqn:Hrem.
      * apply Z.gtb_lt in Hrem. right. exists d. simpl. repeat split; try done; lia.
      * rewrite Z.gtb_ltb in Hrem. apply Z.ltb_ge in Hrem.
        left. split; [done|]. right. exists d. simpl. repeat split; try done; lia.
    + rewrite Z.gtb_ltb in Hover. apply Z.ltb_ge in Hover.
      destruct (IH (tc + len (page_content d) / 4))
        as (n & Hn & Hfit & Hshape).
      exists (S n). simpl take. simpl estimate. simpl length.
      replace (tc + (len (page_content d) / 4 + estimate (take n docs)))
        with (tc + len (page_content d) / 4 + estimate (take n docs)) by lia.
      split; [lia|]. split.
      { right. destruct Hfit as [->|Hfit]; [simpl; lia|done]. }
      destruct Hshape as [[Heq Hstop]|(doc & Hdoc & Hnext & Hrem & Heq)].
      * left. split; [rewrite Heq; done|].
        destruct Hstop as [->|(doc & Hdoc & Hnext & Hrem)]; [by left|].
        right. exists doc. done.
      * right. exists doc. rewrite Heq. done.
Qed.

(** C1 (as the code has it). The estimate the code keeps, [len // 4] per
    entry, summed over the entries of the context (the provenance headers
    and the separators are not counted), never exceeds the budget.  The
    entries are the first [n] retrieved passages, whole and in retrieval
    order, whose estimates fit the budget; after them either the passages
    are exhausted, or the next passage would exceed the budget and the
    remaining budget is worth at most 100 characters, so nothing is added,
    or it is worth more and one last entry is added: the first
    [(max_tokens - running estimate) * 4] characters of that passage
    followed by the ellipsis. *)
Theorem relevant_context_budget (vs : VectorStore) (query : str)
    (max_tokens : Z) :
  let docs := similarity_search vs query 10 in
  let entries := relevant_entries vs query max_tokens in
  let dflt := lit "Unknown source" in
  get_relevant_context vs query max_tokens
  = join (backslash_n ++ backslash_n) (context_part <$> entries)
  /\ entries_estimate entries <= Z.max 0 max_tokens
  /\ exists n : nat,
       let running := estimate (take n docs) in
       (n <= length docs)%nat
       /\ running <= Z.max 0 max_tokens
       /\ ((entries = whole dflt <$> take n docs
            /\ (n = length docs
                \/ exists doc, docs !! n = Some doc
                   /\ max_tokens < running + len (page_content doc) / 4
                   /\ (max_tokens - running) * 4 <= 100))
           \/ (exists doc, docs !! n = Some doc
               /\ max_tokens < running + len (page_content doc) / 4
               /\ 100 < (max_tokens - running) * 4
               /\ entries
                  = (whole dflt <$> take n docs)
                    ++ [sliced dflt ((max_tokens - running) * 4) doc]
               /\ entry_content (sliced dflt ((max_tokens - running) * 4) doc)
                  = take (Z.to_nat ((max_tokens - running) * 4)) (page_content doc)
                    ++ ellipsis
               /\ len (entry_content (sliced dflt ((max_tokens - running) * 4) doc))
                  = (max_tokens - running) * 4 + 3)).
Proof.
  intros docs entries dflt.
  split; [done|].
  destruct (budget_loop_spec 100 dflt max_tokens docs 0)
    as (n & Hn & Hfit & Hshape).
  change (budget_loop 100 dflt max_tokens docs 0) with entries in Hshape.
  clearbody entries docs.
  rewrite !Z.add_0_l in *.
  pose proof (estimate_nonneg (take n docs)) as Hpos.
  assert (Hrun : estimate (take n docs) <= Z.max 0 max_tokens).
  { destruct Hfit as [->|Hfit]; [simpl; lia|lia]. }
  destruct Hshape as [[Heq Hstop]|(doc & Hdoc & Hnext & Hrem & Heq)].
  - split.
    { rewrite Heq, entries_estimate_whole. done. }
    exists n. cbv zeta. split; [done|]. split; [done|]. left. done.
  - assert (Hbudget : 0 <= max_tokens - estimate (take n docs)) by lia.
    assert (Hsmall : max_tokens - estimate (take n docs) < len (page_content doc) / 4)
      by lia.
    destruct (sliced_length dflt _ doc Hbudget Hsmall) as [Hsize Hest].
    split.
    { rewrite Heq, entries_estimate_app, entries_estimate_whole.
      change (entries_estimate [sliced dflt ((max_tokens - estimate (take n docs)) * 4) doc])
        with (len (entry_content
                     (sliced dflt ((max_tokens - estimate (take n docs)) * 4) doc)) / 4 + 0).
      rewrite Hest. lia. }
    exists n. cbv zeta. split; [done|]. split; [done|]. right.
    exists doc. repeat split; try done.
    unfold sliced, slice_to. cbn [entry_content].
    destruct (0 <=? (max_tokens - estimate (take n docs)) * 4) eqn:H0; [done|].
    apply Z.leb_gt in H0. lia.
Qed.

(** C1, counterexample: with a budget of 2 tokens both seven-character
    passages are entered whole (their estimates are 1 and 1) and no slice
    is cut, yet the returned string has 48 characters, 12 tokens by
    [len // 4]; even the two passage texts alone have 14 characters, 3
    tokens. *)
Lemma relevant_context_length_counterexample :
  relevant_entries Examples.short_store (lit "flaw") 2
  = whole (lit "Unknown source") <$> (fst <$> Examples.short_hits)
  /\ len (get_relevant_context Examples.short_store (lit "flaw") 2) / 4 = 12
  /\ len (mjoin (page_content <$> (fst <$> Examples.short_hits))) / 4 = 3.
Proof. vm_compute. repeat split; reflexivity. Qed.

End RagFacts.

(* ===================================================================== *)
(** * Overview retrieval: deduplication                                  *)
(* ===================================================================== *)

Module OverviewFacts.

Import PyFacts Rag RagFacts Vocabulary.

Section facts.

Context `{U : Unicode}.
Variable hash : str -> Z.

Abbreviation content_hash := (content_hash hash).
Abbreviation entry_hash := (entry_hash hash).

Abbreviation distinct := (distinct hash).

Lemma distinct_init : distinct [] ∅.
Proof. split; [constructor|]. intros h. simpl. set_solver. Qed.

Lemma distinct_NoDup (ov : list Document) (seen : gset Z) :
  distinct ov seen -> NoDup (content_hash <$> ov).
Proof. by intros [H _]. Qed.

Lemma distinct_snoc (ov : list Document) (seen : gset Z) (doc : Document) :
  distinct ov seen -> content_hash doc ∉ seen ->
  distinct (ov ++ [doc]) ({[ content_hash doc ]} ∪ seen).
Proof.
  intros [Hnd Hseen] Hnew. split.
  - rewrite fmap_app. apply NoDup_app. split; [done|]. split.
    + intros h Hh Hin. simpl in Hin. apply list_elem_of_singleton in Hin.
      subst h. apply Hnew, Hseen, Hh.
    + simpl. apply NoDup_singleton.
  - intros h. rewrite fmap_app, elem_of_app, elem_of_union, elem_of_singleton.
    simpl. rewrite list_elem_of_singleton, Hseen. tauto.
Qed.

Lemma collect_loop_distinct (docs ov : list Document) (seen : gset Z) :
  distinct ov seen ->
  distinct (fst (collect_loop hash docs ov seen))
           (snd (collect_loop hash docs ov seen)).
Proof.
  revert ov seen. induction docs as [|doc docs IH]; intros ov seen Hinv; [done|].
  simpl. case_bool_decide as Hin; [by apply IH|].
  apply IH. by apply distinct_snoc.
Qed.

Lemma general_loop_distinct (docs ov : list Document) (seen : gset Z) :
  distinct ov seen ->
  distinct (fst (general_loop hash docs ov seen))
           (snd (general_loop hash docs ov seen)).
Proof.
  revert ov seen. induction docs as [|doc docs IH]; intros ov seen Hinv; [done|].
  simpl. case_bool_decide as Hin; simpl; [by apply IH|].
  destruct (len ov <? 15); [|by apply IH].
  apply IH. by apply distinct_snoc.
Qed.

(** The inner loop of a query appends the hits that bring a new hash. *)
Lemma collect_loop_fresh (docs ov : list Document) (seen : gset Z)
    (seen_list : list Z) :
  (forall h, h ∈ seen <-> h ∈ seen_list) ->
  fst (collect_loop hash docs ov seen) = ov ++ fresh_passages hash seen_list docs.
Proof.
  revert ov seen seen_list.
  induction docs as [|doc docs IH]; intros ov seen seen_list Hseen.
  - simpl. by rewrite app_nil_r.
  - cbn [collect_loop fresh_passages]. cbv zeta.
    fold (content_hash doc).
    destruct (decide (content_hash doc ∈ seen)) as [Hin|Hin].
    + rewrite (bool_decide_eq_true_2 (content_hash doc ∈ seen)) by done.
      rewrite (bool_decide_eq_true_2 (content_hash doc ∈ seen_list))
        by (by apply Hseen).
      by apply IH.
    + rewrite (bool_decide_eq_false_2 (content_hash doc ∈ seen)) by done.
      rewrite (bool_decide_eq_false_2 (content_hash doc ∈ seen_list))
        by (by rewrite <- Hseen).
      rewrite (IH _ _ (content_hash doc :: seen_list)).
      * by rewrite <- app_assoc.
      * intros h. rewrite elem_of_union, elem_of_singleton, elem_of_cons, Hseen.
        done.
Qed.

(** The top-up appends nothing to fifteen passages or more. *)
Lemma general_loop_full (docs ov : list Document) (seen : gset Z) :
  15 <= len ov -> fst (general_loop hash docs ov seen) = ov.
Proof.
  intros Hfull. induction docs as [|doc docs IH]; [done|].
  cbn [general_loop]. cbv zeta.
  replace (len ov <? 15) with false by (symmetry; apply Z.ltb_ge; lia).
  by rewrite andb_false_r.
Qed.

(** The top-up appends the hits that bring a new hash, as many as it
    takes to reach fifteen passages. *)
Lemma general_loop_fresh (docs ov : list Document) (seen : gset Z)
    (seen_list : list Z) :
  (forall h, h ∈ seen <-> h ∈ seen_list) ->
  fst (general_loop hash docs ov seen)
  = ov ++ take (Z.to_nat (15 - len ov)) (fresh_passages hash seen_list docs).
Proof.
  revert ov seen seen_list.
  induction docs as [|doc docs IH]; intros ov seen seen_list Hseen.
  - simpl. by rewrite take_nil, app_nil_r.
  - cbn [general_loop fresh_passages]. cbv zeta.
    fold (content_hash doc).
    destruct (decide (content_hash doc ∈ seen)) as [Hin|Hin].
    + rewrite (bool_decide_eq_true_2 (content_hash doc ∈ seen)) by done.
      rewrite (bool_decide_eq_true_2 (content_hash doc ∈ seen_list))
        by (by apply Hseen).
      cbn [negb andb]. by apply IH.
    + rewrite (bool_decide_eq_false_2 (content_hash doc ∈ seen)) by done.
      rewrite (bool_decide_eq_false_2 (content_hash doc ∈ seen_list))
        by (by rewrite <- Hseen).
      cbn [negb andb].
      destruct (len ov <? 15) eqn:Hlt.
      * apply Z.ltb_lt in Hlt.
        rewrite (IH _ _ (content_hash doc :: seen_list)).
        2:{ intros h.
            rewrite elem_of_union, elem_of_singleton, elem_of_cons, Hseen.
            done. }
        rewrite len_app, len_cons, len_nil.
        replace (Z.to_nat (15 - len ov))
          with (S (Z.to_nat (15 - (len ov + (1 + 0))))) by lia.
        cbn [take]. by rewrite <- app_assoc.
      * apply Z.ltb_ge in Hlt. rewrite general_loop_full by done.
        replace (Z.to_nat (15 - len ov)) with 0%nat by lia.
        by rewrite take_0, app_nil_r.
Qed.

(** Every passage has its hash among those seen or among those of the
    passages that bring a new hash. *)
Lemma fresh_passages_complete (seen_list : list Z) (docs : list Document)
    (doc : Document) :
  doc ∈ docs ->
  content_hash doc ∈ seen_list
  \/ content_hash doc ∈ content_hash <$> fresh_passages hash seen_list docs.
Proof.
  revert seen_list. induction docs as [|d docs IH]; intros seen_list Hin;
    [by apply elem_of_nil in Hin|].
  cbn [fresh_passages]. fold (content_hash d).
  apply elem_of_cons in Hin as [->|Hin].
  - case_bool_decide; [by left|right]. rewrite fmap_cons. apply list_elem_of_here.
  - case_bool_decide as Hd; [by apply IH|].
    destruct (IH (content_hash d :: seen_list) Hin) as [Hs|Hf].
    + apply elem_of_cons in Hs as [->|Hs]; [right|by left].
      rewrite fmap_cons. apply list_elem_of_here.
    + right. rewrite fmap_cons. by apply list_elem_of_further.
Qed.

(** The query loop issues the queries in order and stops after the first
    one that brings the gathered passages to fifteen or more. *)
Lemma query_loop_spec (vs : VectorStore) (queries : list str)
    (ov : list Document) (seen : gset Z) (result : list Document * gset Z) :
  queries <> [] ->
  query_loop hash vs queries ov seen = Some result ->
  exists m : nat,
    (1 <= m <= length queries)%nat
    /\ result
       = fold_left (fun state query =>
                      collect_loop hash (hits vs query 5) (fst state) (snd state))
                   (take m queries) (ov, seen)
    /\ (m = length queries \/ 15 <= len (fst result))
    /\ (forall j : nat, (1 <= j < m)%nat ->
          len (fst (fold_left
                      (fun state query =>
                         collect_loop hash (hits vs query 5) (fst state) (snd state))
                      (take j queries) (ov, seen))) < 15).
Proof.
  revert ov seen. induction queries as [|query rest IH]; intros ov seen Hne Hloop;
    [done|].
  simpl in Hloop.
  destruct (vs_similarity_search vs query 5) as [docs|] eqn:Hsearch; [|done].
  assert (Hhits : hits vs query 5 = docs) by (unfold hits; by rewrite Hsearch).
  destruct (collect_loop hash docs ov seen) as [ov' seen'] eqn:Hcollect.
  destruct (len ov' >=? 15) eqn:Hstop.
  - injection Hloop as <-. apply Z.geb_le in Hstop.
    exists 1%nat. simpl. rewrite ?take_0. simpl. rewrite Hhits, Hcollect.
    split; [lia|]. split; [done|]. split; [by right|]. intros j Hj. lia.
  - rewrite Z.geb_leb in Hstop. apply Z.leb_gt in Hstop.
    destruct rest as [|query' rest'].
    + simpl in Hloop. injection Hloop as <-.
      exists 1%nat. simpl. rewrite Hhits, Hcollect.
      split; [lia|]. split; [done|]. split; [by left|]. intros j Hj. lia.
    + destruct (IH ov' seen' ltac:(done) Hloop) as (m & Hm & Hres & Hend & Hbelow).
      exists (S m). simpl take. simpl fold_left. rewrite Hhits, Hcollect.
      simpl fst. simpl snd.
      split; [simpl length in *; lia|]. split; [done|]. split.
      { destruct Hend as [->|Hend]; [by left|by right]. }
      intros j Hj. destruct j as [|j]; [lia|].
      simpl take. simpl fold_left. rewrite Hhits, Hcollect. simpl fst. simpl snd.
      destruct j as [|j]; [by rewrite take_0|].
      apply Hbelow. lia.
Qed.

Lemma fold_collect_distinct (vs : VectorStore) (queries : list str)
    (ov : list Document) (seen : gset Z) :
  distinct ov seen ->
  distinct
    (fst (fold_left (fun state query =>
                       collect_loop hash (hits vs query 5) (fst state) (snd state))
                    queries (ov, seen)))
    (snd (fold_left (fun state query =>
                       collect_loop hash (hits vs query 5) (fst state) (snd state))
                    queries (ov, seen))).
Proof.
  revert ov seen. induction queries as [|query rest IH]; intros ov seen Hinv; [done|].
  simpl.
  destruct (collect_loop hash (hits vs query 5) ov seen) as [ov' seen'] eqn:Hc.
  apply IH.
  pose proof (collect_loop_distinct (hits vs query 5) ov seen Hinv) as H.
  by rewrite Hc in H.
Qed.

(** Ranking reorders the passages and nothing else. *)
Lemma insert_desc_perm (key : Document -> Z) (doc : Document)
    (sorted : list Document) :
  insert_desc key doc sorted ≡ₚ doc :: sorted.
Proof.
  induction sorted as [|d rest IH]; simpl; [done|].
  destruct (key doc <? key d); [|done].
  rewrite IH. apply Permutation_swap.
Qed.

Lemma sort_desc_perm (key : Document -> Z) (docs : list Document) :
  sort_desc key docs ≡ₚ docs.
Proof.
  induction docs as [|d docs IH]; simpl; [done|].
  rewrite insert_desc_perm. by rewrite IH.
Qed.

(** A whole entry has the hash of its passage, and so has a slice of more
    than 200 characters. *)
Lemma entry_hash_whole (dflt : str) (doc : Document) :
  entry_hash (whole dflt doc) = content_hash doc.
Proof. done. Qed.

Lemma entry_hash_sliced (dflt : str) (remaining : Z) (doc : Document) :
  200 < remaining -> remaining <= len (page_content doc) ->
  entry_hash (sliced dflt remaining doc) = content_hash doc.
Proof.
  intros Hlong Hfit. unfold Rag.entry_hash, Rag.content_hash, sliced.
  cbn [entry_content]. f_equal.
  unfold slice_to.
  destruct (0 <=? remaining) eqn:H0; [|apply Z.leb_gt in H0; lia].
  change (0 <=? 200) with true. cbv iota.
  unfold len in Hfit.
  rewrite take_app_le by (rewrite length_take; lia).
  rewrite take_take. f_equal. lia.
Qed.

(** What is gathered after one more query. *)
Lemma gathered_after_snoc (vs : VectorStore) (queries : list str) (query : str) :
  fst (gathered_after hash vs (queries ++ [query]))
  = fst (gathered_after hash vs queries)
    ++ fresh_passages hash
         (content_hash <$> fst (gathered_after hash vs queries))
         (hits vs query 5).
Proof.
  unfold gathered_after at 1. rewrite fold_left_app. cbn [fold_left].
  fold (gathered_after hash vs queries).
  apply collect_loop_fresh.
  apply (fold_collect_distinct vs queries [] ∅ distinct_init).
Qed.

(** What the gathering phase returns when the index answers. *)
Lemma gather_overview_docs_spec (vs : VectorStore) (docs : list Document) :
  gather_overview_docs hash vs = Some docs ->
  NoDup (content_hash <$> docs)
  /\ exists m : nat,
       (1 <= m <= 4)%nat
       /\ (m = 4%nat
           \/ 15 <= len (fst (gathered_after hash vs (take m intro_queries))))
       /\ (forall j : nat, (1 <= j < m)%nat ->
             len (fst (gathered_after hash vs (take j intro_queries))) < 15)
       /\ (5 <= len (fst (gathered_after hash vs (take m intro_queries))) ->
           docs = fst (gathered_after hash vs (take m intro_queries)))
       /\ (len (fst (gathered_after hash vs (take m intro_queries))) < 5 ->
           docs
           = fst (gathered_after hash vs (take m intro_queries))
             ++ take (Z.to_nat
                        (15 - len (fst (gathered_after hash vs
                                          (take m intro_queries)))))
                     (fresh_passages hash
                        (content_hash
                           <$> fst (gathered_after hash vs (take m intro_queries)))
                        (hits vs (lit "main content") 10))
           /\ len docs <= 15
           /\ forall doc,
                doc ∈ hits vs (lit "main content") 10 ->
                content_hash doc ∈ content_hash <$> docs \/ len docs = 15).
Proof.
  unfold gather_overview_docs. intros Hgather.
  destruct (query_loop hash vs intro_queries [] ∅) as [[ov seen]|] eqn:Hloop;
    [|done].
  destruct (query_loop_spec vs intro_queries [] ∅ (ov, seen) ltac:(done) Hloop)
    as (m & Hm & Hres & Hend & Hbelow).
  change (length intro_queries) with 4%nat in *.
  fold (gathered_after hash vs (take m intro_queries)) in Hres.
  pose proof (fold_collect_distinct vs (take m intro_queries) [] ∅ distinct_init)
    as Hinv.
  fold (gathered_after hash vs (take m intro_queries)) in Hinv.
  rewrite <- Hres in Hinv. simpl in Hinv.
  assert (Hfirst : fst (gathered_after hash vs (take m intro_queries)) = ov)
    by (by rewrite <- Hres).
  simpl fst in Hend.
  destruct (len ov <? 5) eqn:Hfew.
  - apply Z.ltb_lt in Hfew.
    destruct (vs_similarity_search vs (lit "main content") 10) as [general|]
      eqn:Hsearch; [|done].
    injection Hgather as <-.
    assert (Hhits : hits vs (lit "main content") 10 = general)
      by (unfold hits; by rewrite Hsearch).
    split.
    { eapply distinct_NoDup, general_loop_distinct, Hinv. }
    exists m. rewrite Hfirst.
    split; [done|]. split; [done|]. split; [exact Hbelow|].
    split; [lia|]. intros _.
    rewrite Hhits, (general_loop_fresh general ov seen (content_hash <$> ov))
      by apply Hinv.
    set (extra := fresh_passages hash (content_hash <$> ov) general).
    set (room := Z.to_nat (15 - len ov)).
    pose proof (len_nonneg ov) as Hov.
    assert (Hlen : len (ov ++ take room extra) = len ov + Z.of_nat (Nat.min room (length extra))).
    { rewrite len_app. unfold len at 2. by rewrite length_take. }
    split; [done|]. split; [rewrite Hlen; lia|].
    intros doc Hdoc. rewrite Hlen.
    destruct (fresh_passages_complete (content_hash <$> ov) general doc Hdoc)
      as [Hseen|Hfresh].
    { left. rewrite fmap_app. apply elem_of_app. by left. }
    destruct (decide (length extra <= room)%nat) as [Hfit|Hcut].
    + left. rewrite fmap_app. apply elem_of_app. right.
      by rewrite take_ge.
    + right. lia.
  - apply Z.ltb_ge in Hfew. injection Hgather as <-.
    split; [eapply distinct_NoDup, Hinv|].
    exists m. rewrite Hfirst.
    split; [done|]. split; [done|]. split; [exact Hbelow|].
    split; [done|]. lia.
Qed.

(** The entries of a budgeted context carry the hashes of a prefix of the
    ranked passages. *)
Lemma budget_entries_hashes (dflt : str) (max_tokens : Z)
    (ranked : list Document) :
  exists n : nat,
    entry_hash <$> budget_loop 200 dflt max_tokens ranked 0
    = take n (content_hash <$> ranked).
Proof.
  destruct (budget_loop_spec 200 dflt max_tokens ranked 0)
    as (n & Hn & Hfit & Hshape).
  rewrite !Z.add_0_l in Hshape.
  destruct Hshape as [[Heq _]|(doc & Hdoc & Hnext & Hrem & Heq)].
  - exists n. rewrite Heq, <- list_fmap_compose, fmap_take. done.
  - exists (S n). rewrite Heq, fmap_app, <- list_fmap_compose. simpl.
    rewrite <- fmap_take, (take_S_r _ _ _ Hdoc), fmap_app. simpl.
    f_equal. f_equal.
    apply entry_hash_sliced; [done|].
    pose proof (estimate_nonneg (take n ranked)).
    pose proof (Z.mul_div_le (len (page_content doc)) 4). lia.
Qed.

(** X23. No two entries of the overview bundle share the hash of their
    first 200 characters, whatever the index holds.  What is gathered
    grows, with each introspective query, by the hits of the query that
    bring a new hash, in their order.  When the index answers, the
    passages gathered have pairwise distinct hashes; the introspective
    queries are issued in order and, after the hits of a query have been
    added, no further one is issued once at least 15 passages are gathered
    ([m] queries are issued); with 5 or more passages gathered these are
    the result; with fewer than 5, the hits of the generic query that
    bring a new hash are appended, in their order, as many as it takes to
    reach 15 passages, so that every hit of the generic query has its hash
    in the result unless the result holds 15 passages. *)
Theorem overview_bundle_distinct (vs : VectorStore) (max_tokens : Z) :
  NoDup (entry_hash <$> overview_entries hash vs max_tokens)
  /\ intro_queries
     = [ lit "introduction overview summary definition";
         lit "objectives goals purpose learning outcomes";
         lit "abstract conclusion summary";
         lit "introduction definition what is" ]
  /\ fst (gathered_after hash vs []) = []
  /\ (forall queries query,
        fst (gathered_after hash vs (queries ++ [query]))
        = fst (gathered_after hash vs queries)
          ++ fresh_passages hash
               (content_hash <$> fst (gathered_after hash vs queries))
               (hits vs query 5))
  /\ forall docs, gather_overview_docs hash vs = Some docs ->
       NoDup (content_hash <$> docs)
       /\ exists m : nat,
            (1 <= m <= 4)%nat
            /\ (m = 4%nat
                \/ 15 <= len (fst (gathered_after hash vs (take m intro_queries))))
            /\ (forall j : nat, (1 <= j < m)%nat ->
                  len (fst (gathered_after hash vs (take j intro_queries))) < 15)
            /\ (5 <= len (fst (gathered_after hash vs (take m intro_queries))) ->
                docs = fst (gathered_after hash vs (take m intro_queries)))
            /\ (len (fst (gathered_after hash vs (take m intro_queries))) < 5 ->
                docs
                = fst (gathered_after hash vs (take m intro_queries))
                  ++ take (Z.to_nat
                             (15 - len (fst (gathered_after hash vs
                                               (take m intro_queries)))))
                          (fresh_passages hash
                             (content_hash
                                <$> fst (gathered_after hash vs
                                           (take m intro_queries)))
                             (hits vs (lit "main content") 10))
                /\ len docs <= 15
                /\ forall doc,
                     doc ∈ hits vs (lit "main content") 10 ->
                     content_hash doc ∈ content_hash <$> docs \/ len docs = 15).
Proof.
  split; [|split; [done|split; [done|split;
    [apply gathered_after_snoc|apply gather_overview_docs_spec]]]].
  unfold overview_entries.
  destruct (gather_overview_docs hash vs) as [docs|] eqn:Hgather; [|constructor].
  destruct (gather_overview_docs_spec vs docs Hgather) as [Hnd _].
  destruct (budget_entries_hashes (lit "Document") max_tokens
              (sort_desc (fun doc => get_intro_score (page_content doc)) docs))
    as (n & ->).
  eapply sublist_NoDup; [|apply sublist_take].
  by rewrite sort_desc_perm.
Qed.

(** With a context, one request and only one goes to the model service. *)
Lemma ask_question_with_context
    (chat_completion : list Message -> str + (str * Usage))
    (vs : VectorStore) (question : str) (chat_history : list ChatEntry) :
  (if is_overview_question question
   then get_document_overview hash vs 4000
   else get_relevant_context vs question 3000) <> [] ->
  length (model_requests
            (ask_question hash chat_completion vs question chat_history)) = 1%nat.
Proof.
  intros Hcontext. unfold ask_question. cbv zeta.
  destruct (if is_overview_question question
            then get_document_overview hash vs 4000
            else get_relevant_context vs question 3000) as [|c context];
    [done|].
  by destruct (chat_completion _) as [e|[text usage]].
Qed.

(** An index with nothing to return gives an empty context, for specific
    and for overview questions. *)
Lemma silent_similarity_search (vs : VectorStore) (query : str) (k : Z) :
  silent vs -> similarity_search vs query k = [].
Proof.
  intros Hsilent. unfold similarity_search.
  destruct (Hsilent query (k * 2)) as [_ Hscored].
  destruct (Hsilent query k) as [Hplain _]. unfold hits in Hplain.
  destruct (vs_similarity_search_with_relevance_scores vs query (k * 2))
    as [results|]; [|done].
  simpl in Hscored. subst results. simpl.
  destruct (len [] <? k / 2); [|done].
  by destruct (vs_similarity_search vs query k).
Qed.

Lemma silent_relevant_context (vs : VectorStore) (query : str) (max_tokens : Z) :
  silent vs -> get_relevant_context vs query max_tokens = [].
Proof.
  intros Hsilent. unfold get_relevant_context, relevant_entries.
  by rewrite silent_similarity_search.
Qed.

Lemma silent_query_loop (vs : VectorStore) (queries : list str) :
  silent vs ->
  query_loop hash vs queries [] ∅ = Some ([], ∅)
  \/ query_loop hash vs queries [] ∅ = None.
Proof.
  intros Hsilent. induction queries as [|query rest IH]; simpl; [by left|].
  destruct (Hsilent query 5) as [Hplain _]. unfold hits in Hplain.
  destruct (vs_similarity_search vs query 5) as [docs|]; [|by right].
  simpl in Hplain. subst docs. simpl. exact IH.
Qed.

Lemma silent_document_overview (vs : VectorStore) (max_tokens : Z) :
  silent vs -> get_document_overview hash vs max_tokens = [].
Proof.
  intros Hsilent. unfold get_document_overview, overview_entries,
    gather_overview_docs.
  destruct (silent_query_loop vs intro_queries Hsilent) as [-> | ->]; [|done].
  simpl.
  destruct (Hsilent (lit "main content") 10) as [Hplain _]. unfold hits in Hplain.
  destruct (vs_similarity_search vs (lit "main content") 10) as [docs|]; [|done].
  simpl in Hplain. by subst docs.
Qed.

(** C6. When the context assembled for a question is the empty string,
    [ask_question] returns the message that no relevant information was
    found in the uploaded documents, word for word as below, with no
    sources and [has_context = False], records no error and sends no
    request to the model service. *)
Theorem ask_question_without_context
    (chat_completion : list Message -> str + (str * Usage))
    (vs : VectorStore) (question : str) (chat_history : list ChatEntry) :
  (if is_overview_question question
   then get_document_overview hash vs 4000
   else get_relevant_context vs question 3000) = [] ->
  ask_question hash chat_completion vs question chat_history
  = {| response :=
         {| answer :=
              lit "I couldn't find relevant information in your uploaded documents to answer this question. Please make sure you've uploaded relevant materials or try rephrasing your question.";
            sources := [];
            has_context := false; token_usage := None; error := None |};
       model_requests := [] |}.
Proof.
  intros Hempty. unfold ask_question. cbv zeta. by rewrite Hempty.
Qed.

End facts.

(** X23, witness: in this index the four introspective queries gather
    two passages, so the generic query tops them up; of its five hits one
    is gathered already and one comes twice, and the three others are
    appended in their order. *)
Lemma overview_bundle_distinct_witness :
  gather_overview_docs Examples.poly_hash Samples.sparse_store
  = Some (fst <$> (Examples.numbered <$> [1; 2; 20; 21; 22]))
  /\ NoDup (Rag.entry_hash Examples.poly_hash
              <$> overview_entries (U := ascii_tables) Examples.poly_hash
                                   Samples.sparse_store 4000).
Proof.
  destruct (overview_bundle_distinct (U := ascii_tables) Examples.poly_hash
              Samples.sparse_store 4000) as (Hbundle & _ & _ & _ & Hgather).
  split; [|exact Hbundle].
  destruct (gather_overview_docs Examples.poly_hash Samples.sparse_store)
    as [docs|] eqn:E; [|vm_compute in E; discriminate E].
  destruct (Hgather docs eq_refl) as (_ & m & Hm & Hend & _ & _ & Htop).
  assert (m = 4%nat) as ->.
  { destruct Hend as [->|Hfull]; [done|]. exfalso.
    destruct m as [|[|[|[|[|m]]]]]; try lia; vm_compute in Hfull; by apply Hfull. }
  destruct Htop as (-> & _ & _); [vm_compute; reflexivity|].
  vm_compute. reflexivity.
Defined.

(** C7. Collection does not stop at 15 passages.  Every query of this
    index returns at most five hits; the first three introspective
    queries gather fourteen passages with distinct hashes, which is fewer
    than fifteen, so the fourth is issued and all its five hits are added:
    nineteen passages with pairwise distinct hashes are gathered, and
    nineteen entries make the bundle. *)
Theorem overview_collection_exceeds_limit :
  len (fst (gathered_after Examples.poly_hash Examples.overview_store
              (take 3 intro_queries))) = 14
  /\ (Forall (fun query => len (hits Examples.overview_store query 5) <= 5)
             intro_queries)
  /\ gather_overview_docs Examples.poly_hash Examples.overview_store
     = Some (fst <$> (Examples.numbered
                        <$> [1; 2; 3; 4; 5; 6; 7; 8; 9; 10; 11; 12; 13; 14;
                             15; 16; 17; 18; 19]))
  /\ len <$> gather_overview_docs Examples.poly_hash Examples.overview_store
     = Some 19
  /\ len (overview_entries (U := ascii_tables) Examples.poly_hash
                           Examples.overview_store 4000) = 19.
Proof.
  split; [vm_compute; reflexivity|]. split.
  { repeat constructor; vm_compute; discriminate. }
  split; [vm_compute; reflexivity|].
  split; vm_compute; reflexivity.
Qed.

(** C6, witness: a specific question asked of an empty index. *)
Lemma ask_question_without_context_witness :
  ask_question (U := ascii_tables) Examples.poly_hash (fun _ => inl [])
               Examples.empty_store (lit "how are flaws detected") []
  = {| response :=
         {| answer :=
              lit "I couldn't find relevant information in your uploaded documents to answer this question. Please make sure you've uploaded relevant materials or try rephrasing your question.";
            sources := [];
            has_context := false; token_usage := None; error := None |};
       model_requests := [] |}.
Proof.
  exact (ask_question_without_context (U := ascii_tables) Examples.poly_hash
           (fun _ => inl []) Examples.empty_store
           (lit "how are flaws detected") [] eq_refl).
Defined.

End OverviewFacts.

(* ===================================================================== *)
(** * Exam synthesis: surviving sections                                 *)
(* ===================================================================== *)

Module ExamFacts.

Import PyFacts Exam Vocabulary.

(** [len] counts what the loops go through, and a value is true when it
    has a length above zero. *)
Lemma len_of_elements (questions : Sized) :
  len_of questions = len (elements questions).
Proof.
  destruct questions as [items|fields|s]; simpl; [done| |];
    unfold len; by rewrite length_fmap.
Qed.

Lemma nonempty_len_of (questions : Sized) :
  nonempty questions = (0 <? len_of questions).
Proof.
  destruct questions as [[|item items]|[|field fields]|[|c s]]; try done;
    simpl; rewrite len_cons; symmetry; apply Z.ltb_lt;
    match goal with |- 0 < 1 + len ?l => pose proof (len_nonneg l) end; lia.
Qed.

Section facts.

Context `{U : Unicode}.
Variable model_reply : SectionKind -> str -> Z -> str -> option str.
Variable json_loads : str -> option Decoded.

Abbreviation generate_complete_exam :=
  (generate_complete_exam model_reply json_loads).
Abbreviation generated := (generated model_reply json_loads).
Abbreviation survives := (survives model_reply json_loads).

(** The reply the generator of a kind gets for a context and a
    configuration. *)
Abbreviation reply_for kind context exam_config :=
  (model_reply kind (slice_to 3500 context) (requested kind exam_config)
     (default (lit "medium")
        (cfg_difficulty (default default_config exam_config)))).

(** One block of [generate_complete_exam] adds the section of its kind
    when the kind survives, and nothing otherwise. *)
Lemma add_section_spec (kind : SectionKind) (context : str)
    (exam_config : option ExamConfig) (sections : list (str * ExamSection)) :
  add_section model_reply json_loads kind context
    (default default_config exam_config)
    (default (lit "medium") (cfg_difficulty (default default_config exam_config)))
    sections
  = sections
    ++ (if survives kind context exam_config
        then [(section_key kind,
               section_for kind (generated kind context exam_config))]
        else []).
Proof.
  unfold add_section, Exam.survives, Exam.generated, requested.
  rewrite Z.gtb_ltb. cbv zeta. rewrite nonempty_len_of.
  destruct (0 <? default 0 (cfg_count kind (default default_config exam_config)));
    simpl; [|by rewrite app_nil_r].
  destruct (0 <? len_of (generate model_reply json_loads kind context _ _));
    simpl; [done|by rewrite app_nil_r].
Qed.

(** The ['sections'] dictionary of the result. *)
Lemma exam_sections_spec (context : str) (exam_config : option ExamConfig) :
  exam_sections (generate_complete_exam context exam_config)
  = kind ← all_kinds;
    if survives kind context exam_config
    then [(section_key kind,
           section_for kind (generated kind context exam_config))]
    else [].
Proof.
  unfold Exam.generate_complete_exam. cbv zeta. cbn [exam_sections].
  rewrite !add_section_spec. simpl. by rewrite app_nil_r, <- !app_assoc.
Qed.

Lemma section_key_inj (k1 k2 : SectionKind) :
  section_key k1 = section_key k2 -> k1 = k2.
Proof. destruct k1, k2; simpl; intros H; (done || (vm_compute in H; discriminate H)). Qed.

(** What a generator returns, by what the model service and the decoder
    do. *)
Lemma generated_failed (kind : SectionKind) (context : str)
    (exam_config : option ExamConfig) :
  reply_for kind context exam_config = None
  \/ (exists reply,
        reply_for kind context exam_config = Some reply
        /\ forall questions, json_loads reply <> Some (DSized questions)) ->
  generated kind context exam_config = SList [].
Proof.
  unfold Exam.generated, generate. intros [->|(reply & -> & Hnot)]; [done|].
  destruct (json_loads reply) as [[questions| | | |]|]; try done.
  by destruct (Hnot questions).
Qed.

Lemma generated_decoded (kind : SectionKind) (context : str)
    (exam_config : option ExamConfig) (reply : str) (questions : Sized) :
  reply_for kind context exam_config = Some reply ->
  json_loads reply = Some (DSized questions) ->
  generated kind context exam_config = questions.
Proof. unfold Exam.generated, generate. by intros -> ->. Qed.


End facts.



End ExamFacts.

(* ===================================================================== *)
(** * Rendering: the answer key and the questions-only view              *)
(* ===================================================================== *)

Module RenderFacts.

Import PyFacts Exam Vocabulary ExamFacts.

Section facts.

Context `{U : Unicode}.

(** ** The loop over the items of a section *)

(** When the loop returns, every item was rendered with its own number,
    counted from the first, and its lines are among the lines appended. *)
Lemma questions_loop_inr (render : Z -> Item -> str + list str)
    (questions : list Item) (first : Z) (output : list str) (last : Z) :
  questions_loop render questions first = inr (output, last) ->
  last = first + len questions
  /\ forall (i : nat) (item : Item),
       questions !! i = Some item ->
       exists lines pre post,
         render (first + Z.of_nat i) item = inr lines
         /\ output = pre ++ lines ++ post.
Proof.
  revert first output last.
  induction questions as [|q questions IH]; intros first output last Hloop.
  - injection Hloop as <- <-. rewrite len_nil. split; [lia|done].
  - cbn [questions_loop] in Hloop.
    destruct (render first q) as [e|lines] eqn:Hq; [done|].
    cbn in Hloop.
    destruct (questions_loop render questions (first + 1)) as [e|[output' last']]
      eqn:Hrest; [done|].
    cbn in Hloop. injection Hloop as <- <-.
    destruct (IH _ _ _ Hrest) as [-> Hat].
    split; [rewrite len_cons; lia|].
    intros [|i] item Hitem.
    + injection Hitem as <-. exists lines, [], output'.
      by rewrite Z.add_0_r.
    + destruct (Hat i item Hitem) as (lines' & pre & post & Hrender & ->).
      exists lines', (lines ++ pre), post.
      replace (first + Z.of_nat (S i)) with (first + 1 + Z.of_nat i) by lia.
      split; [done|]. by rewrite <- app_assoc.
Qed.

(** What the loop raises, an item raised. *)
Lemma questions_loop_inl (render : Z -> Item -> str + list str)
    (questions : list Item) (first : Z) (e : str) :
  questions_loop render questions first = inl e ->
  exists num item, render num item = inl e.
Proof.
  revert first. induction questions as [|q questions IH]; intros first Hloop;
    [done|].
  cbn [questions_loop] in Hloop.
  destruct (render first q) as [e'|lines] eqn:Hq.
  - injection Hloop as ->. by exists first, q.
  - cbn in Hloop.
    destruct (questions_loop render questions (first + 1)) as [e'|[output last]]
      eqn:Hrest; [|done].
    injection Hloop as ->. by apply (IH (first + 1)).
Qed.

(** The loop returns when every item can be rendered, and only then. *)
Lemma questions_loop_returns (render : Z -> Item -> str + list str)
    (questions : list Item) (first : Z) :
  (exists output last, questions_loop render questions first = inr (output, last))
  <-> forall (i : nat) (item : Item),
        questions !! i = Some item ->
        exists lines, render (first + Z.of_nat i) item = inr lines.
Proof.
  split.
  - intros (output & last & Hloop) i item Hitem.
    destruct (questions_loop_inr _ _ _ _ _ Hloop) as [_ Hat].
    destruct (Hat i item Hitem) as (lines & _ & _ & Hrender & _). by exists lines.
  - revert first. induction questions as [|q questions IH]; intros first Hall.
    + by exists [], first.
    + destruct (Hall 0%nat q eq_refl) as (lines & Hq).
      rewrite Z.add_0_r in Hq.
      destruct (IH (first + 1)) as (output & last & Hrest).
      { intros i item Hitem. destruct (Hall (S i) item Hitem) as (lines' & Hi).
        exists lines'. rewrite <- Hi. f_equal. lia. }
      exists (lines ++ output), last.
      cbn [questions_loop]. rewrite Hq. cbn. rewrite Hrest. done.
Qed.

(** ** One item *)

Lemma known_keys_spec (key : str) :
  key ∈ known_keys
  <-> key = lit "multiple_choice" \/ key = lit "true_false"
      \/ key = lit "short_answer" \/ key = lit "essay".
Proof.
  unfold known_keys. rewrite !elem_of_cons, elem_of_nil. tauto.
Qed.

(** Under a key the renderers do not know, nothing is read or printed. *)
Lemma exam_question_lines_other (key : str) (num : Z) (item : Item) :
  key ∉ known_keys -> exam_question_lines key num item = inr [].
Proof.
  rewrite known_keys_spec. intros Hkey.
  unfold exam_question_lines, str_eqb.
  rewrite !bool_decide_eq_false_2 by tauto. done.
Qed.

Lemma answer_question_lines_other (key : str) (num : Z) (item : Item) :
  key ∉ known_keys -> answer_question_lines key num item = inr [].
Proof.
  rewrite known_keys_spec. intros Hkey.
  unfold answer_question_lines, str_eqb.
  rewrite !bool_decide_eq_false_2 by tauto. done.
Qed.

(** Under a known key the first line printed for a question object is its
    header, with the number of the item; an item of another type
    raises. *)
Lemma exam_question_lines_known (key : str) (num : Z) (item : Item) :
  key ∈ known_keys ->
  match item with
  | IQuestion q =>
      exists block,
        exam_question_lines key num item
        = inr ((lit "**Question " ++ str_of_Z num ++ lit ":** "
                ++ (if bool_decide (key = lit "true_false")
                    then default [] (q_statement q) ++ lit " (True/False)"
                    else default [] (q_question q)))
               :: block)
  | _ => exists e, exam_question_lines key num item = inl e
  end.
Proof.
  intros Hkey. apply known_keys_spec in Hkey.
  destruct Hkey as [-> | [-> | [-> | ->] ] ]; destruct item; try (by eexists);
    eexists; unfold exam_question_lines, question_header, get_str; cbn;
    rewrite <- ?app_assoc; reflexivity.
Qed.

Lemma answer_question_lines_known (key : str) (num : Z) (item : Item) :
  key ∈ known_keys ->
  match item with
  | IQuestion q =>
      exists block,
        answer_question_lines key num item
        = inr ((lit "**Question " ++ str_of_Z num ++ lit ":** "
                ++ (if bool_decide (key = lit "true_false")
                    then default [] (q_statement q) ++ lit " (True/False)"
                    else default [] (q_question q)))
               :: block)
  | _ => exists e, answer_question_lines key num item = inl e
  end.
Proof.
  intros Hkey. apply known_keys_spec in Hkey.
  destruct Hkey as [-> | [-> | [-> | ->] ] ]; destruct item; try (by eexists);
    eexists; unfold answer_question_lines, question_header, get_str; cbn;
    rewrite <- ?app_assoc; reflexivity.
Qed.

(** What an item raises is the [AttributeError] of its type. *)
Lemma get_of_inl (item : Item) (e : str) :
  get_of item = inl e -> e ∈ attribute_errors.
Proof.
  destruct item; intros [= <-]; apply (bool_decide_unpack _); vm_compute;
    exact I.
Qed.

Lemma exam_question_lines_inl (key : str) (num : Z) (item : Item) (e : str) :
  exam_question_lines key num item = inl e -> e ∈ attribute_errors.
Proof.
  unfold exam_question_lines. intros Hraise. apply (get_of_inl item).
  repeat match type of Hraise with
         | context [if ?b then _ else _] => destruct b
         end; try done;
    (destruct (get_of item); cbn in Hraise;
     [by injection Hraise as ->|discriminate Hraise]).
Qed.

Lemma answer_question_lines_inl (key : str) (num : Z) (item : Item) (e : str) :
  answer_question_lines key num item = inl e -> e ∈ attribute_errors.
Proof.
  unfold answer_question_lines. intros Hraise. apply (get_of_inl item).
  repeat match type of Hraise with
         | context [if ?b then _ else _] => destruct b
         end; try done;
    (destruct (get_of item); cbn in Hraise;
     [by injection Hraise as ->|discriminate Hraise]).
Qed.

(** An item can be rendered exactly when its key is not known or it is a
    question object. *)
Lemma exam_question_lines_returns (key : str) (num : Z) (item : Item) :
  (exists lines, exam_question_lines key num item = inr lines)
  <-> negb (bool_decide (key ∈ known_keys)) || question_object item = true.
Proof.
  destruct (decide (key ∈ known_keys)) as [Hkey|Hkey].
  - rewrite bool_decide_eq_true_2 by done. cbn [negb orb].
    pose proof (exam_question_lines_known key num item Hkey) as Hknown.
    destruct item; cbn [question_object];
      try (destruct Hknown as [e ->]; split; [by intros [? ?]|done]).
    destruct Hknown as [block ->]. split; [done|by eexists].
  - rewrite bool_decide_eq_false_2 by done. cbn [negb orb].
    rewrite exam_question_lines_other by done. split; [done|by eexists].
Qed.

Lemma answer_question_lines_returns (key : str) (num : Z) (item : Item) :
  (exists lines, answer_question_lines key num item = inr lines)
  <-> negb (bool_decide (key ∈ known_keys)) || question_object item = true.
Proof.
  destruct (decide (key ∈ known_keys)) as [Hkey|Hkey].
  - rewrite bool_decide_eq_true_2 by done. cbn [negb orb].
    pose proof (answer_question_lines_known key num item Hkey) as Hknown.
    destruct item; cbn [question_object];
      try (destruct Hknown as [e ->]; split; [by intros [? ?]|done]).
    destruct Hknown as [block ->]. split; [done|by eexists].
  - rewrite bool_decide_eq_false_2 by done. cbn [negb orb].
    rewrite answer_question_lines_other by done. split; [done|by eexists].
Qed.

(** The items of a section can all be rendered exactly when the key is
    not known or they are all question objects. *)
Lemma section_returns (render : str -> Z -> Item -> str + list str)
    (key : str) (questions : list Item) (first : Z) :
  (forall num item,
     (exists lines, render key num item = inr lines)
     <-> negb (bool_decide (key ∈ known_keys)) || question_object item = true) ->
  (exists output last,
     questions_loop (render key) questions first = inr (output, last))
  <-> negb (bool_decide (key ∈ known_keys)) || forallb question_object questions
      = true.
Proof.
  intros Hrender. rewrite questions_loop_returns.
  destruct (bool_decide (key ∈ known_keys)) eqn:Hkey; cbn [negb orb].
  - rewrite forallb_forall. split.
    + intros Hall item Hin. apply list_elem_of_In, list_elem_of_lookup in Hin.
      destruct Hin as [i Hi]. apply (Hrender (first + Z.of_nat i)).
      by apply Hall.
    + intros Hall i item Hi. apply Hrender.
      apply Hall, list_elem_of_In. by eapply list_elem_of_lookup_2.
  - split; [done|]. intros _ i item Hi. by apply Hrender.
Qed.

(** ** The loops over the sections *)

Lemma count_questions_cons (key : str) (section : ExamSection)
    (sections : list (str * ExamSection)) :
  count_questions ((key, section) :: sections)
  = len (elements (sec_questions section)) + count_questions sections.
Proof. cbn [count_questions foldr]. by rewrite len_of_elements. Qed.

(** When the loop over the sections returns, the items of each section
    were rendered from the number that follows the items of the sections
    before it, and their lines are among the lines returned. *)
Lemma exam_sections_loop_inr (before after : list (str * ExamSection))
    (key : str) (section : ExamSection) (first : Z) (lines : list str) :
  exam_sections_loop (before ++ (key, section) :: after) first = inr lines ->
  exists output last pre post,
    questions_loop (exam_question_lines key) (elements (sec_questions section))
                   (first + count_questions before) = inr (output, last)
    /\ lines = pre ++ output ++ post.
Proof.
  revert first lines.
  induction before as [|[key0 section0] before IH]; intros first lines Hloop.
  - cbn [app exam_sections_loop] in Hloop.
    change (count_questions []) with 0. rewrite Z.add_0_r.
    destruct (questions_loop (exam_question_lines key)
                (elements (sec_questions section)) first)
      as [e|[output last]]; [done|].
    cbn in Hloop.
    destruct (exam_sections_loop after last) as [e|more]; [done|].
    cbn in Hloop. injection Hloop as <-.
    exists output, last. eexists [_; _], _. split; [done|reflexivity].
  - rewrite <- app_comm_cons in Hloop. cbn [exam_sections_loop] in Hloop.
    destruct (questions_loop (exam_question_lines key0)
                (elements (sec_questions section0)) first)
      as [e|[output0 last0]] eqn:Hfirst; [done|].
    cbn in Hloop.
    destruct (exam_sections_loop (before ++ (key, section) :: after) last0)
      as [e|more] eqn:Hmore; [done|].
    cbn in Hloop. injection Hloop as <-.
    destruct (questions_loop_inr _ _ _ _ _ Hfirst) as [-> _].
    destruct (IH _ _ Hmore) as (output & last & pre & post & Hq & ->).
    exists output, last.
    eexists (_ :: _ :: output0 ++ _ :: pre), post.
    rewrite count_questions_cons.
    replace (first + (len (elements (sec_questions section0))
                      + count_questions before))
      with (first + len (elements (sec_questions section0))
            + count_questions before) by lia.
    split; [done|]. cbn [app]. rewrite <- ?app_assoc. cbn [app]. reflexivity.
Qed.

Lemma answer_sections_loop_inr (before after : list (str * ExamSection))
    (key : str) (section : ExamSection) (first : Z) (lines : list str) :
  answer_sections_loop (before ++ (key, section) :: after) first = inr lines ->
  exists output last pre post,
    questions_loop (answer_question_lines key) (elements (sec_questions section))
                   (first + count_questions before) = inr (output, last)
    /\ lines = pre ++ output ++ post.
Proof.
  revert first lines.
  induction before as [|[key0 section0] before IH]; intros first lines Hloop.
  - cbn [app answer_sections_loop] in Hloop.
    change (count_questions []) with 0. rewrite Z.add_0_r.
    destruct (questions_loop (answer_question_lines key)
                (elements (sec_questions section)) first)
      as [e|[output last]]; [done|].
    cbn in Hloop.
    destruct (answer_sections_loop after last) as [e|more]; [done|].
    cbn in Hloop. injection Hloop as <-.
    exists output, last. eexists [_], _. split; [done|reflexivity].
  - rewrite <- app_comm_cons in Hloop. cbn [answer_sections_loop] in Hloop.
    destruct (questions_loop (answer_question_lines key0)
                (elements (sec_questions section0)) first)
      as [e|[output0 last0]] eqn:Hfirst; [done|].
    cbn in Hloop.
    destruct (answer_sections_loop (before ++ (key, section) :: after) last0)
      as [e|more] eqn:Hmore; [done|].
    cbn in Hloop. injection Hloop as <-.
    destruct (questions_loop_inr _ _ _ _ _ Hfirst) as [-> _].
    destruct (IH _ _ Hmore) as (output & last & pre & post & Hq & ->).
    exists output, last.
    eexists (_ :: output0 ++ _ :: pre), post.
    rewrite count_questions_cons.
    replace (first + (len (elements (sec_questions section0))
                      + count_questions before))
      with (first + len (elements (sec_questions section0))
            + count_questions before) by lia.
    split; [done|]. cbn [app]. rewrite <- ?app_assoc. cbn [app]. reflexivity.
Qed.

(** The loops over the sections return exactly on sections that hold,
    under the known keys, question objects only. *)
Lemma exam_sections_loop_returns (sections : list (str * ExamSection))
    (first : Z) :
  (exists lines, exam_sections_loop sections first = inr lines)
  <-> forallb (fun entry =>
                 negb (bool_decide (fst entry ∈ known_keys))
                 || forallb question_object
                            (elements (sec_questions (snd entry))))
              sections = true.
Proof.
  revert first. induction sections as [|[key section] sections IH]; intros first.
  - split; [done|]. by exists [].
  - cbn [exam_sections_loop forallb fst snd]. rewrite andb_true_iff.
    rewrite <- (section_returns exam_question_lines key _ first)
      by apply exam_question_lines_returns.
    split.
    + intros [lines Hloop].
      destruct (questions_loop (exam_question_lines key)
                  (elements (sec_questions section)) first)
        as [e|[output last]]; [done|].
      cbn in Hloop.
      destruct (exam_sections_loop sections last) as [e|more] eqn:Hmore; [done|].
      split; [by eexists _, _|]. apply (IH last). by exists more.
    + intros [(output & last & ->) Hrest]. cbn.
      apply (IH last) in Hrest as [more ->]. by eexists.
Qed.

Lemma answer_sections_loop_returns (sections : list (str * ExamSection))
    (first : Z) :
  (exists lines, answer_sections_loop sections first = inr lines)
  <-> forallb (fun entry =>
                 negb (bool_decide (fst entry ∈ known_keys))
                 || forallb question_object
                            (elements (sec_questions (snd entry))))
              sections = true.
Proof.
  revert first. induction sections as [|[key section] sections IH]; intros first.
  - split; [done|]. by exists [].
  - cbn [answer_sections_loop forallb fst snd]. rewrite andb_true_iff.
    rewrite <- (section_returns answer_question_lines key _ first)
      by apply answer_question_lines_returns.
    split.
    + intros [lines Hloop].
      destruct (questions_loop (answer_question_lines key)
                  (elements (sec_questions section)) first)
        as [e|[output last]]; [done|].
      cbn in Hloop.
      destruct (answer_sections_loop sections last) as [e|more] eqn:Hmore; [done|].
      split; [by eexists _, _|]. apply (IH last). by exists more.
    + intros [(output & last & ->) Hrest]. cbn.
      apply (IH last) in Hrest as [more ->]. by eexists.
Qed.

(** What a renderer raises is the [AttributeError] of an item. *)
Lemma format_exam_for_display_inl (exam : ExamDict) (e : str) :
  format_exam_for_display exam = inl e -> e ∈ attribute_errors.
Proof.
  unfold format_exam_for_display, exam_lines.
  destruct (exam_error exam); [done|].
  generalize 1.
  induction (exam_sections exam) as [|[key section] sections IH]; intros first;
    [done|].
  cbn [exam_sections_loop].
  destruct (questions_loop (exam_question_lines key)
              (elements (sec_questions section)) first)
    as [e'|[output last]] eqn:Hq.
  - intros [= <-]. apply questions_loop_inl in Hq as (num & item & Hitem).
    by eapply exam_question_lines_inl.
  - cbn. intros Hraise. apply (IH last).
    by destruct (exam_sections_loop sections last).
Qed.

Lemma format_answers_for_display_inl (exam : ExamDict) (e : str) :
  format_answers_for_display exam = inl e -> e ∈ attribute_errors.
Proof.
  unfold format_answers_for_display, answer_lines.
  destruct (exam_error exam); [done|].
  generalize 1.
  induction (exam_sections exam) as [|[key section] sections IH]; intros first;
    [done|].
  cbn [answer_sections_loop].
  destruct (questions_loop (answer_question_lines key)
              (elements (sec_questions section)) first)
    as [e'|[output last]] eqn:Hq.
  - intros [= <-]. apply questions_loop_inl in Hq as (num & item & Hitem).
    by eapply answer_question_lines_inl.
  - cbn. intros Hraise. apply (IH last).
    by destruct (answer_sections_loop sections last).
Qed.

(** The two renderers return on the same exams: those that hold, under
    the known keys, question objects only. *)
Lemma exam_lines_returns (exam : ExamDict) :
  (exists lines, exam_lines exam = inr lines) <-> renderable exam = true.
Proof.
  unfold renderable. rewrite <- (exam_sections_loop_returns _ 1).
  unfold exam_lines. split.
  - intros [lines Hlines].
    destruct (exam_sections_loop (exam_sections exam) 1) as [e|more]; [done|].
    by exists more.
  - intros [more ->]. by eexists.
Qed.

Lemma answer_lines_returns (exam : ExamDict) :
  (exists lines, answer_lines exam = inr lines) <-> renderable exam = true.
Proof.
  unfold renderable. rewrite <- (answer_sections_loop_returns _ 1).
  unfold answer_lines. split.
  - intros [lines Hlines].
    destruct (answer_sections_loop (exam_sections exam) 1) as [e|more]; [done|].
    by exists more.
  - intros [more ->]. by eexists.
Qed.

(** Where an item of a section is rendered, in each view. *)
Lemma exam_lines_at (exam : ExamDict) (before after : list (str * ExamSection))
    (key : str) (section : ExamSection) (i : nat) (item : Item)
    (lines : list str) :
  exam_lines exam = inr lines ->
  exam_sections exam = before ++ (key, section) :: after ->
  elements (sec_questions section) !! i = Some item ->
  exists block pre post,
    exam_question_lines key (1 + count_questions before + Z.of_nat i) item
    = inr block
    /\ lines = pre ++ block ++ post.
Proof.
  unfold exam_lines. intros Hlines Hsections Hitem. rewrite Hsections in Hlines.
  destruct (exam_sections_loop (before ++ (key, section) :: after) 1)
    as [e|more] eqn:Hmore; [done|].
  cbn in Hlines. injection Hlines as <-.
  destruct (exam_sections_loop_inr _ _ _ _ _ _ Hmore)
    as (output & last & pre & post & Hq & ->).
  destruct (questions_loop_inr _ _ _ _ _ Hq) as [_ Hat].
  destruct (Hat i item Hitem) as (block & pre' & post' & Hblock & ->).
  exists block. eexists (_ :: _ :: _ :: _ :: pre ++ pre'), (post' ++ post).
  split; [done|]. cbn [app]. rewrite <- ?app_assoc. reflexivity.
Qed.

Lemma answer_lines_at (exam : ExamDict) (before after : list (str * ExamSection))
    (key : str) (section : ExamSection) (i : nat) (item : Item)
    (lines : list str) :
  answer_lines exam = inr lines ->
  exam_sections exam = before ++ (key, section) :: after ->
  elements (sec_questions section) !! i = Some item ->
  exists block pre post,
    answer_question_lines key (1 + count_questions before + Z.of_nat i) item
    = inr block
    /\ lines = pre ++ block ++ post.
Proof.
  unfold answer_lines. intros Hlines Hsections Hitem. rewrite Hsections in Hlines.
  destruct (answer_sections_loop (before ++ (key, section) :: after) 1)
    as [e|more] eqn:Hmore; [done|].
  cbn in Hlines. injection Hlines as <-.
  destruct (answer_sections_loop_inr _ _ _ _ _ _ Hmore)
    as (output & last & pre & post & Hq & ->).
  destruct (questions_loop_inr _ _ _ _ _ Hq) as [_ Hat].
  destruct (Hat i item Hitem) as (block & pre' & post' & Hblock & ->).
  exists block. eexists (_ :: _ :: _ :: _ :: pre ++ pre'), (post' ++ post).
  split; [done|]. cbn [app]. rewrite <- ?app_assoc. reflexivity.
Qed.

(** ** The choices of a multiple-choice question *)

(** A choice whose letter is not the correct one is printed plain. *)
Lemma answer_choice_lines_other (q : Question) (letter : str)
    (choices : list (str * str)) :
  q_correct_answer q = Some (AStr letter) ->
  letter ∉ fst <$> choices ->
  (fun '(choice, text) =>
     if is_correct choice q then marked_choice choice text
     else plain_choice choice text) <$> choices
  = plain_line <$> choices.
Proof.
  intros Hcorrect Hnot. induction choices as [|[choice text] rest IH]; [done|].
  rewrite !fmap_cons. rewrite fmap_cons in Hnot.
  apply not_elem_of_cons in Hnot. destruct Hnot as [Hne Hrest].
  rewrite IH by done. f_equal.
  unfold is_correct. rewrite Hcorrect. unfold str_eqb.
  rewrite bool_decide_eq_false_2; [done|]. simpl in Hne. congruence.
Qed.

(** In the answer key the correct choice, and only it, is marked. *)
Lemma answer_choice_lines_marked (q : Question) (letter text : str)
    (before after : list (str * str)) :
  q_choices q = Some (before ++ (letter, text) :: after) ->
  NoDup (fst <$> before ++ (letter, text) :: after) ->
  q_correct_answer q = Some (AStr letter) ->
  answer_choice_lines q
  = (plain_line <$> before) ++ [marked_choice letter text]
    ++ (plain_line <$> after).
Proof.
  intros Hchoices Hnd Hcorrect.
  unfold answer_choice_lines, choices_of. rewrite Hchoices. simpl.
  rewrite fmap_app, fmap_cons in Hnd. simpl in Hnd.
  apply NoDup_app in Hnd. destruct Hnd as (_ & Hdisj & Hnd).
  apply NoDup_cons in Hnd. destruct Hnd as [Hafter _].
  rewrite fmap_app, fmap_cons.
  rewrite (answer_choice_lines_other q letter before Hcorrect).
  2:{ intros Hin. apply (Hdisj _ Hin). by left. }
  rewrite (answer_choice_lines_other q letter after Hcorrect) by done.
  f_equal. f_equal.
  unfold is_correct. rewrite Hcorrect. unfold str_eqb.
  by rewrite bool_decide_eq_true_2.
Qed.

(** The lines of a multiple-choice question in the two views. *)
Lemma answer_question_lines_multiple_choice (num : Z) (q : Question) :
  answer_question_lines (lit "multiple_choice") num (IQuestion q)
  = inr ([question_header num (get_str (q_question q))]
         ++ answer_choice_lines q
         ++ optional_line (mark_bulb ++ lit " **Explanation:** ") (q_explanation q)
         ++ [ [] ]).
Proof. done. Qed.

Lemma exam_question_lines_multiple_choice (num : Z) (q : Question) :
  exam_question_lines (lit "multiple_choice") num (IQuestion q)
  = inr ([question_header num (get_str (q_question q))]
         ++ (plain_line <$> choices_of q)
         ++ [ [] ]).
Proof.
  unfold exam_question_lines, str_eqb.
  rewrite bool_decide_eq_true_2 by reflexivity. cbn.
  do 3 f_equal. apply list_fmap_ext. by intros i [choice text] _.
Qed.

(** ** The questions-only view reads no answer field *)

Lemma exam_question_lines_without_answers (key : str) (num : Z) (item : Item) :
  exam_question_lines key num (item_without_answers item)
  = exam_question_lines key num item.
Proof. by destruct item. Qed.

Lemma elements_without_answers (questions : Sized) :
  elements (questions_without_answers questions)
  = item_without_answers <$> elements questions.
Proof.
  destruct questions as [items|fields|s]; cbn [questions_without_answers elements];
    [done| |]; rewrite <- list_fmap_compose; by apply list_fmap_ext.
Qed.

Lemma questions_loop_without_answers (key : str) (questions : list Item)
    (first : Z) :
  questions_loop (exam_question_lines key) (item_without_answers <$> questions)
                 first
  = questions_loop (exam_question_lines key) questions first.
Proof.
  revert first. induction questions as [|q qs IH]; intros first; [done|].
  rewrite fmap_cons. cbn [questions_loop].
  by rewrite IH, exam_question_lines_without_answers.
Qed.

Lemma exam_lines_without_answers (exam : ExamDict) :
  exam_lines (exam_without_answers exam) = exam_lines exam.
Proof.
  unfold exam_lines, exam_without_answers. cbn [exam_title exam_instructions
    exam_total_questions exam_sections].
  assert (Hloop : forall sections first,
    exam_sections_loop
      ((fun '(key, section) =>
          (key, {| sec_title := sec_title section;
                   sec_instructions := sec_instructions section;
                   sec_questions :=
                     questions_without_answers (sec_questions section) |}))
         <$> sections) first
    = exam_sections_loop sections first).
  { induction sections as [|[key section] rest IH]; intros first; [done|].
    rewrite fmap_cons. cbn [exam_sections_loop sec_title sec_instructions
                            sec_questions].
    rewrite elements_without_answers, questions_loop_without_answers.
    destruct (questions_loop (exam_question_lines key)
                (elements (sec_questions section)) first)
      as [e|[output last]]; [done|].
    cbn. by rewrite IH. }
  by rewrite Hloop.
Qed.

(** C5. For an exam without error whose sections hold question objects,
    and a question of its multiple-choice section whose correct letter is
    a key of its choices: the answer key prints the header of the
    question, then its choices in order, the correct one on the line
    ["  <check> **<letter>) <text>** <arrow> CORRECT ANSWER"], where the
    two marks are the code points the source file holds, and every other
    one on the plain line ["  <letter>) <text>"]; the questions-only view
    prints the header and
    all the choices on plain lines; and the questions-only view is the
    same text as that of the exam with the correct answers, explanations,
    sample answers, key points and outlines removed. *)
Theorem answer_key_marks_correct_choice (exam : ExamDict)
    (section : ExamSection) (q : Question) (letter text : str)
    (choices : list (str * str)) :
  exam_error exam = None ->
  renderable exam = true ->
  (lit "multiple_choice", section) ∈ exam_sections exam ->
  IQuestion q ∈ elements (sec_questions section) ->
  q_choices q = Some choices ->
  NoDup (fst <$> choices) ->
  q_correct_answer q = Some (AStr letter) ->
  (letter, text) ∈ choices ->
  let header := fun num : Z =>
    lit "**Question " ++ str_of_Z num ++ lit ":** " ++ default [] (q_question q) in
  let plain := fun choice : str * str =>
    lit "  " ++ fst choice ++ lit ") " ++ snd choice in
  let marked :=
    lit "  " ++ [226; 339; 8230]%N ++ lit " **" ++ letter ++ lit ") " ++ text
    ++ lit "** " ++ [226; 8224]%N ++ lit " CORRECT ANSWER" in
  (exists before after num pre post,
     choices = before ++ (letter, text) :: after
     /\ format_answers_for_display exam
        = inr (join (lit "\n")
                 (pre ++ [header num] ++ (plain <$> before) ++ [marked]
                  ++ (plain <$> after) ++ post))
     /\ answer_lines exam
        = inr (pre ++ [header num] ++ (plain <$> before) ++ [marked]
               ++ (plain <$> after) ++ post))
  /\ (exists num pre post,
        format_exam_for_display exam
        = inr (join (lit "\n")
                 (pre ++ [header num] ++ (plain <$> choices) ++ [ [] ] ++ post))
        /\ exam_lines exam
           = inr (pre ++ [header num] ++ (plain <$> choices) ++ [ [] ] ++ post))
  /\ format_exam_for_display exam
     = format_exam_for_display (exam_without_answers exam).
Proof.
  intros Herr Hrender Hsec Hq Hchoices Hnd Hcorrect Hin header plain marked.
  apply list_elem_of_split in Hsec. destruct Hsec as (s1 & s2 & Hsec).
  apply list_elem_of_lookup in Hq. destruct Hq as [i Hi].
  split; [|split].
  - apply list_elem_of_split in Hin. destruct Hin as (before & after & ->).
    destruct (proj2 (answer_lines_returns exam) Hrender) as [lines Hlines].
    destruct (answer_lines_at exam _ _ _ _ _ _ _ Hlines Hsec Hi)
      as (block & pre & post & Hblock & ->).
    rewrite answer_question_lines_multiple_choice in Hblock.
    injection Hblock as <-.
    rewrite (answer_choice_lines_marked q letter text before after
               Hchoices Hnd Hcorrect) in Hlines.
    exists before, after, (1 + count_questions s1 + Z.of_nat i), pre,
      (optional_line (mark_bulb ++ lit " **Explanation:** ") (q_explanation q)
         ++ [ [] ] ++ post).
    split; [done|].
    assert (Heq : answer_lines exam
                  = inr (pre ++ [header (1 + count_questions s1 + Z.of_nat i)]
                         ++ (plain <$> before) ++ [marked]
                         ++ (plain <$> after)
                         ++ optional_line (mark_bulb ++ lit " **Explanation:** ")
                                          (q_explanation q)
                         ++ [ [] ] ++ post)).
    { rewrite Hlines. do 2 f_equal. cbn [app]. rewrite <- ?app_assoc. cbn [app].
      reflexivity. }
    split; [|exact Heq].
    unfold format_answers_for_display. by rewrite Herr, Heq.
  - destruct (proj2 (exam_lines_returns exam) Hrender) as [lines Hlines].
    destruct (exam_lines_at exam _ _ _ _ _ _ _ Hlines Hsec Hi)
      as (block & pre & post & Hblock & ->).
    rewrite exam_question_lines_multiple_choice in Hblock.
    injection Hblock as <-.
    unfold choices_of in Hlines. rewrite Hchoices in Hlines. simpl default in Hlines.
    exists (1 + count_questions s1 + Z.of_nat i), pre, post.
    assert (Heq : exam_lines exam
                  = inr (pre ++ [header (1 + count_questions s1 + Z.of_nat i)]
                         ++ (plain <$> choices) ++ [ [] ] ++ post)).
    { rewrite Hlines. do 2 f_equal. cbn [app]. rewrite <- ?app_assoc. cbn [app].
      reflexivity. }
    split; [|exact Heq].
    unfold format_exam_for_display. by rewrite Herr, Heq.
  - unfold format_exam_for_display. cbn [exam_error exam_without_answers].
    by rewrite exam_lines_without_answers.
Qed.

End facts.

(** C5, witness: the sample exam, whose multiple-choice question has the
    correct letter B.  The answer key marks the line of B and prints the
    three other choices plain; the questions-only view prints the four
    choices plain. *)
Lemma answer_key_marks_correct_choice_witness :
  (exists num pre post,
     answer_lines (U := ascii_tables) Examples.sample_exam
     = inr (pre
            ++ [ lit "**Question " ++ str_of_Z num
                   ++ lit ":** Which method uses sound waves?";
                 lit "  A) Radiographic testing";
                 lit "  " ++ [226; 339; 8230]%N ++ lit " **B) Ultrasonic testing** "
                   ++ [226; 8224]%N ++ lit " CORRECT ANSWER";
                 lit "  C) Penetrant testing";
                 lit "  D) Visual inspection" ]
            ++ post))
  /\ (exists num pre post,
        exam_lines (U := ascii_tables) Examples.sample_exam
        = inr (pre
               ++ [ lit "**Question " ++ str_of_Z num
                      ++ lit ":** Which method uses sound waves?";
                    lit "  A) Radiographic testing";
                    lit "  B) Ultrasonic testing";
                    lit "  C) Penetrant testing";
                    lit "  D) Visual inspection";
                    [] ]
               ++ post))
  /\ format_exam_for_display (U := ascii_tables) Examples.sample_exam
     = format_exam_for_display (U := ascii_tables)
         (exam_without_answers Examples.sample_exam).
Proof.
  destruct (answer_key_marks_correct_choice (U := ascii_tables)
              Examples.sample_exam
              (section_for MultipleChoice (SList [IQuestion Examples.sample_question]))
              Examples.sample_question (lit "B") (lit "Ultrasonic testing")
              [ (lit "A", lit "Radiographic testing");
                (lit "B", lit "Ultrasonic testing");
                (lit "C", lit "Penetrant testing");
                (lit "D", lit "Visual inspection") ])
    as [Hkey [Hview Hsame]].
  - reflexivity.
  - reflexivity.
  - apply list_elem_of_further, list_elem_of_here.
  - apply list_elem_of_here.
  - reflexivity.
  - apply (bool_decide_unpack _). vm_compute. exact I.
  - reflexivity.
  - apply list_elem_of_further, list_elem_of_here.
  - split; [|split; [|exact Hsame]].
    + destruct Hkey as (before & after & num & pre & post & Hc & _ & Hlines).
      destruct before as [|a [|b [|c [|d [|e before]]]]]; vm_compute in Hc;
        try discriminate Hc.
      simplify_eq.
      exists num, pre, post. exact Hlines.
    + destruct Hview as (num & pre & post & _ & Hlines).
      exists num, pre, post. exact Hlines.
Defined.

End RenderFacts.

(* ===================================================================== *)
(** * The chatbot: bounded history and copies                            *)
(* ===================================================================== *)

Module ChatbotFacts.

Import PyFacts Chatbot.

(** A new object gets a reference that was free. *)
Lemma alloc_spec (o : obj) (h : gmap loc obj) :
  h !! fst (alloc o h) = None
  /\ snd (alloc o h) = <[ fst (alloc o h) := o ]> h.
Proof.
  unfold alloc. simpl. split; [|done].
  apply not_elem_of_dom, is_fresh.
Qed.

Lemma omap_drop {A B} (f : A -> option B) (l : list A) (n : nat) :
  Forall (fun x => is_Some (f x)) l ->
  omap f (drop n l) = drop n (omap f l).
Proof.
  intros Hall. revert n. induction Hall as [|x l [y Hy] _ IH]; intros n.
  - by destruct n.
  - destruct n as [|n]; [done|]. simpl. rewrite Hy. simpl. apply IH.
Qed.

Lemma omap_length {A B} (f : A -> option B) (l : list A) :
  Forall (fun x => is_Some (f x)) l ->
  length (omap f l) = length l.
Proof.
  induction 1 as [|x l [y Hy] _ IH]; [done|]. simpl. rewrite Hy. simpl.
  f_equal. exact IH.
Qed.

Section facts.

Context `{U : Unicode}.
Variable hash : str -> Z.
Variable max_history_length : Z.

Abbreviation ask_question := (ask_question hash max_history_length).
Abbreviation run := (run hash max_history_length).
Abbreviation reachable := (reachable hash max_history_length).

(** Turns are read the same after an object is created, and after an
    object that is not a turn is replaced. *)
Lemma entry_at_insert_fresh (h : gmap loc obj) (l' l : loc) (o : obj) :
  h !! l' = None -> is_Some (entry_at h l) ->
  entry_at (<[ l' := o ]> h) l = entry_at h l.
Proof.
  intros Hfresh [e He]. unfold entry_at in *.
  destruct (decide (l' = l)) as [->|Hne]; [by rewrite Hfresh in He|].
  by rewrite lookup_insert_ne.
Qed.

Lemma entry_at_insert_container (h : gmap loc obj) (l' l : loc) (o o' : obj) :
  h !! l' = Some o -> (forall e, o <> OEntry e) -> (forall e, o' <> OEntry e) ->
  entry_at (<[ l' := o' ]> h) l = entry_at h l.
Proof.
  intros Hold Ho Ho'. unfold entry_at.
  destruct (decide (l' = l)) as [->|Hne]; [|by rewrite lookup_insert_ne].
  rewrite lookup_insert_eq, Hold. destruct o, o'; try done;
    first [by destruct (Ho entry) | by destruct (Ho' entry)].
Qed.

Lemma history_entries_length (bot : Bot) :
  well_formed bot -> length (history_entries bot) = length (history bot).
Proof.
  intros [(items & Hitems & Hall) _]. unfold history_entries, history, list_items.
  rewrite Hitems. by apply omap_length.
Qed.

(** What one call of [ask_question] does to the history. *)
Lemma ask_question_spec (svc : Services) (bot : Bot) (question : str) :
  well_formed bot ->
  well_formed (fst (ask_question svc bot question))
  /\ history_entries (fst (ask_question svc bot question))
     = (if max_history_length <? len (history_entries bot) + 1
        then drop 1 (history_entries bot
                     ++ [turn_of question (snd (ask_question svc bot question))])
        else history_entries bot
             ++ [turn_of question (snd (ask_question svc bot question))]).
Proof.
  intros Hwf.
  pose proof (history_entries_length bot Hwf) as Hlen.
  destruct Hwf as [(items & Hitems & Hall) (docs & Hdocs)].
  unfold Chatbot.ask_question. cbv zeta.
  set (response := Rag.response _).
  fold (turn_of question response).
  destruct (alloc (OEntry (turn_of question response)) (heap bot)) as [e h] eqn:Ha.
  pose proof (alloc_spec (OEntry (turn_of question response)) (heap bot)) as [Hfresh Hh].
  rewrite Ha in Hfresh, Hh. simpl in Hfresh, Hh. subst h.
  assert (Hne : e <> chat_history bot) by (intros ->; congruence).
  assert (Hne' : e <> uploaded_documents bot) by (intros ->; congruence).
  assert (Hlist : list_items (<[e:=OEntry (turn_of question response)]> (heap bot))
                             (chat_history bot) = items).
  { unfold list_items. by rewrite lookup_insert_ne, Hitems. }
  rewrite Hlist. cbn [fst snd].
  set (items' := if len (items ++ [e]) >? max_history_length
                 then drop 1 (items ++ [e]) else items ++ [e]).
  set (h2 := <[chat_history bot := OList items']>
               (<[e := OEntry (turn_of question response)]> (heap bot))).
  assert (Hread : forall l, l <> chat_history bot ->
            entry_at h2 l
            = entry_at (<[e := OEntry (turn_of question response)]> (heap bot)) l).
  { intros l Hl. unfold entry_at, h2. by rewrite lookup_insert_ne. }
  assert (Hold : Forall (fun l => entry_at h2 l = entry_at (heap bot) l
                                  /\ is_Some (entry_at (heap bot) l)) items).
  { rewrite Forall_forall in Hall |- *. intros l Hl. specialize (Hall l Hl).
    split; [|done].
    assert (l <> chat_history bot).
    { intros ->. destruct Hall as [x Hx]. unfold entry_at in Hx.
      by rewrite Hitems in Hx. }
    rewrite Hread by done. by apply entry_at_insert_fresh. }
  assert (Hnew : entry_at h2 e = Some (turn_of question response)).
  { rewrite Hread by done. unfold entry_at. by rewrite lookup_insert_eq. }
  assert (Hall2 : Forall (fun l => is_Some (entry_at h2 l)) (items ++ [e])).
  { apply Forall_app. split.
    - eapply Forall_impl; [exact Hold|]. intros l [-> H]. exact H.
    - apply Forall_singleton. by rewrite Hnew. }
  assert (Hentries : omap (entry_at h2) (items ++ [e])
                     = history_entries bot ++ [turn_of question response]).
  { rewrite omap_app. simpl. rewrite Hnew. simpl. f_equal.
    unfold history_entries, history, list_items. rewrite Hitems.
    apply list_omap_ext, Forall_Forall2_diag.
    eapply Forall_impl; [exact Hold|]. by intros l [Hl _]. }
  split.
  - split.
    + exists items'. cbn [heap chat_history]. fold h2. split.
      * unfold h2. by rewrite lookup_insert_eq.
      * unfold items'. destruct (len (items ++ [e]) >? max_history_length);
          [|done].
        rewrite <- (take_drop 1 (items ++ [e])) in Hall2.
        by apply Forall_app in Hall2 as [_ ?].
    + exists docs. cbn [heap uploaded_documents]. fold h2. unfold h2.
      rewrite lookup_insert_ne by (intros Heq; rewrite Heq in Hitems; congruence).
      by rewrite lookup_insert_ne.
  - unfold history_entries at 1, history, list_items. cbn [heap chat_history].
    fold h2. unfold h2 at 2. rewrite lookup_insert_eq. fold h2.
    assert (Hcond : (len (items ++ [e]) >? max_history_length)
                    = (max_history_length <? len (history_entries bot) + 1)).
    { rewrite Z.gtb_ltb. f_equal. unfold history, list_items in Hlen.
      rewrite Hitems in Hlen. unfold len. rewrite length_app, Hlen. simpl. lia. }
    unfold items'. rewrite Hcond.
    destruct (max_history_length <? len (history_entries bot) + 1).
    + rewrite omap_drop by done. by rewrite Hentries.
    + exact Hentries.
Qed.

(** A call that keeps the list object of the history and every turn, and
    leaves a dictionary under [uploaded_documents], keeps the history. *)
Lemma frame_history (bot bot' : Bot) :
  well_formed bot ->
  chat_history bot' = chat_history bot ->
  uploaded_documents bot' = uploaded_documents bot ->
  heap bot' !! chat_history bot = heap bot !! chat_history bot ->
  (forall l e, heap bot !! l = Some (OEntry e) -> heap bot' !! l = Some (OEntry e)) ->
  (exists docs, heap bot' !! uploaded_documents bot = Some (ODict docs)) ->
  well_formed bot'
  /\ history bot' = history bot
  /\ history_entries bot' = history_entries bot.
Proof.
  intros [(items & Hitems & Hall) _] Hh Hu Hlist Hturns Hdict.
  assert (Hsame : Forall (fun l => entry_at (heap bot') l = entry_at (heap bot) l)
                         items).
  { eapply Forall_impl; [exact Hall|]. intros l [e He]. unfold entry_at in *.
    destruct (heap bot !! l) as [[| |e'|]|] eqn:Hl; try done.
    by rewrite (Hturns l e' Hl). }
  assert (Hhist : history bot' = history bot).
  { unfold history, list_items. by rewrite Hh, Hlist. }
  split; [|split; [done|]].
  - split.
    + exists items. rewrite Hh, Hlist. split; [done|].
      rewrite Forall_forall in Hall, Hsame |- *. intros l Hl.
      rewrite (Hsame l Hl). by apply Hall.
    + by rewrite Hu.
  - unfold history_entries. rewrite Hhist. unfold history, list_items.
    rewrite Hitems. by apply list_omap_ext, Forall_Forall2_diag.
Qed.

Lemma generate_exam_state (svc : Services) (bot : Bot)
    (exam_config : option Exam.ExamConfig) :
  fst (generate_exam svc bot exam_config) = bot.
Proof.
  unfold generate_exam. cbv zeta.
  repeat match goal with
         | |- context [if ?b then _ else _] => destruct b
         | |- context [match ?x with [] => _ | _ :: _ => _ end] => destruct x
         | |- context [match ?x with inl _ => _ | inr _ => _ end] => destruct x
         end; done.
Qed.

(** The calls that neither append a turn nor clear keep the history. *)
Lemma quiet_call (bot : Bot) (c : call) :
  well_formed bot -> touches_history c = false ->
  well_formed (run bot c)
  /\ history (run bot c) = history bot
  /\ history_entries (run bot c) = history_entries bot.
Proof.
  intros Hwf Hquiet.
  pose proof Hwf as [(items & Hitems & Hall) (docs & Hdocs)].
  destruct c as [processed|svc question|svc cfg| | | |count|]; try done;
    cbn [Chatbot.run].
  - destruct processed as [[doc_id record]|]; [|done].
    unfold upload_pdf.
    pose proof (alloc_spec (ODoc record) (heap bot)) as [Hfresh Hh].
    destruct (alloc (ODoc record) (heap bot)) as [d h]. simpl in Hfresh, Hh.
    subst h.
    assert (d <> chat_history bot) by (intros ->; congruence).
    assert (uploaded_documents bot <> chat_history bot)
      by (intros Heq; rewrite Heq in Hdocs; congruence).
    apply frame_history; try done; cbn [heap].
    + by rewrite !lookup_insert_ne.
    + intros l e Hl.
      rewrite !lookup_insert_ne; [done| |]; intros <-; congruence.
    + eexists. by rewrite lookup_insert_eq.
  - rewrite generate_exam_state. done.
  - pose proof (alloc_spec (OList (history bot)) (heap bot)) as [Hfresh Hh].
    unfold get_chat_history.
    destruct (alloc (OList (history bot)) (heap bot)) as [l h].
    simpl in Hfresh, Hh. subst h. simpl.
    apply frame_history; try done; cbn [heap].
    + rewrite lookup_insert_ne; [done|]. intros ->. congruence.
    + intros l' e Hl. rewrite lookup_insert_ne; [done|]. intros ->. congruence.
    + exists docs. rewrite lookup_insert_ne; [done|]. intros ->. congruence.
  - pose proof (alloc_spec (ODict (dict_items (heap bot) (uploaded_documents bot)))
                           (heap bot)) as [Hfresh Hh].
    unfold get_uploaded_documents.
    destruct (alloc (ODict (dict_items (heap bot) (uploaded_documents bot)))
                    (heap bot)) as [l h].
    simpl in Hfresh, Hh. subst h. simpl.
    apply frame_history; try done; cbn [heap].
    + rewrite lookup_insert_ne; [done|]. intros ->. congruence.
    + intros l' e Hl. rewrite lookup_insert_ne; [done|]. intros ->. congruence.
    + exists docs. rewrite lookup_insert_ne; [done|]. intros ->. congruence.
Qed.

(** Clearing and resetting leave an empty history. *)
Lemma clearing_call (bot : Bot) (c : call) :
  well_formed bot -> c = ClearChatHistory \/ c = ResetSystem ->
  well_formed (run bot c) /\ history_entries (run bot c) = [].
Proof.
  intros [(items & Hitems & Hall) (docs & Hdocs)] Hc.
  assert (Hne : uploaded_documents bot <> chat_history bot)
    by (intros Heq; rewrite Heq in Hdocs; congruence).
  destruct Hc as [-> | ->]; simpl.
  - split.
    + split.
      * exists []. cbn [heap chat_history clear_chat_history].
        by rewrite lookup_insert_eq.
      * exists docs. cbn [heap uploaded_documents clear_chat_history].
        by rewrite lookup_insert_ne.
    + unfold history_entries, history, list_items.
      cbn [heap chat_history clear_chat_history]. by rewrite lookup_insert_eq.
  - split.
    + split.
      * exists []. cbn [heap chat_history reset_system].
        by rewrite lookup_insert_ne, lookup_insert_eq.
      * exists ∅. cbn [heap uploaded_documents reset_system].
        by rewrite lookup_insert_eq.
    + unfold history_entries, history, list_items.
      cbn [heap chat_history reset_system].
      by rewrite lookup_insert_ne, lookup_insert_eq.
Qed.

Lemma init_well_formed : well_formed init.
Proof.
  split.
  - exists []. split; [done|constructor].
  - by exists ∅.
Qed.

Lemma run_well_formed (bot : Bot) (c : call) :
  well_formed bot -> well_formed (run bot c).
Proof.
  intros Hwf. destruct (touches_history c) eqn:Ht.
  - destruct c; try done.
    + apply (ask_question_spec svc bot question Hwf).
    + apply (clearing_call bot ClearChatHistory Hwf). by left.
    + apply (clearing_call bot ResetSystem Hwf). by right.
  - by apply quiet_call.
Qed.

Lemma reachable_well_formed (bot : Bot) : reachable bot -> well_formed bot.
Proof.
  induction 1 as [|bot c _ IH]; [apply init_well_formed|by apply run_well_formed].
Qed.

Lemma reachable_bounded (bot : Bot) :
  0 <= max_history_length -> reachable bot ->
  len (history_entries bot) <= max_history_length.
Proof.
  intros Hmax. induction 1 as [|bot c Hr IH].
  { change (history_entries init) with (@nil Rag.ChatEntry). by rewrite len_nil. }
  pose proof (reachable_well_formed bot Hr) as Hwf.
  destruct (touches_history c) eqn:Ht.
  - destruct c; try done.
    + cbn [Chatbot.run].
      destruct (ask_question_spec svc bot question Hwf) as [_ ->].
      destruct (max_history_length <? len (history_entries bot) + 1) eqn:Hfull.
      * unfold len in *. rewrite length_drop, length_app. simpl. lia.
      * apply Z.ltb_ge in Hfull. rewrite len_app, len_cons, len_nil. lia.
    + destruct (clearing_call bot ClearChatHistory Hwf) as [_ ->]; [by left|].
      by rewrite len_nil.
    + destruct (clearing_call bot ResetSystem Hwf) as [_ ->]; [by right|].
      by rewrite len_nil.
  - destruct (quiet_call bot c Hwf Ht) as (_ & _ & ->). done.
Qed.

(** C8. With a non-negative [max_history_length], in every state a
    chatbot reaches from its construction the history holds at most
    [max_history_length] turns.  A call of [ask_question] appends the new
    turn at the end and, when that makes the history longer than the
    maximum, removes the first, oldest, turn; the history is within the
    bound afterwards.  A call other than [ask_question],
    [clear_chat_history] and [reset_system] leaves the history, its list
    object and its turns, as it was. *)
Theorem chat_history_bounded (bot : Bot) :
  0 <= max_history_length ->
  reachable bot ->
  len (history_entries bot) <= max_history_length
  /\ (forall svc question,
        let bot' := fst (ask_question svc bot question) in
        let turn := turn_of question (snd (ask_question svc bot question)) in
        history_entries bot'
        = (if max_history_length <? len (history_entries bot) + 1
           then drop 1 (history_entries bot ++ [turn])
           else history_entries bot ++ [turn])
        /\ len (history_entries bot') <= max_history_length)
  /\ (forall c, touches_history c = false ->
        history (run bot c) = history bot
        /\ history_entries (run bot c) = history_entries bot).
Proof.
  intros Hmax Hr.
  pose proof (reachable_well_formed bot Hr) as Hwf.
  split; [by apply reachable_bounded|]. split.
  - intros svc question. cbv zeta. split.
    + apply (ask_question_spec svc bot question Hwf).
    + apply (reachable_bounded (run bot (AskQuestion svc question)) Hmax).
      by constructor.
  - intros c Hquiet. by destruct (quiet_call bot c Hwf Hquiet) as (_ & ? & ?).
Qed.

(** C10. [get_chat_history] and [get_uploaded_documents] return a new
    object with the contents of the internal one: whatever a client does
    to the returned list or dictionary, every object that existed before
    the call, the internal history list and the internal dictionary among
    them, is as it was. *)
Theorem getters_return_copies (bot : Bot) (f : obj -> obj) :
  well_formed bot ->
  (let bot1 := fst (get_chat_history bot) in
   let copy := snd (get_chat_history bot) in
   let bot2 := mutate copy f bot1 in
   copy <> chat_history bot
   /\ heap bot1 !! copy = Some (OList (history bot))
   /\ (forall l, is_Some (heap bot !! l) -> heap bot2 !! l = heap bot !! l)
   /\ history bot2 = history bot
   /\ history_entries bot2 = history_entries bot
   /\ dict_items (heap bot2) (uploaded_documents bot2)
      = dict_items (heap bot) (uploaded_documents bot))
  /\ (let bot1 := fst (get_uploaded_documents bot) in
      let copy := snd (get_uploaded_documents bot) in
      let bot2 := mutate copy f bot1 in
      copy <> uploaded_documents bot
      /\ heap bot1 !! copy
         = Some (ODict (dict_items (heap bot) (uploaded_documents bot)))
      /\ (forall l, is_Some (heap bot !! l) -> heap bot2 !! l = heap bot !! l)
      /\ history bot2 = history bot
      /\ history_entries bot2 = history_entries bot
      /\ dict_items (heap bot2) (uploaded_documents bot2)
         = dict_items (heap bot) (uploaded_documents bot)).
Proof.
  intros Hwf.
  pose proof Hwf as [(items & Hitems & Hall) (docs & Hdocs)].
  assert (Hframe : forall (o : obj) (l : loc),
    heap bot !! l = None ->
    let bot2 := mutate l f {| heap := <[ l := o ]> (heap bot);
                              chat_history := chat_history bot;
                              uploaded_documents := uploaded_documents bot |} in
    (forall l', is_Some (heap bot !! l') -> heap bot2 !! l' = heap bot !! l')
    /\ history bot2 = history bot
    /\ history_entries bot2 = history_entries bot
    /\ dict_items (heap bot2) (uploaded_documents bot2)
       = dict_items (heap bot) (uploaded_documents bot)).
  { intros o l Hfresh bot2.
    assert (Hkeep : forall l', is_Some (heap bot !! l') ->
                      heap bot2 !! l' = heap bot !! l').
    { intros l' [x Hx]. unfold bot2, mutate. cbn [heap].
      assert (l <> l') by (intros ->; congruence).
      by rewrite lookup_alter_ne, lookup_insert_ne. }
    split; [exact Hkeep|].
    assert (Hlist : heap bot2 !! chat_history bot = heap bot !! chat_history bot)
      by (apply Hkeep; by rewrite Hitems).
    assert (Hdict : heap bot2 !! uploaded_documents bot
                    = heap bot !! uploaded_documents bot)
      by (apply Hkeep; by rewrite Hdocs).
    destruct (frame_history bot bot2 Hwf) as (_ & Hh & He); try done.
    - intros l' e Hl. rewrite Hkeep; [done|]. by rewrite Hl.
    - exists docs. by rewrite Hdict.
    - split; [done|]. split; [done|].
      unfold dict_items. cbn [uploaded_documents bot2 mutate]. by rewrite Hdict. }
  split.
  - cbv zeta. unfold get_chat_history.
    pose proof (alloc_spec (OList (history bot)) (heap bot)) as [Hfresh Hh].
    destruct (alloc (OList (history bot)) (heap bot)) as [l h].
    simpl in Hfresh, Hh. subst h. cbn [fst snd].
    split; [intros ->; congruence|].
    split; [cbn [heap]; by rewrite lookup_insert_eq|].
    apply (Hframe _ l Hfresh).
  - cbv zeta. unfold get_uploaded_documents.
    pose proof (alloc_spec (ODict (dict_items (heap bot) (uploaded_documents bot)))
                           (heap bot)) as [Hfresh Hh].
    destruct (alloc (ODict (dict_items (heap bot) (uploaded_documents bot)))
                    (heap bot)) as [l h].
    simpl in Hfresh, Hh. subst h. cbn [fst snd].
    split; [intros ->; congruence|].
    split; [cbn [heap]; by rewrite lookup_insert_eq|].
    apply (Hframe _ l Hfresh).
Qed.

End facts.

(** C8, witness: with a maximum of one turn, after two questions the
    history holds one turn. *)
Lemma chat_history_bounded_witness :
  len (history_entries
         (Chatbot.run (U := ascii_tables) Examples.poly_hash 1
            (Chatbot.run (U := ascii_tables) Examples.poly_hash 1 init
               (AskQuestion Examples.sample_services (lit "how are flaws detected")))
            (AskQuestion Examples.sample_services (lit "which probe is used")))) <= 1.
Proof.
  refine (proj1 (chat_history_bounded (U := ascii_tables) Examples.poly_hash 1 _ _ _)).
  - lia.
  - apply reachable_run, reachable_run, reachable_init.
Defined.

(** C10, witness: a chatbot that tracks one document and holds one turn,
    and a client that empties the list and the dictionary it was handed.
    The objects handed out are empty afterwards; the chatbot still holds
    its turn and still tracks its document. *)
Lemma getters_return_copies_witness :
  (heap (mutate (snd (get_chat_history Samples.busy_chatbot)) (fun _ => OList [])
                (fst (get_chat_history Samples.busy_chatbot)))
     !! snd (get_chat_history Samples.busy_chatbot) = Some (OList [])
   /\ history_entries
        (mutate (snd (get_chat_history Samples.busy_chatbot)) (fun _ => OList [])
                (fst (get_chat_history Samples.busy_chatbot)))
      = [ {| Rag.chat_question := lit "how are flaws detected";
             Rag.chat_answer :=
               lit "I couldn't find relevant information in your uploaded documents to answer this question. Please make sure you've uploaded relevant materials or try rephrasing your question.";
             Rag.chat_sources := [];
             Rag.chat_has_context := false |} ])
  /\ (heap (mutate (snd (get_uploaded_documents Samples.busy_chatbot))
                   (fun _ => ODict ∅)
                   (fst (get_uploaded_documents Samples.busy_chatbot)))
        !! snd (get_uploaded_documents Samples.busy_chatbot) = Some (ODict ∅)
      /\ dom (dict_items
                (heap (mutate (snd (get_uploaded_documents Samples.busy_chatbot))
                              (fun _ => ODict ∅)
                              (fst (get_uploaded_documents Samples.busy_chatbot))))
                (uploaded_documents
                   (mutate (snd (get_uploaded_documents Samples.busy_chatbot))
                           (fun _ => ODict ∅)
                           (fst (get_uploaded_documents Samples.busy_chatbot)))))
         = {[ lit "ndt" ]}).
Proof.
  assert (Hwf : well_formed Samples.busy_chatbot).
  { apply (reachable_well_formed (U := ascii_tables) Examples.poly_hash 10).
    apply reachable_run, reachable_run, reachable_init. }
  split.
  - destruct (getters_return_copies Samples.busy_chatbot (fun _ => OList []) Hwf)
      as [Hlist _].
    cbv zeta in Hlist. destruct Hlist as (_ & _ & _ & _ & Hentries & _).
    split; [vm_compute; reflexivity|].
    rewrite Hentries. vm_compute. reflexivity.
  - destruct (getters_return_copies Samples.busy_chatbot (fun _ => ODict ∅) Hwf)
      as [_ Hdict].
    cbv zeta in Hdict. destruct Hdict as (_ & _ & _ & _ & _ & Hdocs).
    split; [vm_compute; reflexivity|].
    rewrite Hdocs. apply (bool_decide_unpack _). vm_compute. exact I.
Defined.

End ChatbotFacts.

(* ===================================================================== *)
(** * Further facts about strings                                        *)
(* ===================================================================== *)

Module StringFacts.

Import PyFacts.

(** ** Skipping and stripping *)

Lemma skip_while_head {A} (f : A -> bool) (s : list A) (x : A) (t : list A) :
  skip_while f s = x :: t -> f x = false.
Proof.
  induction s as [|c s IH]; simpl; [done|].
  destruct (f c) eqn:Hc; [done|]. intros [= -> _]. done.
Qed.

Lemma skip_while_stop {A} (f : A -> bool) (x : A) (t : list A) :
  f x = false -> skip_while f (x :: t) = x :: t.
Proof. intros Hx. simpl. by rewrite Hx. Qed.

Lemma skip_while_snoc {A} (f : A -> bool) (l : list A) (x : A) :
  f x = false -> skip_while f (l ++ [x]) = skip_while f l ++ [x].
Proof.
  intros Hx. induction l as [|c l IH]; simpl; [by rewrite Hx|].
  by destruct (f c).
Qed.

Lemma Forall_skip_while {A} (P : A -> Prop) (f : A -> bool) (s : list A) :
  Forall P s -> Forall P (skip_while f s).
Proof.
  induction 1 as [|c s Hc Hs IH]; simpl; [done|].
  destruct (f c); [done|by constructor].
Qed.

Section unicode.

Context `{U : Unicode}.

(** A stripped string is empty, or starts and ends with a character that
    is not white space. *)
Lemma strip_ends (s : str) :
  strip s = []
  \/ exists x y, head (strip s) = Some x /\ last (strip s) = Some y
                 /\ isspace x = false /\ isspace y = false.
Proof.
  unfold strip, lstrip.
  destruct (skip_while isspace s) as [|x u] eqn:Hu; [by left|].
  right. pose proof (skip_while_head _ _ _ _ Hu) as Hx.
  simpl rev. rewrite (skip_while_snoc _ _ _ Hx), rev_app_distr. simpl.
  exists x.
  destruct (skip_while isspace (rev u)) as [|y w] eqn:Hw.
  - exists x. done.
  - exists y. pose proof (skip_while_head _ _ _ _ Hw) as Hy.
    simpl. rewrite last_cons, last_snoc. done.
Qed.

Lemma strip_fixed (s : str) (x y : char) :
  head s = Some x -> last s = Some y ->
  isspace x = false -> isspace y = false ->
  strip s = s.
Proof.
  intros Hhead Hlast Hx Hy. unfold strip, lstrip.
  destruct s as [|c s]; [done|]. injection Hhead as ->.
  rewrite (skip_while_stop _ _ _ Hx).
  revert Hlast. generalize (x :: s). clear s. intros l Hlast.
  destruct l as [|d l _] using rev_ind; [done|].
  rewrite last_snoc in Hlast. injection Hlast as ->.
  rewrite rev_app_distr. change (rev [y] ++ rev l) with (y :: rev l).
  rewrite (skip_while_stop _ _ _ Hy).
  change (y :: rev l) with (rev [y] ++ rev l).
  by rewrite <- rev_app_distr, rev_involutive.
Qed.

Lemma strip_idem (s : str) : strip (strip s) = strip s.
Proof.
  destruct (strip_ends s) as [->|(x & y & Hhead & Hlast & Hx & Hy)]; [done|].
  by apply (strip_fixed _ x y).
Qed.

Lemma Forall_strip (P : char -> Prop) (s : str) :
  Forall P s -> Forall P (strip s).
Proof.
  intros Hs. unfold strip, lstrip.
  apply Forall_rev, Forall_skip_while, Forall_rev, Forall_skip_while, Hs.
Qed.

End unicode.

(** ** Prefixes and suffixes *)

Lemma startswith_app (p s : str) : startswith p (p ++ s) = true.
Proof.
  induction p as [|a p IH]; [done|].
  simpl. by rewrite N.eqb_refl, IH.
Qed.

Lemma endswith_app (p s : str) : endswith p (s ++ p) = true.
Proof. unfold endswith. rewrite rev_app_distr. apply startswith_app. Qed.

(** ** Joining *)

Lemma join_cons (sep p q : str) (ps : list str) :
  join sep (p :: q :: ps) = p ++ sep ++ join sep (q :: ps).
Proof. done. Qed.

Lemma Forall_join (P : char -> Prop) (sep : str) (parts : list str) :
  Forall P sep -> Forall (Forall P) parts -> Forall P (join sep parts).
Proof.
  intros Hsep. induction 1 as [|p ps Hp Hps IH]; [done|].
  destruct ps as [|q ps]; [done|].
  rewrite join_cons. apply Forall_app. split; [done|].
  apply Forall_app. by split.
Qed.

Lemma join_nil_inv (sep : str) (parts : list str) :
  Forall (fun p => p <> []) parts -> join sep parts = [] -> parts = [].
Proof.
  intros Hne Hjoin. destruct Hne as [|p ps Hp Hps]; [done|].
  destruct ps as [|q ps]; [done|].
  rewrite join_cons in Hjoin. by apply app_eq_nil in Hjoin as [? _].
Qed.

Lemma join_head (sep : str) (x : char) (p : str) (ps : list str) :
  head (join sep ((x :: p) :: ps)) = Some x.
Proof. by destruct ps. Qed.

Lemma join_last (sep : str) (parts : list str) (p : str) (y : char) :
  last parts = Some p -> last p = Some y -> last (join sep parts) = Some y.
Proof.
  induction parts as [|q [|r ps] IH]; intros Hp Hy; [done| |].
  - injection Hp as ->. done.
  - rewrite join_cons, !last_app.
    rewrite last_cons_cons in Hp. by rewrite (IH Hp Hy).
Qed.

(** ** Splitting *)

Lemma Forall_split_go (P : char -> Prop) (fuel : nat) (sep cur s : str) :
  Forall P cur -> Forall P s -> Forall (Forall P) (split_go fuel sep cur s).
Proof.
  revert cur s. induction fuel as [|fuel IH]; intros cur s Hcur Hs; simpl.
  - constructor; [|done]. apply Forall_app. split; [by apply Forall_rev|done].
  - destruct s as [|c s']; [by constructor; [apply Forall_rev|]|].
    destruct (startswith sep (c :: s')).
    + constructor; [by apply Forall_rev|].
      apply IH; [done|]. by apply Forall_drop.
    + apply Forall_cons in Hs as [Hc Hs]. apply IH; [by constructor|done].
Qed.

Lemma Forall_split (P : char -> Prop) (sep s : str) :
  Forall P s -> Forall (Forall P) (split sep s).
Proof. intros Hs. by apply Forall_split_go. Qed.

(** More fuel than the length of the string changes nothing. *)
Lemma split_go_fuel (fuel1 fuel2 : nat) (sep cur s : str) :
  sep <> [] ->
  (length s < fuel1)%nat -> (length s < fuel2)%nat ->
  split_go fuel1 sep cur s = split_go fuel2 sep cur s.
Proof.
  intros Hsep. revert fuel2 cur s.
  induction fuel1 as [|fuel1 IH]; intros fuel2 cur s H1 H2; [lia|].
  destruct fuel2 as [|fuel2]; [lia|]. simpl.
  destruct s as [|c s']; [done|].
  destruct (startswith sep (c :: s')).
  - f_equal. destruct sep as [|a sep]; [done|].
    simpl in *. apply IH; rewrite length_drop; lia.
  - simpl in *. apply IH; lia.
Qed.

Section backslash.

(** The separator the context is split at: a backslash and the letter
    n.  A line without a backslash is cut off whole. *)
Abbreviation sep := (lit "\n").

Lemma split_go_line (fuel : nat) (cur line : str) :
  92%N ∉ line -> (length line < fuel)%nat ->
  split_go fuel sep cur line = [rev cur ++ line].
Proof.
  revert fuel cur. induction line as [|c line IH]; intros fuel cur Hno Hfuel.
  - destruct fuel; [simpl in Hfuel; lia|]. simpl. by rewrite app_nil_r.
  - destruct fuel as [|fuel]; [simpl in Hfuel; lia|].
    apply not_elem_of_cons in Hno as [Hc Hno].
    cbn [split_go].
    replace (startswith sep (c :: line)) with false.
    2:{ symmetry. cbn. apply andb_false_intro1.
        apply N.eqb_neq. done. }
    rewrite IH; [|done|simpl in Hfuel; lia].
    simpl. by rewrite <- app_assoc.
Qed.

Lemma split_go_cut (fuel : nat) (cur line rest : str) :
  92%N ∉ line -> (length (line ++ sep ++ rest) < fuel)%nat ->
  split_go fuel sep cur (line ++ sep ++ rest)
  = (rev cur ++ line) :: split_go (S (length rest)) sep [] rest.
Proof.
  revert fuel cur. induction line as [|c line IH]; intros fuel cur Hno Hfuel.
  - destruct fuel as [|fuel]; [simpl in Hfuel; lia|].
    rewrite app_nil_r.
    change ([] ++ sep ++ rest) with (92%N :: 110%N :: rest) in *.
    cbn [split_go].
    change (startswith sep (92%N :: 110%N :: rest)) with true.
    change (drop (length sep) (92%N :: 110%N :: rest)) with rest.
    cbn iota. f_equal.
    apply (split_go_fuel fuel (S (length rest)));
      [done|simpl in Hfuel; lia|lia].
  - destruct fuel as [|fuel]; [simpl in Hfuel; lia|].
    apply not_elem_of_cons in Hno as [Hc Hno].
    rewrite <- app_comm_cons in Hfuel |- *. cbn [length] in Hfuel.
    cbn [split_go].
    replace (startswith sep (c :: line ++ sep ++ rest)) with false.
    2:{ symmetry. cbn. apply andb_false_intro1.
        apply N.eqb_neq. done. }
    rewrite IH; [|done|lia].
    simpl. by rewrite <- app_assoc.
Qed.

Lemma split_line (line : str) :
  92%N ∉ line -> split sep line = [line].
Proof. intros Hno. unfold split. rewrite split_go_line; [done..|lia]. Qed.

Lemma split_cut (line rest : str) :
  92%N ∉ line -> split sep (line ++ sep ++ rest) = line :: split sep rest.
Proof. intros Hno. unfold split. rewrite split_go_cut; [done..|lia]. Qed.

End backslash.

Lemma not_elem_of_rev {A} (x : A) (l : list A) : x ∉ l -> x ∉ rev l.
Proof.
  intros Hno Hin. apply Hno, list_elem_of_In, in_rev.
  by apply list_elem_of_In.
Qed.

Section character.

(** Splitting at a separator of one character [c]: the pieces hold no
    [c], and pieces without [c] joined by [c] split back into
    themselves. *)
Variable c : char.

Lemma startswith_character (x : char) (s : str) :
  startswith [c] (x :: s) = (c =? x)%N.
Proof. cbn. apply andb_true_r. Qed.

Lemma split_go_character_free (fuel : nat) (cur s : str) :
  c ∉ cur -> (length s < fuel)%nat ->
  Forall (fun piece => c ∉ piece) (split_go fuel [c] cur s).
Proof.
  revert cur s. induction fuel as [|fuel IH]; intros cur s Hcur Hfuel; [lia|].
  cbn [split_go]. destruct s as [|x s].
  - apply Forall_cons. split; [|apply Forall_nil_2].
    by apply not_elem_of_rev.
  - rewrite startswith_character. cbn [length] in Hfuel.
    destruct (c =? x)%N eqn:Hx.
    + apply Forall_cons. split.
      * by apply not_elem_of_rev.
      * apply IH; [apply not_elem_of_nil|]. cbn [length drop]. rewrite drop_0. lia.
    + apply N.eqb_neq in Hx. apply IH; [|lia].
      apply not_elem_of_cons. by split.
Qed.

Lemma split_character_free (s : str) :
  Forall (fun piece => c ∉ piece) (split [c] s).
Proof. apply split_go_character_free; [apply not_elem_of_nil|lia]. Qed.

Lemma split_go_character_line (fuel : nat) (cur line : str) :
  c ∉ line -> (length line < fuel)%nat ->
  split_go fuel [c] cur line = [rev cur ++ line].
Proof.
  revert fuel cur. induction line as [|x line IH]; intros fuel cur Hno Hfuel.
  - destruct fuel; [simpl in Hfuel; lia|]. simpl. by rewrite app_nil_r.
  - destruct fuel as [|fuel]; [simpl in Hfuel; lia|].
    apply not_elem_of_cons in Hno as [Hx Hno].
    cbn [split_go]. rewrite startswith_character.
    replace (c =? x)%N with false by (symmetry; by apply N.eqb_neq).
    rewrite IH; [|done|simpl in Hfuel; lia].
    simpl. by rewrite <- app_assoc.
Qed.

Lemma split_go_character_cut (fuel : nat) (cur line rest : str) :
  c ∉ line -> (length (line ++ c :: rest) < fuel)%nat ->
  split_go fuel [c] cur (line ++ c :: rest)
  = (rev cur ++ line) :: split_go (S (length rest)) [c] [] rest.
Proof.
  revert fuel cur. induction line as [|x line IH]; intros fuel cur Hno Hfuel.
  - destruct fuel as [|fuel]; [simpl in Hfuel; lia|].
    rewrite app_nil_r. cbn [app split_go]. rewrite startswith_character.
    rewrite N.eqb_refl. cbn [length drop]. rewrite drop_0. f_equal.
    apply (split_go_fuel fuel (S (length rest))); [done|simpl in Hfuel; lia|lia].
  - destruct fuel as [|fuel]; [simpl in Hfuel; lia|].
    apply not_elem_of_cons in Hno as [Hx Hno].
    rewrite <- app_comm_cons in Hfuel |- *. cbn [length] in Hfuel.
    cbn [split_go]. rewrite startswith_character.
    replace (c =? x)%N with false by (symmetry; by apply N.eqb_neq).
    rewrite IH; [|done|lia].
    simpl. by rewrite <- app_assoc.
Qed.

Lemma split_join_character (pieces : list str) :
  pieces <> [] ->
  Forall (fun piece => c ∉ piece) pieces ->
  split [c] (join [c] pieces) = pieces.
Proof.
  intros Hsome Hfree. induction Hfree as [|piece rest Hpiece Hrest IH]; [done|].
  destruct rest as [|next rest].
  - cbn [join]. unfold split. rewrite split_go_character_line; [done..|lia].
  - rewrite join_cons. cbn [app]. unfold split.
    rewrite split_go_character_cut; [|done|lia].
    cbn [rev app]. f_equal. by apply IH.
Qed.

End character.

End StringFacts.

(* ===================================================================== *)
(** * Facts about cleaning and chunk metadata                            *)
(* ===================================================================== *)

Module CleanFacts.

Import PyFacts StringFacts Chunker Vocabulary.

Section facts.

Context `{U : Unicode}.

(** A substitution brings in only characters of the replacement. *)
Lemma Forall_re_sub_go (P : char -> Prop) (matcher : str -> option nat)
    (repl : str) (skip : nat) (s : str) :
  Forall P repl -> Forall P s -> Forall P (re_sub_go matcher repl skip s).
Proof.
  intros Hrepl Hs. revert skip.
  induction Hs as [|c s Hc Hs IH]; intros skip; cbn [re_sub_go]; [done|].
  destruct skip as [|k]; [|apply IH].
  destruct (matcher (c :: s)) as [[|n]|]; [by constructor| |by constructor].
  apply Forall_app. split; [done|apply IH].
Qed.

(** After [[ \t]+] is replaced by a space no tab is left. *)
Lemma blanks_leave_no_tab (skip : nat) (s : str) :
  Forall (fun c => c <> 9%N) (re_sub_go match_blanks [32%N] skip s).
Proof.
  revert skip. induction s as [|c s IH]; intros skip; cbn [re_sub_go]; [done|].
  destruct skip as [|k]; [|apply IH].
  unfold match_blanks. cbn [span].
  destruct ((c =? 32) || (c =? 9))%N eqn:Hc.
  - match goal with
    | |- context [span ?f s] => destruct (span f s) as [a b]
    end.
    cbn [fst length].
    constructor; [done|apply IH].
  - cbn [fst]. constructor; [|apply IH].
    apply orb_false_elim in Hc as [_ Hc]. by apply N.eqb_neq.
Qed.

Lemma replace_char_plain (c : char) :
  c <> 9%N -> Forall (fun d => d ∉ typographic) (replace_char c).
Proof.
  intros Htab. unfold replace_char, typographic.
  repeat match goal with
         | |- context [(c =? ?n)%N] =>
             let H := fresh "Hc" in
             destruct (c =? n)%N eqn:H;
             [clear; repeat constructor; not_listed|apply N.eqb_neq in H]
         end.
  repeat constructor. not_listed.
Qed.

Lemma Forall_clean_lines (P : char -> Prop) (lines : list str) :
  Forall (Forall P) lines -> Forall (Forall P) (clean_lines lines).
Proof.
  induction 1 as [|line rest Hl Hrest IH]; cbn [clean_lines]; [done|].
  repeat match goal with |- context [if ?b then _ else _] => destruct b end;
    try done.
  constructor; [by apply Forall_strip|done].
Qed.

(** X1. The text [clean_text] returns holds no tab, form feed, no-break
    space, curly apostrophe, curly quote, en dash or em dash, whatever
    text it is given: the tab goes with the runs of blanks, the others
    with the chain of replacements, and no later step brings one back. *)
Theorem clean_text_typographic (text : str) :
  Forall (fun c => c ∉ typographic) (clean_text text).
Proof.
  destruct text as [|c0 text]; [constructor|].
  unfold clean_text.
  apply Forall_strip, Forall_join; [repeat constructor; unfold typographic; not_listed|].
  apply Forall_clean_lines, Forall_split, Forall_bind.
  eapply Forall_impl.
  - apply (Forall_re_sub_go (fun c => c <> 9%N));
      [by repeat constructor|apply blanks_leave_no_tab].
  - intros c Hc. by apply replace_char_plain.
Qed.

(** The loop over the lines keeps clean lines only. *)
Lemma clean_lines_quality (lines : list str) :
  Forall clean_line (clean_lines lines).
Proof.
  induction lines as [|line rest IH]; cbn [clean_lines]; [done|].
  destruct (len (strip line) <? 5) eqn:Hshort; [done|].
  destruct (forallb isdecimal (strip line)) eqn:Hdigits; [done|].
  destruct ((10 * len (List.filter isalpha (strip line)) <? 3 * len (strip line))
            && (len (strip line) >? 10)) eqn:Hletters; [done|].
  constructor; [|done].
  apply Z.ltb_ge in Hshort.
  split; [apply strip_idem|]. split; [done|]. split; [done|].
  intros Hlong.
  apply andb_false_iff in Hletters as [Hletters|Hletters].
  - by apply Z.ltb_ge in Hletters.
  - rewrite Z.gtb_ltb in Hletters. apply Z.ltb_ge in Hletters. lia.
Qed.

(** Clean lines joined by line feeds have no white space to strip. *)
Lemma join_clean_lines_stripped (lines : list str) :
  Forall clean_line lines ->
  strip (join [10%N] lines) = join [10%N] lines.
Proof.
  intros Hlines.
  destruct lines as [|first rest]; [done|].
  assert (Hends : forall line, clean_line line ->
            exists x y, head line = Some x /\ last line = Some y
                        /\ isspace x = false /\ isspace y = false).
  { intros line (Hfix & Hlen & _).
    destruct (strip_ends line) as [Hnil|Hends].
    - rewrite Hfix in Hnil. subst line. by rewrite len_nil in Hlen.
    - by rewrite Hfix in Hends. }
  destruct (last (first :: rest)) as [final|] eqn:Hfinal.
  2:{ by apply last_None in Hfinal. }
  assert (Hclean_final : clean_line final).
  { eapply Forall_forall; [exact Hlines|]. by apply last_Some_elem_of. }
  apply Forall_cons in Hlines as [Hclean_first _].
  destruct (Hends _ Hclean_first) as (x & _ & Hx & _ & Hxs & _).
  destruct (Hends _ Hclean_final) as (_ & y & _ & Hy & _ & Hys).
  destruct first as [|x' first]; [done|]. injection Hx as ->.
  apply (strip_fixed _ x y); [apply join_head|by eapply join_last|done..].
Qed.

(** The loop over the lines brings in no line feed. *)
Lemma clean_lines_character_free (c : char) (lines : list str) :
  Forall (fun line => c ∉ line) lines ->
  Forall (fun line => c ∉ line) (clean_lines lines).
Proof.
  intros Hlines.
  assert (Hchars : Forall (Forall (fun d => d <> c)) (clean_lines lines)).
  { apply Forall_clean_lines. eapply Forall_impl; [exact Hlines|].
    intros line Hline. apply Forall_forall. by intros d Hd ->. }
  eapply Forall_impl; [exact Hchars|].
  intros line Hline Hin.
  by apply (proj1 (Forall_forall _ _) Hline c Hin).
Qed.

(** X2. The text [clean_text] returns has no white space at either end,
    and it is a sequence of lines joined by single line feeds: every line
    is free of line feeds, stripped, of five characters or more, not made
    of digits only and, when longer than ten characters, with letters for
    three tenths of it or more; so the text has no blank line, and
    splitting it at its line feeds gives these lines back. *)
Theorem clean_text_lines (text : str) :
  strip (clean_text text) = clean_text text
  /\ exists lines,
       clean_text text = join [10%N] lines
       /\ Forall (fun line =>
                    (10%N ∉ line)
                    /\ strip line = line
                    /\ 5 <= len line
                    /\ forallb isdecimal line = false
                    /\ (10 < len line ->
                        3 * len line <= 10 * len (List.filter isalpha line)))
                 lines
       /\ (clean_text text <> [] -> split [10%N] (clean_text text) = lines).
Proof.
  destruct text as [|c0 text].
  { split; [done|]. exists []. split; [done|]. split; [done|]. by intros []. }
  unfold clean_text.
  match goal with
  | |- context [clean_lines ?ls] => set (lines := clean_lines ls)
  end.
  assert (Hquality : Forall clean_line lines) by apply clean_lines_quality.
  assert (Hfree : Forall (fun line => 10%N ∉ line) lines)
    by apply clean_lines_character_free, split_character_free.
  rewrite (join_clean_lines_stripped lines Hquality).
  split; [by apply join_clean_lines_stripped|].
  exists lines. split; [done|]. split.
  - apply Forall_forall. intros line Hline. split.
    + by apply (proj1 (Forall_forall _ _) Hfree).
    + by apply (proj1 (Forall_forall (fun line => clean_line line) _) Hquality).
  - intros Hsome. apply split_join_character; [|done].
    by intros Hnil; rewrite Hnil in Hsome.
Qed.

Variable split_text : str -> list str.

(** The chunks returned carry the metadata of the caller under every key
    but the four the loop writes. *)
Lemma chunk_text_metadata_frame (text : str) (meta : option (gmap str mval))
    (chunk : Document) (key : str) :
  chunk ∈ chunk_text split_text text meta ->
  key ∉ tag_keys ->
  metadata chunk !! key = default ∅ meta !! key.
Proof.
  intros Hin Hkey.
  destruct (decide (text = [])) as [->|Hne]; [by apply elem_of_nil in Hin|].
  rewrite (ChunkerFacts.chunk_text_unfold split_text _ meta Hne) in Hin.
  apply elem_of_lookup_imap in Hin as (i & c & -> & Hc).
  apply list_elem_of_lookup_2 in Hc.
  unfold kept in Hc. apply list_elem_of_In, filter_In in Hc as [Hc _].
  apply list_elem_of_In, list_elem_of_fmap in Hc as (w & -> & _).
  unfold tag_keys in Hkey.
  apply not_elem_of_cons in Hkey as [H1 Hkey].
  apply not_elem_of_cons in Hkey as [H2 Hkey].
  apply not_elem_of_cons in Hkey as [H3 Hkey].
  apply not_elem_of_cons in Hkey as [H4 _].
  unfold tag. cbn [metadata page_content].
  by rewrite !lookup_insert_ne by done.
Qed.

(** X3. A chunk [chunk_text] returns keeps, under every key other than
    [chunk_id], [chunk_count], [source_type] and [content_length], exactly
    what the caller's metadata holds there (nothing when the caller gave
    none), and its [source_type] is ['pdf']. *)
Theorem chunk_text_keeps_metadata (text : str) (meta : option (gmap str mval))
    (chunk : Document) (key : str) :
  chunk ∈ chunk_text split_text text meta ->
  key ∉ tag_keys ->
  metadata chunk !! key = default ∅ meta !! key
  /\ metadata chunk !! lit "source_type" = Some (MStr (lit "pdf")).
Proof.
  intros Hin Hkey. split; [by apply (chunk_text_metadata_frame text meta)|].
  destruct (decide (text = [])) as [->|Hne]; [by apply elem_of_nil in Hin|].
  rewrite (ChunkerFacts.chunk_text_unfold split_text _ meta Hne) in Hin.
  apply elem_of_lookup_imap in Hin as (i & c & -> & Hc).
  unfold tag. cbn [metadata].
  rewrite lookup_insert_ne by (vm_compute; discriminate).
  apply lookup_insert_eq.
Qed.

End facts.

(** X3, witness: the second chunk of the sample text keeps the caller's
    [filename]. *)
Lemma chunk_text_keeps_metadata_witness :
  exists chunk,
    Chunker.chunk_text (U := ascii_tables) Examples.sample_split_text
      Examples.sample_text
      (Some {[ lit "filename" := MStr (lit "ndt.pdf") ]}) !! 1%nat = Some chunk
    /\ metadata chunk !! lit "filename" = Some (MStr (lit "ndt.pdf"))
    /\ metadata chunk !! lit "source_type" = Some (MStr (lit "pdf")).
Proof.
  destruct (Chunker.chunk_text (U := ascii_tables) Examples.sample_split_text
              Examples.sample_text
              (Some {[ lit "filename" := MStr (lit "ndt.pdf") ]}) !! 1%nat)
    as [chunk|] eqn:Hchunk.
  - exists chunk. split; [reflexivity|].
    assert (Hkey : lit "filename" ∉ tag_keys).
    { unfold tag_keys. not_listed. }
    destruct (chunk_text_keeps_metadata (U := ascii_tables)
                Examples.sample_split_text Examples.sample_text
                (Some {[ lit "filename" := MStr (lit "ndt.pdf") ]})
                chunk (lit "filename")
                (list_elem_of_lookup_2 _ _ _ Hchunk) Hkey)
      as [Hframe Htype].
    split; [|exact Htype].
    rewrite Hframe. reflexivity.
  - vm_compute in Hchunk. discriminate Hchunk.
Defined.

End CleanFacts.

(* ===================================================================== *)
(** * Facts about extraction and the processing pipeline                 *)
(* ===================================================================== *)

Module ExtractionFacts.

Import PyFacts StringFacts Vocabulary Extraction.

Section facts.

Context `{U : Unicode}.

(** The loop appends to the text it has. *)
Lemma pages_loop_text (pages : list (option str)) (page_num : Z) (text : str) :
  pages_loop pages page_num text = text ++ pages_loop pages page_num [].
Proof.
  revert page_num text.
  induction pages as [|page rest IH]; intros page_num text; cbn [pages_loop].
  - by rewrite app_nil_r.
  - destruct page as [page_text|]; [|apply IH].
    destruct (strip page_text); [apply IH|].
    rewrite IH, (IH _ ([] ++ _)). rewrite !app_nil_l. by rewrite <- !app_assoc.
Qed.

Lemma pages_loop_app (before after : list (option str)) (page_num : Z) :
  pages_loop (before ++ after) page_num []
  = pages_loop before page_num []
    ++ pages_loop after (page_num + len before) [].
Proof.
  revert page_num.
  induction before as [|page rest IH]; intros page_num.
  - rewrite len_nil, Z.add_0_r. done.
  - rewrite len_cons. rewrite <- app_comm_cons. cbn [pages_loop].
    replace (page_num + (1 + len rest)) with (page_num + 1 + len rest) by lia.
    destruct page as [page_text|]; [|apply IH].
    destruct (strip page_text); [apply IH|].
    rewrite pages_loop_text, (pages_loop_text rest), IH.
    rewrite !app_nil_l. by rewrite <- !app_assoc.
Qed.

(** X4. In the text an extractor returns, a page that has text other
    than white space appears as a block headed by its position in the
    document counted from 1, pages that were skipped included, between
    the text of the pages before it and the text of the pages after
    it. *)
Theorem extract_text_page_numbers (read : reader) (pdf_path : str)
    (pages : list (option str)) (i : nat) (page_text : str) :
  read pdf_path = Some pages ->
  pages !! i = Some (Some page_text) ->
  strip page_text <> [] ->
  extract_text read pdf_path
  = pages_loop (take i pages) 0 []
    ++ page_block (Z.of_nat i) page_text
    ++ pages_loop (drop (S i) pages) (Z.of_nat i + 1) [].
Proof.
  intros Hread Hpage Htext. unfold extract_text. rewrite Hread.
  rewrite <- (take_drop_middle pages i (Some page_text) Hpage) at 1.
  rewrite pages_loop_app. f_equal.
  assert (Hlen : len (take i pages) = Z.of_nat i).
  { unfold len. rewrite length_take. apply lookup_lt_Some in Hpage. lia. }
  rewrite Hlen, Z.add_0_l. cbn [pages_loop].
  destruct (strip page_text); [done|].
  by rewrite pages_loop_text.
Qed.

(** A page that adds nothing: its extraction raises, or its text is
    white space only. *)
Lemma pages_loop_blank (pages : list (option str)) (page_num : Z) :
  pages_loop pages page_num [] = []
  <-> Forall (fun page => forall page_text,
                page = Some page_text -> strip page_text = []) pages.
Proof.
  revert page_num.
  induction pages as [|page rest IH]; intros page_num; cbn [pages_loop].
  - split; [by constructor|done].
  - destruct page as [page_text|].
    + destruct (strip page_text) as [|c s] eqn:Hstrip.
      * rewrite IH. split.
        -- intros Hrest. constructor; [by intros ? [= <-]|done].
        -- by intros [_ Hrest]%Forall_cons.
      * rewrite pages_loop_text. split.
        -- intros Hnil. apply app_eq_nil in Hnil as [Hnil _].
           apply app_eq_nil in Hnil as [_ Hnil]. discriminate Hnil.
        -- intros [Hblank _]%Forall_cons.
           specialize (Hblank _ eq_refl). congruence.
    + rewrite IH. split.
      * intros Hrest. by constructor.
      * by intros [_ Hrest]%Forall_cons.
Qed.

(** X5. An extractor returns the empty string exactly when the library
    cannot read the file or no page of it has text other than white
    space. *)
Theorem extract_text_empty (read : reader) (pdf_path : str) :
  extract_text read pdf_path = []
  <-> match read pdf_path with
      | None => True
      | Some pages =>
          Forall (fun page => forall page_text,
                    page = Some page_text -> strip page_text = []) pages
      end.
Proof.
  unfold extract_text. destruct (read pdf_path) as [pages|]; [|done].
  apply pages_loop_blank.
Qed.

Lemma methods_loop_find (methods : list (str -> str)) (pdf_path : str) :
  methods_loop methods pdf_path
  = default [] (List.find reasonable ((fun f => f pdf_path) <$> methods)).
Proof.
  induction methods as [|f rest IH]; [done|].
  cbn [methods_loop]. rewrite fmap_cons. cbn [List.find].
  by destruct (reasonable (f pdf_path)).
Qed.

Lemma find_reasonable (texts : list str) :
  default [] (List.find reasonable texts) = []
  \/ 100 < len (strip (default [] (List.find reasonable texts))).
Proof.
  destruct (List.find reasonable texts) as [text|] eqn:Hfind; [|by left].
  apply find_some in Hfind as [_ Hreasonable]. right. simpl.
  unfold reasonable in Hreasonable. destruct text; [done|].
  by apply Z.gtb_lt in Hreasonable.
Qed.

(** X6. In the automatic mode [extract_text_from_pdf] returns, for a
    file that exists, the first text among those of PyMuPDF, pdfplumber
    and PyPDF2, in this order, that has more than 100 characters once
    stripped, and the empty string when none has or the file is missing;
    so a non-empty result always has more than 100 stripped
    characters. *)
Theorem extract_text_auto (lib : PdfLibraries) (pdf_path : str) :
  extract_text_from_pdf lib pdf_path (lit "auto")
  = (if path_exists lib pdf_path
     then default []
            (List.find reasonable
               [ extract_text_pymupdf lib pdf_path;
                 extract_text_pdfplumber lib pdf_path;
                 extract_text_pypdf2 lib pdf_path ])
     else [])
  /\ (extract_text_from_pdf lib pdf_path (lit "auto") = []
      \/ 100 < len (strip (extract_text_from_pdf lib pdf_path (lit "auto")))).
Proof.
  unfold extract_text_from_pdf.
  destruct (path_exists lib pdf_path); cbn [negb]; [|by split; [|left]].
  unfold str_eqb at 1. rewrite bool_decide_eq_true_2 by done.
  rewrite methods_loop_find. split; [done|]. apply find_reasonable.
Qed.

Variable split_text : str -> list str.

(** The derived metadata holds the file name under [filename]. *)
Lemma file_metadata_filename (lib : PdfLibraries) (pdf_path text : str) :
  file_metadata lib pdf_path text !! lit "filename"
  = Some (MStr (path_name lib pdf_path)).
Proof.
  unfold file_metadata.
  assert (Hbase :
    (<[ lit "word_count" := MInt (word_count text) ]>
     (<[ lit "character_count" := MInt (len text) ]>
     (<[ lit "file_type" := MStr (lit "pdf") ]>
     (<[ lit "filename" := MStr (path_name lib pdf_path) ]>
     (<[ lit "source" := MStr pdf_path ]> (∅ : gmap str mval))))))
      !! lit "filename" = Some (MStr (path_name lib pdf_path))).
  { rewrite !lookup_insert_ne by (vm_compute; discriminate).
    apply lookup_insert_eq. }
  destruct (get_pdf_info lib pdf_path) as [|name size count pdf_meta]; [done|].
  rewrite !lookup_insert_ne by (vm_compute; discriminate).
  revert Hbase. generalize
    (<[ lit "word_count" := MInt (word_count text) ]>
     (<[ lit "character_count" := MInt (len text) ]>
     (<[ lit "file_type" := MStr (lit "pdf") ]>
     (<[ lit "filename" := MStr (path_name lib pdf_path) ]>
     (<[ lit "source" := MStr pdf_path ]> (∅ : gmap str mval)))))).
  induction pdf_meta as [|[key value] rest IH]; intros m Hm; [done|].
  cbn [fold_left]. apply IH.
  rewrite lookup_insert_ne; [done|]. unfold pdf_key. intros Heq.
  vm_compute in Heq. discriminate Heq.
Qed.

(** The entries of the PDF's own metadata go under keys that start with
    [pdf_]; the other keys are left as they are. *)
Lemma fold_pdf_keys_frame (pdf_meta : list (str * mval)) (m : gmap str mval)
    (key : str) :
  startswith (lit "pdf_") key = false ->
  fold_left (fun file_metadata '(k, value) =>
               <[ pdf_key k := value ]> file_metadata) pdf_meta m !! key
  = m !! key.
Proof.
  intros Hkey. revert m.
  induction pdf_meta as [|[k value] rest IH]; intros m; [done|].
  cbn [fold_left]. rewrite IH. apply lookup_insert_ne.
  intros <-. unfold pdf_key in Hkey. by rewrite startswith_app in Hkey.
Qed.

(** X7. The entries [process_pdf] takes from the PDF's own metadata
    never override a derived field: under every key that does not start
    with [pdf_], the metadata derived from a file holds the source path,
    the file name, the file type, the character and word counts of the
    text and, when the file information could be read, the page count and
    the size, whatever the PDF's metadata holds. *)
Theorem pdf_metadata_never_overrides (lib : PdfLibraries)
    (pdf_path text key : str) :
  startswith (lit "pdf_") key = false ->
  file_metadata lib pdf_path text !! key
  = derived_fields lib pdf_path text !! key.
Proof.
  intros Hkey. unfold file_metadata, derived_fields. cbv zeta.
  destruct (get_pdf_info lib pdf_path) as [|name size count pdf_meta]; [done|].
  destruct (decide (key = lit "file_size_bytes")) as [->|Hsize];
    [by rewrite !lookup_insert_eq|].
  rewrite !(lookup_insert_ne _ (lit "file_size_bytes")) by done.
  destruct (decide (key = lit "page_count")) as [->|Hcount];
    [by rewrite !lookup_insert_eq|].
  rewrite !(lookup_insert_ne _ (lit "page_count")) by done.
  by apply fold_pdf_keys_frame.
Qed.

(** X8. Every chunk [process_pdf] returns carries, under every key
    other than the four [chunk_text] writes, the caller's value when the
    caller's metadata has the key, and the value derived from the file
    otherwise; a caller that gives no [filename] gets chunks whose
    [filename], hence the source label a context shows for them, is the
    name of the file. *)
Theorem process_pdf_metadata (lib : PdfLibraries) (pdf_path : str)
    (custom : option (gmap str mval)) (chunk : Document) (key : str) :
  chunk ∈ process_pdf split_text lib pdf_path custom ->
  key ∉ tag_keys ->
  metadata chunk !! key
  = match default ∅ custom !! key with
    | Some value => Some value
    | None =>
        file_metadata lib pdf_path
          (extract_text_from_pdf lib pdf_path (lit "auto")) !! key
    end
  /\ (default ∅ custom !! lit "filename" = None ->
      forall default_source,
        Rag.source_of default_source chunk = path_name lib pdf_path).
Proof.
  intros Hin Hkey. unfold process_pdf in Hin.
  destruct (extract_text_from_pdf lib pdf_path (lit "auto")) as [|c text] eqn:Htext;
    [by apply elem_of_nil in Hin|].
  split.
  - rewrite (CleanFacts.chunk_text_metadata_frame _ _ _ _ _ Hin Hkey).
    match goal with
    | |- default ∅ (Some ?m) !! _ = _ => change (default ∅ (Some m)) with m
    end.
    rewrite lookup_union.
    destruct (default ∅ custom !! key) as [value|] eqn:Hcustom.
    + by destruct (file_metadata lib pdf_path (c :: text) !! key).
    + by destruct (file_metadata lib pdf_path (c :: text) !! key).
  - intros Hnone default_source. unfold Rag.source_of.
    assert (Hname : lit "filename" ∉ tag_keys).
    { unfold tag_keys. not_listed. }
    rewrite (CleanFacts.chunk_text_metadata_frame _ _ _ _ _ Hin Hname).
    match goal with
    | |- context [default ∅ (Some ?m) !! _] =>
        change (default ∅ (Some m)) with m
    end.
    rewrite lookup_union, Hnone, file_metadata_filename. done.
Qed.

End facts.

(** X4, witness: of the three sample pages the first is blank and the
    second fails, so the text is the block of the third, headed
    [[Page 3]]. *)
Lemma extract_text_page_numbers_witness :
  extract_text (U := ascii_tables)
    (read_pypdf2 Samples.sample_library) (lit "notes/ndt.pdf")
  = lit "\n[Page 3]\n" ++ Samples.long_page ++ lit "\n".
Proof.
  rewrite (extract_text_page_numbers (U := ascii_tables)
             (read_pypdf2 Samples.sample_library) (lit "notes/ndt.pdf")
             Samples.sample_pages 2 Samples.long_page);
    [reflexivity | reflexivity | reflexivity | vm_compute; discriminate].
Defined.

(** X7, witness: the sample PDF has a title and keywords of its own;
    the derived [page_count] is the number of its pages. *)
Lemma pdf_metadata_never_overrides_witness :
  file_metadata (U := ascii_tables) Samples.sample_library
    (lit "notes/ndt.pdf") Samples.long_page !! lit "page_count"
  = Some (MInt 3).
Proof.
  rewrite (pdf_metadata_never_overrides (U := ascii_tables));
    reflexivity.
Defined.

(** X8, witness: the one chunk of the sample file keeps the caller's
    [course], takes [page_count] from the file, and is labelled with the
    file's name. *)
Lemma process_pdf_metadata_witness :
  exists chunk,
    process_pdf (U := ascii_tables) Examples.sample_split_text
      Samples.sample_library (lit "notes/ndt.pdf")
      (Some {[ lit "course" := MStr (lit "NDT 101") ]}) !! 0%nat = Some chunk
    /\ metadata chunk !! lit "course" = Some (MStr (lit "NDT 101"))
    /\ Rag.source_of (lit "Unknown source") chunk = lit "ndt.pdf".
Proof.
  destruct (process_pdf (U := ascii_tables) Examples.sample_split_text
              Samples.sample_library (lit "notes/ndt.pdf")
              (Some {[ lit "course" := MStr (lit "NDT 101") ]}) !! 0%nat)
    as [chunk|] eqn:Hchunk.
  - exists chunk. split; [reflexivity|].
    assert (Hkey : lit "course" ∉ tag_keys).
    { unfold tag_keys. not_listed. }
    destruct (process_pdf_metadata (U := ascii_tables)
                Examples.sample_split_text Samples.sample_library
                (lit "notes/ndt.pdf")
                (Some {[ lit "course" := MStr (lit "NDT 101") ]})
                chunk (lit "course")
                (list_elem_of_lookup_2 _ _ _ Hchunk) Hkey)
      as [Hvalue Hlabel].
    split.
    + rewrite Hvalue. reflexivity.
    + apply Hlabel. reflexivity.
  - vm_compute in Hchunk. discriminate Hchunk.
Defined.

End ExtractionFacts.

(* ===================================================================== *)
(** * Further facts about retrieval and question answering               *)
(* ===================================================================== *)

Module RetrievalFacts.

Import PyFacts StringFacts Vocabulary Rag RagFacts.

(** ** The search *)

Lemma relevant_docs_scored (results : list (Document * Q)) (doc : Document) :
  doc ∈ relevant_docs results ->
  exists score, (doc, score) ∈ results /\ relevant score = true.
Proof.
  unfold relevant_docs. intros Hin.
  apply list_elem_of_fmap in Hin as ([d score] & -> & Hin).
  apply list_elem_of_In, filter_In in Hin as [Hin Hrel].
  exists score. split; [by apply list_elem_of_In|done].
Qed.

(** X9. For a positive [k] and an index that returns at most [k] hits
    to the unfiltered search for [k], [similarity_search] returns at most
    [k] passages, and each of them is a hit of the unfiltered search or a
    candidate of the scored search whose score is above 0.1. *)
Theorem similarity_search_bounded (vs : VectorStore) (query : str) (k : Z) :
  0 < k ->
  len (hits vs query k) <= k ->
  len (similarity_search vs query k) <= k
  /\ Forall (fun doc =>
               doc ∈ hits vs query k
               \/ exists results score,
                    vs_similarity_search_with_relevance_scores vs query (k * 2)
                    = Some results
                    /\ (doc, score) ∈ results /\ relevant score = true)
            (similarity_search vs query k).
Proof.
  intros Hk Hhits. unfold similarity_search, hits in *.
  destruct (vs_similarity_search_with_relevance_scores vs query (k * 2))
    as [results|] eqn:Hscored; [|split; [rewrite len_nil; lia|done]].
  cbv zeta. rewrite filter_loop_spec by (try rewrite len_nil; lia).
  rewrite app_nil_l.
  destruct (len (take (Z.to_nat k) (relevant_docs results)) <? k / 2).
  - destruct (vs_similarity_search vs query k) as [docs|];
      [|split; [rewrite len_nil; lia|done]].
    split; [done|]. apply Forall_forall. intros doc Hdoc. by left.
  - split.
    + unfold len. rewrite length_take. lia.
    + apply Forall_forall. intros doc Hdoc.
      apply elem_of_take in Hdoc as (i & Hdoc & _).
      apply list_elem_of_lookup_2, relevant_docs_scored in Hdoc
        as (score & Hin & Hrel).
      right. by exists results, score.
Qed.

(** ** The budget of the overview *)

(** The running estimate of a budgeting loop that starts from nothing
    stays within the budget. *)
Lemma budget_loop_estimate (min_chars : Z) (dflt : str) (max_tokens : Z)
    (docs : list Document) :
  0 <= min_chars ->
  entries_estimate (budget_loop min_chars dflt max_tokens docs 0)
  <= Z.max 0 max_tokens.
Proof.
  intros Hmin.
  destruct (budget_loop_spec min_chars dflt max_tokens docs 0)
    as (n & Hn & Hfit & Hshape).
  pose proof (estimate_nonneg (take n docs)) as Hest.
  destruct Hshape as [[-> _]|(doc & Hdoc & Hnext & Hrem & ->)].
  - rewrite entries_estimate_whole.
    destruct Hfit as [->|Hfit]; [simpl; lia|lia].
  - rewrite entries_estimate_app, entries_estimate_whole.
    change (entries_estimate [?x]) with (len (entry_content x) / 4 + 0).
    replace (0 + estimate (take n docs)) with (estimate (take n docs)) in *
      by lia.
    destruct (sliced_length dflt (max_tokens - estimate (take n docs)) doc)
      as [_ Hslice]; [lia..|].
    rewrite Hslice. lia.
Qed.

(** Every entry of a budgeting loop is a passage of its input, whole or
    cut to more than [min_chars] characters. *)
Lemma budget_loop_entries (min_chars : Z) (dflt : str) (max_tokens : Z)
    (docs : list Document) (tc : Z) :
  Forall (fun e =>
            exists doc, doc ∈ docs
              /\ (e = whole dflt doc
                  \/ exists remaining, min_chars < remaining
                       /\ e = sliced dflt remaining doc))
         (budget_loop min_chars dflt max_tokens docs tc).
Proof.
  revert tc. induction docs as [|d docs IH]; intros tc; cbn [budget_loop]; [done|].
  cbv zeta.
  destruct (tc + len (page_content d) / 4 >? max_tokens).
  - destruct ((max_tokens - tc) * 4 >? min_chars) eqn:Hrem; [|done].
    apply Z.gtb_lt in Hrem. constructor; [|done].
    exists d. split; [by left|]. right. by exists ((max_tokens - tc) * 4).
  - constructor.
    + exists d. split; [by left|]. by left.
    + eapply Forall_impl; [apply IH|].
      intros e (doc & Hdoc & He). exists doc. split; [by right|done].
Qed.

Section overview.

Context `{U : Unicode}.
Variable hash : str -> Z.

(** X10. The estimate [get_document_overview] keeps, [len // 4] per
    entry, summed over the entries of the bundle, never exceeds the
    budget; and every entry is one of the gathered passages, whole, or
    cut to more than 200 characters and followed by the ellipsis. *)
Theorem document_overview_budget (vs : VectorStore) (max_tokens : Z) :
  entries_estimate (overview_entries hash vs max_tokens) <= Z.max 0 max_tokens
  /\ Forall (fun e =>
               exists doc,
                 doc ∈ default [] (gather_overview_docs hash vs)
                 /\ (e = whole (lit "Document") doc
                     \/ exists remaining, 200 < remaining
                          /\ e = sliced (lit "Document") remaining doc))
            (overview_entries hash vs max_tokens).
Proof.
  unfold overview_entries.
  destruct (gather_overview_docs hash vs) as [docs|]; [|split; [simpl; lia|done]].
  cbv zeta. split; [by apply budget_loop_estimate|].
  eapply Forall_impl; [apply budget_loop_entries|].
  intros e (doc & Hdoc & He). exists doc. split; [|done].
  simpl. by rewrite OverviewFacts.sort_desc_perm in Hdoc.
Qed.

(** ** The ranking of the overview *)

Lemma insert_desc_descending (key : Document -> Z) (doc : Document)
    (sorted : list Document) :
  descending key sorted -> descending key (insert_desc key doc sorted).
Proof.
  induction sorted as [|d rest IH]; intros Hsorted; cbn [insert_desc].
  - by split.
  - destruct Hsorted as [Hd Hrest].
    destruct (key doc <? key d) eqn:Hlt.
    + apply Z.ltb_lt in Hlt. split; [|by apply IH].
      rewrite OverviewFacts.insert_desc_perm. constructor; [lia|done].
    + apply Z.ltb_ge in Hlt. split; [|by split].
      constructor; [done|].
      eapply Forall_impl; [exact Hd|]. intros b Hb. simpl in Hb. lia.
Qed.

Lemma sort_desc_descending (key : Document -> Z) (docs : list Document) :
  descending key (sort_desc key docs).
Proof.
  induction docs as [|d docs IH]; [done|].
  by apply insert_desc_descending.
Qed.

(** The passages of one key keep the order they had. *)
Lemma insert_desc_stable (key : Document -> Z) (v : Z) (doc : Document)
    (sorted : list Document) :
  List.filter (fun d => key d =? v) (insert_desc key doc sorted)
  = List.filter (fun d => key d =? v) (doc :: sorted).
Proof.
  induction sorted as [|d rest IH]; cbn [insert_desc]; [done|].
  destruct (key doc <? key d) eqn:Hlt; [|done].
  apply Z.ltb_lt in Hlt.
  cbn [List.filter] in IH |- *. rewrite IH.
  destruct (key doc =? v) eqn:Hdoc; [|done].
  apply Z.eqb_eq in Hdoc.
  destruct (key d =? v) eqn:Hd; [|done].
  apply Z.eqb_eq in Hd. lia.
Qed.

Lemma sort_desc_stable (key : Document -> Z) (v : Z) (docs : list Document) :
  List.filter (fun d => key d =? v) (sort_desc key docs)
  = List.filter (fun d => key d =? v) docs.
Proof.
  induction docs as [|d docs IH]; [done|].
  cbn [sort_desc foldr]. rewrite insert_desc_stable.
  cbn [List.filter]. unfold sort_desc in IH. by rewrite IH.
Qed.

(** X11. When the index answers, the overview bundle is budgeted over
    the gathered passages ranked by their introduction score: the ranking
    holds the same passages, highest score first, and passages of equal
    score keep the order in which they were gathered. *)
Theorem overview_ranking (vs : VectorStore) (max_tokens : Z)
    (docs : list Document) :
  gather_overview_docs hash vs = Some docs ->
  exists ranked,
    ranked ≡ₚ docs
    /\ descending (fun doc => get_intro_score (page_content doc)) ranked
    /\ (forall score,
          List.filter (fun doc => get_intro_score (page_content doc) =? score) ranked
          = List.filter (fun doc => get_intro_score (page_content doc) =? score) docs)
    /\ overview_entries hash vs max_tokens
       = budget_loop 200 (lit "Document") max_tokens ranked 0.
Proof.
  intros Hdocs.
  exists (sort_desc (fun doc => get_intro_score (page_content doc)) docs).
  split; [apply OverviewFacts.sort_desc_perm|].
  split; [apply sort_desc_descending|].
  split; [intros score; apply sort_desc_stable|].
  unfold overview_entries. by rewrite Hdocs.
Qed.

End overview.

(** ** The sources of an answer *)

Lemma extract_sources_NoDup (context_lines sources : list str) :
  NoDup sources -> NoDup (extract_sources context_lines sources).
Proof.
  revert sources.
  induction context_lines as [|line rest IH]; intros sources Hsources; [done|].
  cbn [extract_sources].
  destruct (startswith (lit "[From: ") line && endswith (lit "]") line);
    [|by apply IH].
  cbv zeta.
  destruct (bool_decide (take (length line - 8) (drop 7 line) ∈ sources))
    eqn:Hseen; [by apply IH|].
  apply bool_decide_eq_false in Hseen.
  apply IH, NoDup_app. split; [done|].
  split; [|apply NoDup_singleton].
  intros x Hx Hx'. apply list_elem_of_singleton in Hx'. by subst x.
Qed.

Section answers.

Context `{U : Unicode}.
Variable hash : str -> Z.
Variable chat_completion : list Message -> str + (str * Usage).

Abbreviation ask_question := (ask_question hash chat_completion).

(** X12. The sources of a response never name a label twice, whatever
    the question, the index and the model do. *)
Theorem ask_question_sources_distinct (vs : VectorStore) (question : str)
    (chat_history : list ChatEntry) :
  NoDup (sources (response (ask_question vs question chat_history))).
Proof.
  unfold Rag.ask_question. cbv zeta.
  destruct (if is_overview_question question
            then get_document_overview hash vs 4000
            else get_relevant_context vs question 3000) as [|c context];
    [apply NoDup_nil_2|].
  destruct (chat_completion _) as [e|[text usage]]; [apply NoDup_nil_2|].
  cbn [response sources]. apply extract_sources_NoDup, NoDup_nil_2.
Qed.

Lemma last_five_idem {A} (l : list A) : last_five (last_five l) = last_five l.
Proof.
  unfold last_five. rewrite length_drop.
  replace (length l - (length l - 5) - 5)%nat with 0%nat by lia. done.
Qed.

Lemma history_messages_length (chat_history : list ChatEntry) :
  length (history_messages chat_history)
  = (2 * Nat.min 5 (length chat_history))%nat.
Proof.
  unfold history_messages.
  assert (Hlen : length (last_five chat_history) = Nat.min 5 (length chat_history)).
  { unfold last_five. rewrite length_drop. lia. }
  rewrite <- Hlen. generalize (last_five chat_history). intros l.
  induction l as [|chat l IH]; [done|].
  cbn [mbind list_bind]. rewrite length_app, IH. simpl. lia.
Qed.

(** The two system prompts open with the same sentence and hold the
    context between two line feeds. *)
Lemma system_prompt_shape (question context : str) :
  exists opening closing,
    (if is_overview_question question then overview_prompt context
     else specific_prompt context)
    = opening ++ [10%N] ++ context ++ [10%N] ++ closing
    /\ startswith (lit "You are a helpful AI study assistant. ") opening = true.
Proof.
  destruct (is_overview_question question).
  - eexists _, _. unfold overview_prompt. split; [reflexivity|].
    vm_compute. reflexivity.
  - eexists _, _. unfold specific_prompt. split; [reflexivity|].
    vm_compute. reflexivity.
Qed.

(** X13. A call depends on the chat history through its last five
    turns only: it returns what it returns on these five alone; and a
    request to the model is the system message, whose prompt opens with
    ["You are a helpful AI study assistant. "] and holds the context
    between two line feeds, then, for each of these turns in order, a
    user message with its question and an assistant message with its
    answer, then a user message with the new question: twelve messages
    at most. *)
Theorem ask_question_recent_history (vs : VectorStore) (question : str)
    (chat_history : list ChatEntry) :
  ask_question vs question chat_history
  = ask_question vs question (last_five chat_history)
  /\ Forall (fun request =>
               (exists opening closing,
                  request
                  = [ {| role := lit "system";
                         content := opening ++ [10%N]
                                    ++ question_context hash vs question
                                    ++ [10%N] ++ closing |} ]
                    ++ (turn ← drop (length chat_history - 5) chat_history;
                        [ {| role := lit "user";
                             content := chat_question turn |};
                          {| role := lit "assistant";
                             content := chat_answer turn |} ])
                    ++ [ {| role := lit "user"; content := question |} ]
                  /\ startswith (lit "You are a helpful AI study assistant. ")
                                opening = true)
               /\ length request = (2 + 2 * Nat.min 5 (length chat_history))%nat
               /\ role <$> head request = Some (lit "system")
               /\ last request
                  = Some {| role := lit "user"; content := question |})
            (model_requests (ask_question vs question chat_history)).
Proof.
  split.
  - unfold Rag.ask_question, history_messages. by rewrite last_five_idem.
  - unfold Rag.ask_question, question_context. cbv zeta.
    destruct (if is_overview_question question
              then get_document_overview hash vs 4000
              else get_relevant_context vs question 3000) as [|c context];
      [done|].
    destruct (system_prompt_shape question (c :: context))
      as (opening & closing & Hprompt & Hopening).
    rewrite Hprompt.
    assert (Hshape : forall system_prompt,
      length ([ {| role := lit "system"; content := system_prompt |} ]
              ++ history_messages chat_history
              ++ [ {| role := lit "user"; content := question |} ])
      = (2 + 2 * Nat.min 5 (length chat_history))%nat
      /\ role <$> head ([ {| role := lit "system"; content := system_prompt |} ]
                        ++ history_messages chat_history
                        ++ [ {| role := lit "user"; content := question |} ])
         = Some (lit "system")
      /\ last ([ {| role := lit "system"; content := system_prompt |} ]
               ++ history_messages chat_history
               ++ [ {| role := lit "user"; content := question |} ])
         = Some {| role := lit "user"; content := question |}).
    { intros system_prompt. split.
      - rewrite !length_app, history_messages_length. simpl. lia.
      - split; [done|]. by rewrite app_assoc, last_snoc. }
    destruct (chat_completion _) as [e|[text usage]];
      cbn [model_requests];
      (apply Forall_cons; split; [|apply Forall_nil_2]);
      (split; [by exists opening, closing|apply Hshape]).
Qed.

(** ** Empty contexts *)

Lemma context_part_nonempty (e : Entry) : context_part e <> [].
Proof. done. Qed.

Lemma overview_part_nonempty (e : Entry) : overview_part e <> [].
Proof. done. Qed.

Lemma question_context_empty (vs : VectorStore) (question : str) :
  question_context hash vs question = []
  <-> question_entries hash vs question = [].
Proof.
  unfold question_context, question_entries,
    get_document_overview, get_relevant_context.
  destruct (is_overview_question question).
  - split; [|by intros ->].
    intros Hnil. apply join_nil_inv in Hnil.
    + by apply fmap_nil_inv in Hnil.
    + apply Forall_fmap, Forall_forall. intros e _. apply overview_part_nonempty.
  - split; [|by intros ->].
    intros Hnil. apply join_nil_inv in Hnil.
    + by apply fmap_nil_inv in Hnil.
    + apply Forall_fmap, Forall_forall. intros e _. apply context_part_nonempty.
Qed.

(** X14. [ask_question] answers without the model exactly when the
    budgeting loop of the context entered no passage: then, and only
    then, no request is sent and the response has [has_context = False]
    and no [error]; otherwise exactly one request is sent. *)
Theorem ask_question_model_use (vs : VectorStore) (question : str)
    (chat_history : list ChatEntry) :
  (question_entries hash vs question = []
   <-> model_requests (ask_question vs question chat_history) = [])
  /\ (question_entries hash vs question = []
      <-> (has_context (response (ask_question vs question chat_history)) = false
           /\ error (response (ask_question vs question chat_history)) = None))
  /\ (length (model_requests (ask_question vs question chat_history)) <= 1)%nat.
Proof.
  rewrite <- question_context_empty.
  unfold question_context, Rag.ask_question. cbv zeta.
  destruct (if is_overview_question question
            then get_document_overview hash vs 4000
            else get_relevant_context vs question 3000) as [|c context].
  - cbn [model_requests response has_context error length].
    repeat split; (done || lia).
  - destruct (chat_completion _) as [e|[text usage]];
      cbn [model_requests response has_context error length].
    + repeat split; try (intros [? ?]); (done || lia).
    + repeat split; try (intros [? ?]); (done || lia).
Qed.

End answers.

(** X9, witness: of the six hits of the sample index two score above
    0.1; a search for five returns these two. *)
Lemma similarity_search_bounded_witness :
  len (similarity_search Examples.welding_store (lit "flaws") 5) <= 5
  /\ len (similarity_search Examples.welding_store (lit "flaws") 5) = 2.
Proof.
  split; [|vm_compute; reflexivity].
  apply (similarity_search_bounded Examples.welding_store (lit "flaws") 5);
    [lia|vm_compute; discriminate].
Defined.

(** X11, witness: the sample index answers every query of the overview. *)
Lemma overview_ranking_witness :
  exists docs ranked,
    gather_overview_docs Examples.poly_hash Examples.overview_store = Some docs
    /\ ranked ≡ₚ docs
    /\ overview_entries (U := ascii_tables) Examples.poly_hash
         Examples.overview_store 4000
       = budget_loop 200 (lit "Document") 4000 ranked 0.
Proof.
  destruct (gather_overview_docs Examples.poly_hash Examples.overview_store)
    as [docs|] eqn:Hdocs.
  - destruct (overview_ranking (U := ascii_tables) Examples.poly_hash
                Examples.overview_store 4000 docs Hdocs)
      as (ranked & Hperm & _ & _ & Hentries).
    exists docs, ranked. split; [reflexivity|]. split; [exact Hperm|exact Hentries].
  - vm_compute in Hdocs. discriminate Hdocs.
Defined.

End RetrievalFacts.

(* ===================================================================== *)
(** * Facts about the sources read back from a context                   *)
(* ===================================================================== *)

Module SourceFacts.

Import PyFacts StringFacts Vocabulary Rag.

(** The header of a part, and what the loop reads in it. *)
Lemma header_source (source : str) :
  let line := lit "[From: " ++ source ++ lit "]" in
  startswith (lit "[From: ") line && endswith (lit "]") line = true
  /\ take (length line - 8) (drop 7 line) = source.
Proof.
  cbv zeta. split.
  - rewrite startswith_app. rewrite app_assoc. by rewrite endswith_app.
  - change (drop 7 (lit "[From: " ++ source ++ lit "]")) with (source ++ lit "]").
    rewrite !length_app.
    change (length (lit "[From: ")) with 7%nat.
    change (length (lit "]")) with 1%nat.
    replace (7 + (length source + 1) - 8)%nat with (length source) by lia.
    by rewrite take_app_length.
Qed.

Lemma header_plain (source : str) :
  92%N ∉ source -> 92%N ∉ lit "[From: " ++ source ++ lit "]".
Proof.
  intros Hsource Hin.
  apply elem_of_app in Hin as [Hin|Hin].
  - revert Hin. apply (bool_decide_unpack _). vm_compute. exact I.
  - apply elem_of_app in Hin as [Hin|Hin]; [done|].
    revert Hin. apply (bool_decide_unpack _). vm_compute. exact I.
Qed.

(** ** Labels without repetition *)

Lemma filter_twice {A} (f g h : A -> bool) (l : list A) :
  (forall x, h x = g x && f x) ->
  List.filter f (List.filter g l) = List.filter h l.
Proof.
  intros Hh. induction l as [|x l IH]; [done|].
  cbn [List.filter]. rewrite Hh. destruct (g x); cbn [andb List.filter].
  - destruct (f x); by rewrite IH.
  - done.
Qed.

Lemma filter_all {A} (f : A -> bool) (l : list A) :
  (forall x, f x = true) -> List.filter f l = l.
Proof.
  intros Hf. induction l as [|x l IH]; [done|].
  cbn [List.filter]. by rewrite Hf, IH.
Qed.

(** The loop that appends the labels not yet seen appends, to what it
    has, the first occurrences of the new labels. *)
Lemma seen_loop_first_occurrences (labels seen : list str) :
  foldl (fun seen label =>
           if bool_decide (label ∈ seen) then seen else seen ++ [label])
        seen labels
  = seen ++ List.filter (fun label => negb (bool_decide (label ∈ seen)))
                        (first_occurrences labels).
Proof.
  revert seen. induction labels as [|label rest IH]; intros seen.
  - simpl. by rewrite app_nil_r.
  - cbn [foldl first_occurrences List.filter].
    destruct (bool_decide (label ∈ seen)) eqn:Hseen; cbn [negb].
    + apply bool_decide_eq_true in Hseen. rewrite IH. f_equal.
      symmetry. apply filter_twice. intros x.
      unfold str_eqb.
      destruct (bool_decide (x ∈ seen)) eqn:Hx; cbn [negb];
        [by rewrite andb_false_r|].
      apply bool_decide_eq_false in Hx.
      rewrite bool_decide_eq_false_2; [done|]. by intros ->.
    + apply bool_decide_eq_false in Hseen. rewrite IH, <- app_assoc.
      f_equal. simpl. f_equal.
      symmetry. apply filter_twice. intros x. unfold str_eqb.
      destruct (decide (x = label)) as [->|Hne].
      * rewrite (bool_decide_eq_true_2 (label = label)) by done.
        rewrite bool_decide_eq_true_2; [done|].
        apply elem_of_app. right. by apply list_elem_of_singleton.
      * rewrite (bool_decide_eq_false_2 (x = label)) by done. cbn [negb andb].
        f_equal. apply bool_decide_ext.
        rewrite elem_of_app, list_elem_of_singleton.
        split; [intros [Hx|Hx]; [done|congruence]|by left].
Qed.

(** ** Reading a context of plain entries *)

Lemma plain_entry_spec (e : Entry) :
  plain_entry e = true ->
  (92%N ∉ entry_source e) /\ (92%N ∉ entry_content e)
  /\ startswith (lit "[From: ") (entry_content e)
     && endswith (lit "]") (entry_content e) = false.
Proof.
  unfold plain_entry. intros Hplain.
  apply andb_true_iff in Hplain as [Hplain Hheader].
  apply andb_true_iff in Hplain as [Hsource Hcontent].
  apply negb_true_iff in Hsource. apply negb_true_iff in Hcontent.
  apply negb_true_iff in Hheader.
  apply bool_decide_eq_false in Hsource.
  apply bool_decide_eq_false in Hcontent. done.
Qed.

Lemma extract_sources_header (source : str) (rest seen : list str) :
  extract_sources ((lit "[From: " ++ source ++ lit "]") :: rest) seen
  = extract_sources rest
      (if bool_decide (source ∈ seen) then seen else seen ++ [source]).
Proof.
  destruct (header_source source) as [Hline Hread].
  cbn [extract_sources]. rewrite Hline. cbv iota zeta. rewrite Hread.
  destruct (decide (source ∈ seen)) as [Hseen|Hseen].
  - by rewrite !bool_decide_eq_true_2 by done.
  - by rewrite !bool_decide_eq_false_2 by done.
Qed.

Lemma extract_sources_skip (line : str) (rest seen : list str) :
  startswith (lit "[From: ") line && endswith (lit "]") line = false ->
  extract_sources (line :: rest) seen = extract_sources rest seen.
Proof. intros Hline. cbn [extract_sources]. by rewrite Hline. Qed.

Lemma extract_sources_context (entries : list Entry) (seen : list str) :
  forallb plain_entry entries = true ->
  extract_sources
    (split backslash_n (join (backslash_n ++ backslash_n)
                             (context_part <$> entries))) seen
  = foldl (fun seen label =>
             if bool_decide (label ∈ seen) then seen else seen ++ [label])
          seen (entry_source <$> entries).
Proof.
  revert seen. induction entries as [|e entries IH]; intros seen Hplain; [done|].
  cbn [forallb] in Hplain. apply andb_true_iff in Hplain as [He Hplain].
  apply plain_entry_spec in He as (Hsource & Hcontent & Hheader).
  pose proof (header_plain _ Hsource) as Hhead.
  rewrite fmap_cons. cbn [foldl].
  destruct entries as [|e' entries].
  - cbn [fmap list_fmap join foldl].
    replace (context_part e)
      with ((lit "[From: " ++ entry_source e ++ lit "]") ++ backslash_n
            ++ entry_content e)
      by (unfold context_part; by rewrite <- !app_assoc).
    rewrite (split_cut _ _ Hhead), (split_line _ Hcontent).
    rewrite extract_sources_header, (extract_sources_skip _ _ _ Hheader).
    done.
  - rewrite fmap_cons, join_cons. rewrite <- fmap_cons.
    unfold context_part at 1.
    replace ((lit "[From: " ++ entry_source e ++ lit "]" ++ backslash_n
              ++ entry_content e)
             ++ (backslash_n ++ backslash_n)
             ++ join (backslash_n ++ backslash_n) (context_part <$> e' :: entries))
      with ((lit "[From: " ++ entry_source e ++ lit "]") ++ backslash_n
            ++ (entry_content e ++ backslash_n
                ++ ([] ++ backslash_n
                    ++ join (backslash_n ++ backslash_n)
                            (context_part <$> e' :: entries))))
      by (by rewrite <- !app_assoc).
    rewrite (split_cut _ _ Hhead), (split_cut _ _ Hcontent).
    rewrite (split_cut []) by apply not_elem_of_nil.
    rewrite extract_sources_header, (extract_sources_skip _ _ _ Hheader).
    rewrite extract_sources_skip by done.
    by rewrite (IH _ Hplain).
Qed.

Section answers.

Context `{U : Unicode}.
Variable hash : str -> Z.
Variable chat_completion : list Message -> str + (str * Usage).

(** X15. For a question that is not an overview question, when no
    label and no text of the context holds a backslash and no text looks
    like a provenance header, the sources of an answer given with context
    are the labels of the entries of the context, in order, each at its
    first occurrence: what the context was built from is read back from
    it. *)
Theorem ask_question_sources (vs : VectorStore) (question : str)
    (chat_history : list ChatEntry) :
  is_overview_question question = false ->
  forallb plain_entry (relevant_entries vs question 3000) = true ->
  has_context
    (response (ask_question hash chat_completion vs question chat_history))
  = true ->
  sources
    (response (ask_question hash chat_completion vs question chat_history))
  = first_occurrences (entry_source <$> relevant_entries vs question 3000).
Proof.
  intros Hspecific Hplain. unfold ask_question. cbv zeta.
  rewrite Hspecific.
  destruct (get_relevant_context vs question 3000) as [|c context] eqn:Hcontext;
    [done|].
  destruct (chat_completion _) as [e|[text usage]]; [done|].
  intros _. cbn [response sources].
  rewrite <- Hcontext. unfold get_relevant_context.
  rewrite (extract_sources_context _ _ Hplain), seen_loop_first_occurrences.
  rewrite app_nil_l. apply filter_all. intros x.
  rewrite bool_decide_eq_false_2; [done|apply not_elem_of_nil].
Qed.

(** The bundle of an overview that holds no backslash is one line for
    the loop that reads the sources. *)
Lemma overview_one_line (entries : list Entry) :
  forallb plain_entry entries = true ->
  92%N ∉ join (newline ++ newline ++ lit "=== DOCUMENT SECTION ==="
               ++ newline ++ newline)
              (overview_part <$> entries).
Proof.
  intros Hplain Hin.
  eapply (proj1 (Forall_forall (fun c => c <> 92%N) _)); [|exact Hin|done].
  apply Forall_join.
  - apply (bool_decide_unpack _). vm_compute. exact I.
  - apply Forall_fmap, Forall_forall. intros e He.
    apply list_elem_of_In in He.
    pose proof (proj1 (forallb_forall _ _) Hplain e He) as Hentry.
    apply plain_entry_spec in Hentry as (Hsource & Hcontent & _).
    unfold overview_part. cbn [compose].
    repeat (apply Forall_app; split);
      try (apply (bool_decide_unpack _); vm_compute; exact I);
      apply Forall_forall; intros c Hc ->; done.
Qed.

(** X16. For an overview question the bundle is built with line feeds
    but read back by cutting at a backslash followed by the letter n: when
    no label and no text of the bundle holds a backslash, the whole bundle
    is one line for the loop, so an answer given with context names no
    source unless the bundle ends with a closing bracket, and then the one
    source it names is the bundle itself without its first seven
    characters and its last. *)
Theorem ask_question_overview_sources (vs : VectorStore) (question : str)
    (chat_history : list ChatEntry) :
  is_overview_question question = true ->
  forallb plain_entry (overview_entries hash vs 4000) = true ->
  has_context
    (response (ask_question hash chat_completion vs question chat_history))
  = true ->
  sources
    (response (ask_question hash chat_completion vs question chat_history))
  = (let bundle := get_document_overview hash vs 4000 in
     if endswith (lit "]") bundle
     then [ take (length bundle - 8) (drop 7 bundle) ]
     else []).
Proof.
  intros Hoverview Hplain. unfold ask_question. cbv zeta.
  rewrite Hoverview.
  pose proof (overview_one_line _ Hplain) as Hline.
  fold (get_document_overview hash vs 4000) in Hline.
  assert (Hstart : get_document_overview hash vs 4000 <> [] ->
            startswith (lit "[From: ") (get_document_overview hash vs 4000) = true).
  { unfold get_document_overview.
    destruct (overview_entries hash vs 4000) as [|e entries]; [done|].
    intros _. rewrite fmap_cons. unfold overview_part at 1.
    destruct (overview_part <$> entries) as [|p ps].
    - apply startswith_app.
    - rewrite join_cons, <- app_assoc. apply startswith_app. }
  destruct (get_document_overview hash vs 4000) as [|c context] eqn:Hcontext;
    [done|].
  destruct (chat_completion _) as [e|[text usage]]; [done|].
  intros _. cbn [response sources].
  unfold backslash_n. rewrite (split_line _ Hline). cbn [extract_sources].
  rewrite Hstart by done. cbn [andb].
  by destruct (endswith (lit "]") (c :: context)).
Qed.

End answers.

(** X15, witness: two passages of one file answer the sample question;
    the response names the file once. *)
Lemma ask_question_sources_witness :
  sources
    (response
       (ask_question (U := ascii_tables) Examples.poly_hash
          (fun _ => inr (lit "Sound.",
                         {| prompt_tokens := 90; completion_tokens := 3;
                            total_tokens := 93 |}))
          Examples.welding_store (lit "which method uses sound") []))
  = [ lit "ndt.pdf" ].
Proof.
  rewrite (ask_question_sources (U := ascii_tables));
    vm_compute; reflexivity.
Defined.

(** X16, witness: the overview of the sample index ends with a digit, so
    the answer names no source. *)
Lemma ask_question_overview_sources_witness :
  sources
    (response
       (ask_question (U := ascii_tables) Examples.poly_hash
          (fun _ => inr (lit "Notes.",
                         {| prompt_tokens := 90; completion_tokens := 3;
                            total_tokens := 93 |}))
          Examples.overview_store (lit "give me an overview") []))
  = [].
Proof.
  rewrite (ask_question_overview_sources (U := ascii_tables));
    vm_compute; reflexivity.
Defined.

End SourceFacts.

(* ===================================================================== *)
(** * Further facts about exam synthesis and rendering                   *)
(* ===================================================================== *)

Module SynthesisFacts.

Import PyFacts Exam Vocabulary ExamFacts RenderFacts.

Section facts.

Context `{U : Unicode}.

Variable json_loads : str -> option Decoded.

(** One block of [generate_complete_exam] asks the model at most once:
    for its kind, when the kind is requested, with the first 3500
    characters of the context, the count requested and the difficulty. *)
Lemma add_section_agree
    (reply1 reply2 : SectionKind -> str -> Z -> str -> option str)
    (kind : SectionKind) (context1 context2 : str) (cfg : ExamConfig)
    (difficulty : str) (sections : list (str * ExamSection)) :
  (0 < default 0 (cfg_count kind cfg) ->
   reply1 kind (slice_to 3500 context1) (default 0 (cfg_count kind cfg)) difficulty
   = reply2 kind (slice_to 3500 context2) (default 0 (cfg_count kind cfg)) difficulty) ->
  add_section reply1 json_loads kind context1 cfg difficulty sections
  = add_section reply2 json_loads kind context2 cfg difficulty sections.
Proof.
  intros Hagree. unfold add_section, generate. rewrite Z.gtb_ltb.
  destruct (0 <? default 0 (cfg_count kind cfg)) eqn:Hreq; [|done].
  apply Z.ltb_lt in Hreq. by rewrite (Hagree Hreq).
Qed.

(** X17. The exam is a function of what the model replies, for each
    kind the configuration requests, to the first 3500 characters of the
    context, the requested count and the difficulty: two contexts and two
    model services that agree there give the same exam, whatever the rest
    of the contexts holds and whatever the services reply for the kinds
    that are not requested. *)
Theorem exam_depends_on_requests
    (reply1 reply2 : SectionKind -> str -> Z -> str -> option str)
    (context1 context2 : str) (exam_config : option ExamConfig) :
  (forall kind,
     0 < requested kind exam_config ->
     reply1 kind (slice_to 3500 context1) (requested kind exam_config)
            (default (lit "medium")
               (cfg_difficulty (default default_config exam_config)))
     = reply2 kind (slice_to 3500 context2) (requested kind exam_config)
              (default (lit "medium")
                 (cfg_difficulty (default default_config exam_config)))) ->
  generate_complete_exam reply1 json_loads context1 exam_config
  = generate_complete_exam reply2 json_loads context2 exam_config.
Proof.
  intros Hagree. unfold generate_complete_exam. cbv zeta.
  rewrite (add_section_agree reply1 reply2 MultipleChoice context1 context2)
    by apply (Hagree MultipleChoice).
  rewrite (add_section_agree reply1 reply2 TrueFalse context1 context2)
    by apply (Hagree TrueFalse).
  rewrite (add_section_agree reply1 reply2 ShortAnswer context1 context2)
    by apply (Hagree ShortAnswer).
  rewrite (add_section_agree reply1 reply2 Essay context1 context2)
    by apply (Hagree Essay).
  done.
Qed.

Variable model_reply : SectionKind -> str -> Z -> str -> option str.

(** A block adds a section of a known key with something in it, or
    nothing. *)
Lemma add_section_questions (kind : SectionKind) (context : str)
    (cfg : ExamConfig) (difficulty : str) (sections : list (str * ExamSection)) :
  Forall (fun entry => fst entry ∈ known_keys
                       /\ elements (sec_questions (snd entry)) <> []) sections ->
  Forall (fun entry => fst entry ∈ known_keys
                       /\ elements (sec_questions (snd entry)) <> [])
         (add_section model_reply json_loads kind context cfg difficulty sections).
Proof.
  intros Hsections. unfold add_section. cbv zeta.
  destruct (default 0 (cfg_count kind cfg) >? 0); [|done].
  destruct (nonempty (generate model_reply json_loads kind context _ difficulty))
    eqn:Hsome; [|done].
  apply Forall_app. split; [done|].
  apply Forall_cons. split; [|apply Forall_nil_2]. cbn [fst snd sec_questions].
  split.
  - apply known_keys_spec. destruct kind; tauto.
  - intros Hnone. rewrite nonempty_len_of, len_of_elements, Hnone in Hsome.
    done.
Qed.

Lemma count_questions_sections (sections : list (str * ExamSection)) :
  Forall (fun entry => elements (sec_questions (snd entry)) <> []) sections ->
  len sections <= count_questions sections.
Proof.
  induction 1 as [|[key section] sections Hq _ IH]; [done|].
  rewrite len_cons, count_questions_cons. cbn [snd] in Hq.
  destruct (elements (sec_questions section)) as [|q questions]; [done|].
  rewrite len_cons. pose proof (len_nonneg questions). lia.
Qed.

(** Every section of a generated exam has a known key and something in
    it, so the exam has sections exactly when [total_questions] is above
    zero. *)
Lemma generated_exam_questions (context : str) (exam_config : option ExamConfig) :
  let exam := generate_complete_exam model_reply json_loads context exam_config in
  Forall (fun entry => fst entry ∈ known_keys
                       /\ elements (sec_questions (snd entry)) <> [])
         (exam_sections exam)
  /\ exam_total_questions exam = Some (count_questions (exam_sections exam))
  /\ len (exam_sections exam) <= count_questions (exam_sections exam)
  /\ exam_error exam = None.
Proof.
  cbv zeta.
  assert (Hall :
    Forall (fun entry => fst entry ∈ known_keys
                         /\ elements (sec_questions (snd entry)) <> [])
      (exam_sections
         (generate_complete_exam model_reply json_loads context exam_config))).
  { unfold generate_complete_exam. cbv zeta. cbn [exam_sections].
    by repeat apply add_section_questions. }
  split; [done|]. split; [done|]. split; [|done].
  apply count_questions_sections. eapply Forall_impl; [exact Hall|].
  by intros entry [_ ?].
Qed.

(** X18. Questions are numbered from 1 through the whole exam, in both
    views: in an exam both renderers can print, the question object at
    position [i] of a section of a known key is printed under the header
    ["**Question <n>:** <text>"], where [n] is one more than the number of
    items before it, those of the sections before included, written in
    decimal, and the text is the statement followed by [" (True/False)"]
    in the true/false section and the question elsewhere; the lines of the
    question follow its header. *)
Theorem question_numbers_run_through (exam : ExamDict)
    (before after : list (str * ExamSection)) (key : str)
    (section : ExamSection) (i : nat) (q : Question) :
  renderable exam = true ->
  exam_sections exam = before ++ (key, section) :: after ->
  key ∈ [ lit "multiple_choice"; lit "true_false"; lit "short_answer";
          lit "essay" ] ->
  elements (sec_questions section) !! i = Some (IQuestion q) ->
  let number :=
    1 + foldr (fun entry total =>
                 len (elements (sec_questions (snd entry))) + total) 0 before
    + Z.of_nat i in
  let header :=
    lit "**Question " ++ str_of_Z number ++ lit ":** "
    ++ (if bool_decide (key = lit "true_false")
        then default [] (q_statement q) ++ lit " (True/False)"
        else default [] (q_question q)) in
  (exists block pre post,
     exam_question_lines key number (IQuestion q) = inr (header :: block)
     /\ exam_lines exam = inr (pre ++ header :: block ++ post))
  /\ (exists block pre post,
        answer_question_lines key number (IQuestion q) = inr (header :: block)
        /\ answer_lines exam = inr (pre ++ header :: block ++ post)).
Proof.
  intros Hrender Hsections Hkey Hq number header.
  assert (Hnumber : number = 1 + count_questions before + Z.of_nat i).
  { unfold number. do 2 f_equal. clear.
    induction before as [|[key0 section0] before IH]; [done|].
    rewrite count_questions_cons. cbn [foldr snd]. by rewrite IH. }
  split.
  - destruct (proj2 (exam_lines_returns exam) Hrender) as [lines Hlines].
    destruct (exam_lines_at exam _ _ _ _ _ _ _ Hlines Hsections Hq)
      as (block & pre & post & Hblock & ->).
    rewrite <- Hnumber in Hblock.
    destruct (exam_question_lines_known key number (IQuestion q) Hkey)
      as [rest Hrest].
    rewrite Hrest in Hblock. injection Hblock as <-.
    exists rest, pre, post. split; [exact Hrest|]. rewrite Hlines.
    by rewrite <- app_comm_cons.
  - destruct (proj2 (answer_lines_returns exam) Hrender) as [lines Hlines].
    destruct (answer_lines_at exam _ _ _ _ _ _ _ Hlines Hsections Hq)
      as (block & pre & post & Hblock & ->).
    rewrite <- Hnumber in Hblock.
    destruct (answer_question_lines_known key number (IQuestion q) Hkey)
      as [rest Hrest].
    rewrite Hrest in Hblock. injection Hblock as <-.
    exists rest, pre, post. split; [exact Hrest|]. rewrite Hlines.
    by rewrite <- app_comm_cons.
Qed.

End facts.

(** X17, witness: with only true/false statements requested, a service
    that raises for multiple choice and a context with another tail give
    the same exam. *)
Lemma exam_depends_on_requests_witness :
  generate_complete_exam (U := ascii_tables)
    Examples.sample_model_reply Examples.sample_json_loads
    (Samples.long_context "x") (Some Samples.true_false_only)
  = generate_complete_exam (U := ascii_tables)
      Samples.other_model_reply Examples.sample_json_loads
      (Samples.long_context "y") (Some Samples.true_false_only).
Proof.
  apply (exam_depends_on_requests (U := ascii_tables)).
  intros kind Hrequested.
  destruct kind; [vm_compute in Hrequested; discriminate Hrequested | | |];
    reflexivity.
Defined.

(** X18, witness: in the sample exam the multiple-choice question comes
    after one true/false statement and is printed under the header of
    question 2 in both views. *)
Lemma question_numbers_run_through_witness :
  (exists pre post,
     exam_lines (U := ascii_tables) Examples.sample_exam
     = inr (pre
            ++ [ lit "**Question 2:** Which method uses sound waves?";
                 lit "  A) Radiographic testing";
                 lit "  B) Ultrasonic testing";
                 lit "  C) Penetrant testing";
                 lit "  D) Visual inspection";
                 [] ]
            ++ post))
  /\ (exists block pre post,
        answer_lines (U := ascii_tables) Examples.sample_exam
        = inr (pre ++ lit "**Question 2:** Which method uses sound waves?"
                      :: block ++ post)).
Proof.
  destruct (question_numbers_run_through (U := ascii_tables) Examples.sample_exam
              [ (lit "true_false",
                 section_for TrueFalse (SList [IQuestion Examples.sample_statement])) ]
              [] (lit "multiple_choice")
              (section_for MultipleChoice (SList [IQuestion Examples.sample_question]))
              0 Examples.sample_question)
    as [(block & pre & post & Hblock & Hlines) (block' & pre' & post' & _ & Hanswers)].
  - reflexivity.
  - reflexivity.
  - apply list_elem_of_here.
  - reflexivity.
  - split.
    + injection Hblock as <-. exists pre, post. exact Hlines.
    + exists block', pre', post'. exact Hanswers.
Defined.

End SynthesisFacts.

(* ===================================================================== *)
(** * Further facts about the session object                             *)
(* ===================================================================== *)

Module SessionFacts.

Import PyFacts Chatbot Vocabulary ChatbotFacts.

(** The message for a chatbot without documents is not the text of an
    exception of a renderer. *)
Lemma no_documents_error_other : no_documents_error ∉ attribute_errors.
Proof. unfold attribute_errors. not_listed. Qed.

(** Records are read the same in a store that keeps every record. *)
Lemma record_at_kept (h h' : gmap loc obj) (l : loc) :
  (forall l record, h !! l = Some (ODoc record) -> h' !! l = Some (ODoc record)) ->
  is_Some (record_at h l) ->
  record_at h' l = record_at h l.
Proof.
  intros Hkept [record Hrecord]. unfold record_at in *.
  destruct (h !! l) as [[| | |record']|] eqn:Hl; try done.
  by rewrite (Hkept l record' Hl).
Qed.

Lemma omap_record_kept (h h' : gmap loc obj) (docs : gmap str loc) :
  (forall l record, h !! l = Some (ODoc record) -> h' !! l = Some (ODoc record)) ->
  map_Forall (fun _ l => is_Some (record_at h l)) docs ->
  omap (record_at h') docs = omap (record_at h) docs
  /\ map_Forall (fun _ l => is_Some (record_at h' l)) docs.
Proof.
  intros Hkept Hformed. split.
  - apply map_eq. intros doc_id. rewrite !lookup_omap.
    destruct (docs !! doc_id) as [l|] eqn:Hl; [|done]. simpl.
    apply record_at_kept; [done|]. by apply (Hformed doc_id).
  - intros doc_id l Hl. rewrite (record_at_kept h h'); [|done|].
    + by apply (Hformed doc_id).
    + by apply (Hformed doc_id).
Qed.

(** When every reference leads to a record, as many records are tracked
    as the dictionary has keys. *)
Lemma tracked_size (bot : Bot) :
  documents_formed bot -> size (tracked bot) = size (documents bot).
Proof.
  intros Hformed. rewrite <- !size_dom. f_equal.
  apply set_eq. intros doc_id. rewrite !elem_of_dom.
  unfold tracked. rewrite lookup_omap.
  destruct (documents bot !! doc_id) as [l|] eqn:Hl; simpl.
  - split; [by eexists|]. intros _. by apply (Hformed doc_id).
  - split; by intros [? ?].
Qed.

Lemma tracked_empty (bot : Bot) :
  documents_formed bot -> tracked bot = ∅ <-> documents bot = ∅.
Proof.
  intros Hformed.
  rewrite <- !map_size_empty_iff. by rewrite tracked_size.
Qed.

Section facts.

Context `{U : Unicode}.
Variable hash : str -> Z.
Variable max_history_length : Z.

Abbreviation run := (run hash max_history_length).
Abbreviation reachable := (reachable hash max_history_length).

(** A call that keeps the dictionary object and every record keeps what
    is tracked. *)
Lemma frame_documents (bot bot' : Bot) :
  documents_formed bot ->
  uploaded_documents bot' = uploaded_documents bot ->
  heap bot' !! uploaded_documents bot = heap bot !! uploaded_documents bot ->
  (forall l record,
     heap bot !! l = Some (ODoc record) -> heap bot' !! l = Some (ODoc record)) ->
  documents_formed bot' /\ tracked bot' = tracked bot.
Proof.
  intros Hformed Hu Hdict Hkept.
  assert (Hdocs : documents bot' = documents bot).
  { unfold documents, dict_items. by rewrite Hu, Hdict. }
  unfold documents_formed, tracked. rewrite Hdocs.
  destruct (omap_record_kept _ _ _ Hkept Hformed) as [Hsame Hformed'].
  done.
Qed.

(** What one call does to the documents tracked. *)
Lemma run_documents (bot : Bot) (c : call) :
  well_formed bot -> documents_formed bot ->
  documents_formed (run bot c)
  /\ tracked (run bot c)
     = match c with
       | UploadPdf (Some (doc_id, record)) => <[ doc_id := record ]> (tracked bot)
       | ResetSystem => ∅
       | _ => tracked bot
       end.
Proof.
  intros [(items & Hitems & Hall) (docs & Hdocs)] Hformed.
  assert (Hne : uploaded_documents bot <> chat_history bot)
    by (intros Heq; rewrite Heq in Hdocs; congruence).
  destruct c as [processed|svc question|svc cfg| | | |count|];
    cbn [Chatbot.run].
  - destruct processed as [[doc_id record]|]; [|done].
    unfold upload_pdf.
    pose proof (alloc_spec (ODoc record) (heap bot)) as [Hfresh Hh].
    destruct (alloc (ODoc record) (heap bot)) as [d h]. simpl in Hfresh, Hh.
    subst h.
    assert (Hd : d <> uploaded_documents bot) by (intros ->; congruence).
    assert (Hkept : forall l r,
              heap bot !! l = Some (ODoc r) ->
              (<[ uploaded_documents bot :=
                    ODict (<[ doc_id := d ]>
                             (dict_items (<[ d := ODoc record ]> (heap bot))
                                         (uploaded_documents bot))) ]>
                 (<[ d := ODoc record ]> (heap bot))) !! l = Some (ODoc r)).
    { intros l r Hl. rewrite !lookup_insert_ne; [done| |]; intros <-; congruence. }
    assert (Hitems' : dict_items (<[ d := ODoc record ]> (heap bot))
                                 (uploaded_documents bot) = documents bot).
    { unfold documents, dict_items. by rewrite lookup_insert_ne. }
    rewrite Hitems' in Hkept |- *.
    destruct (omap_record_kept _ _ _ Hkept Hformed) as [Hsame Hformed'].
    assert (Hnew : record_at
                     (<[ uploaded_documents bot :=
                           ODict (<[ doc_id := d ]> (documents bot)) ]>
                        (<[ d := ODoc record ]> (heap bot))) d = Some record).
    { unfold record_at. by rewrite lookup_insert_ne, lookup_insert_eq. }
    match goal with
    | |- documents_formed ?b /\ _ => set (bot' := b)
    end.
    assert (Hdocs' : documents bot' = <[ doc_id := d ]> (documents bot)).
    { unfold documents at 1, dict_items, bot'. cbn [heap uploaded_documents].
      by rewrite lookup_insert_eq. }
    unfold documents_formed, tracked. rewrite Hdocs'.
    unfold bot'. cbn [heap].
    split.
    + apply map_Forall_insert_2; [by rewrite Hnew|done].
    + by rewrite (omap_insert_Some _ _ _ _ _ Hnew), Hsame.
  - unfold ask_question.
    match goal with
    | |- context [alloc ?o (heap bot)] =>
        pose proof (alloc_spec o (heap bot)) as [Hfresh Hh];
        destruct (alloc o (heap bot)) as [e h]
    end.
    simpl in Hfresh, Hh. subst h. cbn [fst].
    apply frame_documents; try done; cbn [heap].
    + rewrite !lookup_insert_ne; [done| |done]. intros ->. congruence.
    + intros l r Hl. rewrite !lookup_insert_ne; [done| |]; intros <-; congruence.
  - by rewrite generate_exam_state.
  - pose proof (alloc_spec (OList (history bot)) (heap bot)) as [Hfresh Hh].
    unfold get_chat_history.
    destruct (alloc (OList (history bot)) (heap bot)) as [l h].
    simpl in Hfresh, Hh. subst h. cbn [fst].
    apply frame_documents; try done; cbn [heap].
    + rewrite lookup_insert_ne; [done|]. intros ->. congruence.
    + intros l' r Hl. rewrite lookup_insert_ne; [done|]. intros ->. congruence.
  - apply frame_documents; try done; cbn [heap clear_chat_history].
    + by rewrite lookup_insert_ne.
    + intros l r Hl. rewrite lookup_insert_ne; [done|]. intros <-. congruence.
  - pose proof (alloc_spec (ODict (dict_items (heap bot) (uploaded_documents bot)))
                           (heap bot)) as [Hfresh Hh].
    unfold get_uploaded_documents.
    destruct (alloc (ODict (dict_items (heap bot) (uploaded_documents bot)))
                    (heap bot)) as [l h].
    simpl in Hfresh, Hh. subst h. cbn [fst].
    apply frame_documents; try done; cbn [heap].
    + rewrite lookup_insert_ne; [done|]. intros ->. congruence.
    + intros l' r Hl. rewrite lookup_insert_ne; [done|]. intros ->. congruence.
  - done.
  - unfold documents_formed, tracked, documents, dict_items.
    cbn [heap uploaded_documents reset_system]. rewrite lookup_insert_eq.
    split; [apply map_Forall_empty|apply omap_empty].
Qed.

Lemma reachable_documents_formed (bot : Bot) :
  reachable bot -> documents_formed bot.
Proof.
  induction 1 as [|bot c Hr IH]; [apply map_Forall_empty|].
  by apply run_documents; [apply (reachable_well_formed hash max_history_length)|].
Qed.

(** X19. The documents a chatbot tracks behave as a dictionary from
    document identifiers to records: in every state reached from the
    construction, an upload that succeeds sets the record of its
    identifier, over an earlier upload of the same identifier if there is
    one, and leaves the others; [reset_system] empties the dictionary; no
    other call, a failed upload included, changes it; and
    [get_system_status] reports the number of identifiers tracked. *)
Theorem uploaded_documents_map (bot : Bot) (c : call) :
  reachable bot ->
  tracked (run bot c)
  = match c with
    | UploadPdf (Some (doc_id, record)) => <[ doc_id := record ]> (tracked bot)
    | ResetSystem => ∅
    | _ => tracked bot
    end
  /\ forall document_count,
       uploaded_files (snd (get_system_status bot document_count))
       = Z.of_nat (size (tracked bot)).
Proof.
  intros Hr.
  pose proof (reachable_well_formed hash max_history_length bot Hr) as Hwf.
  pose proof (reachable_documents_formed bot Hr) as Hformed.
  split; [by apply run_documents|].
  intros document_count. cbn [get_system_status snd uploaded_files].
  by rewrite tracked_size.
Qed.

(** X20. In every state reached from the construction, [generate_exam]
    fails with the message that no document is uploaded exactly when no
    document is tracked, whatever the index and the model would answer;
    so it fails this way on a new chatbot and after every
    [reset_system], until an upload succeeds. *)
Theorem generate_exam_needs_documents (svc : Services) (bot : Bot)
    (exam_config : option Exam.ExamConfig) :
  reachable bot ->
  snd (generate_exam svc bot exam_config) = ExamFailure no_documents_error
  <-> tracked bot = ∅.
Proof.
  intros Hr.
  rewrite (tracked_empty bot (reachable_documents_formed bot Hr)).
  unfold generate_exam, documents. cbv zeta.
  destruct (bool_decide (dict_items (heap bot) (uploaded_documents bot) = ∅))
    eqn:Hempty.
  - apply bool_decide_eq_true in Hempty. done.
  - apply bool_decide_eq_false in Hempty.
    split; [|done]. intros Hfail. exfalso.
    repeat match type of Hfail with
           | context [if ?b then _ else _] => destruct b
           | context [match ?x with [] => _ | _ :: _ => _ end] => destruct x
           | context [match ?x with inl _ => _ | inr _ => _ end] =>
               let Hx := fresh "Hx" in destruct x eqn:Hx
           end;
      cbn [snd] in Hfail; try discriminate Hfail;
      injection Hfail as Hfail;
      try (vm_compute in Hfail; discriminate Hfail);
      subst; apply no_documents_error_other;
      first [ by eapply RenderFacts.format_exam_for_display_inl
            | by eapply RenderFacts.format_answers_for_display_inl ].
Qed.

(** X21. When [generate_exam] succeeds, documents are tracked, the exam
    carries no error and has at least one section, every section has a
    question and holds question objects only, [total_questions] is the
    number of questions of the sections and is positive, and the two texts
    returned are the rendered exam and answer key, which both renderers
    returned without raising, not an error message; the chatbot is left as
    it was. *)
Theorem generate_exam_success (svc : Services) (bot : Bot)
    (exam_config : option Exam.ExamConfig) (exam : Exam.ExamDict)
    (formatted_exam formatted_answers : str) :
  snd (generate_exam svc bot exam_config)
  = ExamSuccess exam formatted_exam formatted_answers ->
  documents bot <> ∅
  /\ fst (generate_exam svc bot exam_config) = bot
  /\ Exam.exam_error exam = None
  /\ Exam.exam_sections exam <> []
  /\ Forall (fun entry =>
               Exam.elements (Exam.sec_questions (snd entry)) <> []
               /\ Forall (fun item => exists q, item = Exam.IQuestion q)
                         (Exam.elements (Exam.sec_questions (snd entry))))
            (Exam.exam_sections exam)
  /\ Exam.exam_total_questions exam
     = Some (Exam.count_questions (Exam.exam_sections exam))
  /\ 0 < Exam.count_questions (Exam.exam_sections exam)
  /\ (exists lines,
        Exam.exam_lines exam = inr lines
        /\ formatted_exam = join Exam.backslash_n lines)
  /\ (exists lines,
        Exam.answer_lines exam = inr lines
        /\ formatted_answers = join Exam.backslash_n lines).
Proof.
  intros Hsuccess. split; [|split; [apply generate_exam_state|]].
  - intros Hempty. unfold generate_exam, documents in *. cbv zeta in Hsuccess.
    rewrite bool_decide_eq_true_2 in Hsuccess by done. discriminate Hsuccess.
  - unfold generate_exam in Hsuccess. cbv zeta in Hsuccess.
    destruct (bool_decide (dict_items (heap bot) (uploaded_documents bot) = ∅));
      [discriminate Hsuccess|].
    match type of Hsuccess with
    | context [Exam.generate_complete_exam ?reply ?loads ?context exam_config] =>
        pose proof (SynthesisFacts.generated_exam_questions loads reply context
                      exam_config) as Hexam;
        destruct (Exam.generate_complete_exam reply loads context exam_config)
          as [title instructions sections total error] eqn:Hgenerated
    end.
    cbv zeta in Hexam. cbn [Exam.exam_sections Exam.exam_total_questions
                            Exam.exam_error] in Hexam.
    destruct Hexam as (Hall & Htotal & Hcount & Herror).
    match type of Hsuccess with
    | context [if ?b then _ else _] => destruct b; [discriminate Hsuccess|]
    end.
    cbn [Exam.exam_sections] in Hsuccess.
    destruct sections as [|entry sections]; [discriminate Hsuccess|].
    match type of Hsuccess with
    | context [Exam.format_exam_for_display ?e] =>
        set (generated_exam := e) in *;
        destruct (Exam.format_exam_for_display generated_exam)
          as [e1|text] eqn:Hexam; [discriminate Hsuccess|];
        destruct (Exam.format_answers_for_display generated_exam)
          as [e2|answers] eqn:Hanswers; [discriminate Hsuccess|]
    end.
    cbn [snd] in Hsuccess. injection Hsuccess as <- <- <-.
    unfold Exam.format_exam_for_display in Hexam.
    unfold Exam.format_answers_for_display in Hanswers.
    subst generated_exam. cbn [Exam.exam_error] in Hexam, Hanswers.
    rewrite Herror in Hexam, Hanswers.
    match type of Hexam with
    | context [Exam.exam_lines ?e] =>
        destruct (Exam.exam_lines e) as [e1|lines] eqn:Hlines;
        [discriminate Hexam|];
        destruct (Exam.answer_lines e) as [e2|lines'] eqn:Hlines';
        [discriminate Hanswers|];
        assert (Hrender : renderable e = true)
          by (apply RenderFacts.exam_lines_returns; by exists lines)
    end.
    cbn in Hexam, Hanswers. injection Hexam as <-. injection Hanswers as <-.
    cbn [Exam.exam_sections Exam.exam_total_questions Exam.exam_error].
    rewrite len_cons in Hcount. pose proof (len_nonneg sections).
    unfold renderable in Hrender. cbn [Exam.exam_sections] in Hrender.
    rewrite forallb_forall in Hrender.
    split; [done|]. split; [done|]. split.
    { apply Forall_forall. intros section Hin.
      pose proof (proj1 (Forall_forall _ _) Hall section Hin) as [Hkey Hsome].
      split; [done|].
      specialize (Hrender section (proj1 (list_elem_of_In _ _) Hin)).
      rewrite bool_decide_eq_true_2 in Hrender by done. cbn [negb orb] in Hrender.
      rewrite forallb_forall in Hrender.
      apply Forall_forall. intros item Hitem.
      specialize (Hrender item (proj1 (list_elem_of_In _ _) Hitem)).
      destruct item; try discriminate Hrender. by eexists. }
    split; [done|]. split; [lia|]. split; by eexists.
Qed.

End facts.

(** X19, witness: a first upload on a new chatbot is tracked under its
    identifier. *)
Lemma uploaded_documents_map_witness :
  tracked (Chatbot.run (U := ascii_tables) Examples.poly_hash 10 init
             (UploadPdf (Some (lit "ndt", Samples.sample_record))))
  = <[ lit "ndt" := Samples.sample_record ]> (tracked init).
Proof.
  apply (uploaded_documents_map (U := ascii_tables) Examples.poly_hash 10 init
           (UploadPdf (Some (lit "ndt", Samples.sample_record)))).
  apply reachable_init.
Defined.

(** X20, witness: a new chatbot has no document for an exam. *)
Lemma generate_exam_needs_documents_witness :
  snd (generate_exam (U := ascii_tables) Examples.sample_services init None)
  = ExamFailure no_documents_error.
Proof.
  apply (generate_exam_needs_documents (U := ascii_tables) Examples.poly_hash 10
           Examples.sample_services init None).
  - apply reachable_init.
  - reflexivity.
Defined.

(** X21, witness: with one document tracked, the welding passages in the
    index and the sample model service, an exam of three questions comes
    back. *)
Lemma generate_exam_success_witness :
  exists exam formatted_exam formatted_answers,
    snd (generate_exam (U := ascii_tables) Samples.exam_services
           (upload_pdf init (Some (lit "ndt", Samples.sample_record))) None)
    = ExamSuccess exam formatted_exam formatted_answers
    /\ Exam.exam_error exam = None
    /\ 0 < Exam.count_questions (Exam.exam_sections exam).
Proof.
  destruct (snd (generate_exam (U := ascii_tables) Samples.exam_services
                   (upload_pdf init (Some (lit "ndt", Samples.sample_record)))
                   None))
    as [error|exam formatted_exam formatted_answers] eqn:Hresult.
  - vm_compute in Hresult. discriminate Hresult.
  - exists exam, formatted_exam, formatted_answers.
    split; [reflexivity|].
    destruct (generate_exam_success (U := ascii_tables) Samples.exam_services
                (upload_pdf init (Some (lit "ndt", Samples.sample_record)))
                None exam formatted_exam formatted_answers Hresult)
      as (_ & _ & Herror & _ & _ & _ & Hpositive & _).
    split; [exact Herror|exact Hpositive].
Defined.

(** A reply that decodes to a list of numbers keeps its section, and a
    reply that decodes to a number does not; the renderer then asks the
    first number for a key, and [generate_exam] fails with the text of
    that exception. *)
Example generate_exam_raises :
  (fst <$> Exam.exam_sections
             (Exam.generate_complete_exam (U := ascii_tables)
                Samples.numbers_model_reply Examples.sample_json_loads
                Examples.sample_text None))
  = [lit "true_false"; lit "essay"]
  /\ snd (generate_exam (U := ascii_tables) Samples.numbers_services
            (upload_pdf init (Some (lit "ndt", Samples.sample_record))) None)
     = ExamFailure (lit "'int' object has no attribute 'get'").
Proof. split; vm_compute; reflexivity. Qed.

End SessionFacts.

(* ===================================================================== *)
(** * Facts about metadata cleaning                                      *)
(* ===================================================================== *)

Module IndexingFacts.

Import PyFacts Dict Indexing.

Section facts.

Context `{U : Unicode}.

Lemma clean_metadata_snoc (metadata : list (str * raw_value)) (key : str)
    (value : raw_value) :
  _clean_metadata (metadata ++ [(key, value)])
  = <[ clean_key key := clean_value value ]> (_clean_metadata metadata).
Proof. unfold _clean_metadata. by rewrite fold_left_app. Qed.

(** A value that is not simple is stored as a string of at most 500
    characters, the empty string for [None]. *)
Lemma clean_value_complex (value : raw_value) :
  simple value = None ->
  exists s, clean_value value = MStr s
            /\ len s <= 500
            /\ (value = RNone -> s = []).
Proof.
  intros Hcomplex. unfold clean_value. rewrite Hcomplex.
  destruct value as [s|z|shown|b| |shown]; try done.
  - exists []. by rewrite len_nil.
  - exists (slice_to 500 shown). split; [done|]. split; [|done].
    unfold slice_to, len. cbn [Z.leb Z.compare]. rewrite length_take.
    change (Z.to_nat 500) with 500%nat. lia.
Qed.

(** X22. The dictionary [_clean_metadata] returns holds, under a key,
    the cleaned value of the last item of the input whose cleaned key is
    that key, and nothing when there is no such item: items whose keys
    clean to the same key overwrite one another in order.  A value that is
    a string, an integer, a float or a boolean is kept as it is; any other
    is stored as a string of at most 500 characters, [None] as the empty
    string. *)
Theorem clean_metadata_lookup (metadata : list (str * raw_value)) (key : str) :
  _clean_metadata metadata !! key
  = clean_value
      <$> last (snd <$> filter (fun item => clean_key (fst item) = key) metadata)
  /\ (forall value v, simple value = Some v -> clean_value value = v)
  /\ (forall value, simple value = None ->
        exists s, clean_value value = MStr s /\ len s <= 500
                  /\ (value = RNone -> s = [])).
Proof.
  split; [|split; [|apply clean_value_complex]].
  - induction metadata as [|[k value] metadata IH] using rev_ind; [done|].
    rewrite clean_metadata_snoc, filter_app, fmap_app.
    destruct (decide (clean_key k = key)) as [Hkey|Hkey].
    + rewrite filter_cons_True by done. rewrite filter_nil.
      cbn [fmap list_fmap snd]. rewrite last_snoc. cbn [fmap option_fmap option_map].
      subst key. by rewrite lookup_insert_eq.
    + rewrite filter_cons_False by done. rewrite filter_nil, app_nil_r.
      by rewrite lookup_insert_ne.
  - intros value v Hsimple. unfold clean_value. by rewrite Hsimple.
Qed.

End facts.

End IndexingFacts.
